(** * A shallow embedding of V8's scanner support classes

    Source: [src/parsing/scanner.h] (classes [Utf16CharacterStream],
    [DuplicateFinder], [LiteralBuffer] and the inline part of [Scanner]).

    Conventions.
    - C++ integers are [Z] with the wrap-around of their width written out
      ([to_int], [to_size_t], [to_uint16], [to_uint8]).
    - A [Vector<byte>] is the list of its bytes; a store through a pointer or
      an index that leaves the vector is undefined behaviour and is modelled
      by [None] in the [option] monad, as is a failing [DCHECK].
    - Pure virtual methods are fields of a type class. *)

From Stdlib Require Import ZArith Lia Bool.
From stdpp Require Import base tactics option list numbers functions gmap.

Local Open Scope Z_scope.

(** ** Machine integers *)

Definition wrap_signed (w z : Z) : Z := (z + 2 ^ (w - 1)) mod 2 ^ w - 2 ^ (w - 1).

(** [int] and [uc32] (= [int32_t]). *)
Definition to_int (z : Z) : Z := wrap_signed 32 z.
(** [uint32_t]. *)
Definition to_uint32 (z : Z) : Z := z mod 2 ^ 32.
(** [uint16_t]. *)
Definition to_uint16 (z : Z) : Z := z mod 2 ^ 16.
(** [uint8_t], [byte]. *)
Definition to_uint8 (z : Z) : Z := z mod 2 ^ 8.
(** [size_t] of a 64-bit target. *)
Definition to_size_t (z : Z) : Z := z mod 2 ^ 64.

Definition INT_MAX : Z := 2 ^ 31 - 1.
Definition INT_MIN : Z := - 2 ^ 31.
Definition SIZE_MAX : Z := 2 ^ 64 - 1.

Definition is_byte (b : Z) : Prop := 0 <= b < 2 ^ 8.
Definition is_uint16 (u : Z) : Prop := 0 <= u < 2 ^ 16.

(** ** Constants and helpers of other headers *)

(** Modelled from the spec: [kOneByteSize] of [src/globals.h], which is not
    among the sources; a narrow character takes one byte ("byte length if
    narrow"). *)
Definition kOneByteSize : Z := 1.

(** Modelled from the spec: [kUC16Size] of [src/globals.h], which is not
    among the sources; a wide character takes two bytes ("half the byte
    length if wide"). *)
Definition kUC16Size : Z := 2.

(** Modelled from the spec: [MB] of [src/globals.h], which is not among the
    sources ("1 MiB per growth step"). *)
Definition MB : Z := 1024 * 1024.

Module Latin1.
(** Modelled from the spec: [unibrow::Latin1::kMaxChar] of [src/unicode.h],
    which is not among the sources; the narrow range is Latin-1, one byte. *)
Definition kMaxChar : Z := 255.
End Latin1.

(** The helpers of [unibrow::Utf16] are in [src/unicode.h], which is not
    among the sources.  They are modelled as the UTF-16 encoding the spec
    refers to: a code point outside the Basic Multilingual Plane is split
    into a lead and a trail surrogate, and a lead followed by a trail is
    combined into one 21-bit code point. *)
Module Utf16.
(** Modelled from the spec: [kNoPreviousCharacter], the value that is no code
    unit; the surrogate tests reject it (it is the end-of-input sentinel of
    the stream). *)
Definition kNoPreviousCharacter : Z := -1.

(** Modelled from the spec: [kMaxNonSurrogateCharCode], the end of the
    "single-code-unit range", the Basic Multilingual Plane. *)
Definition kMaxNonSurrogateCharCode : Z := 65535.

(** Modelled from the spec: [IsLeadSurrogate], the units 0xD800..0xDBFF. *)
Definition IsLeadSurrogate (code : Z) : bool :=
  if decide (code = kNoPreviousCharacter) then false
  else bool_decide (Z.land code 64512 = 55296).

(** Modelled from the spec: [IsTrailSurrogate], the units 0xDC00..0xDFFF. *)
Definition IsTrailSurrogate (code : Z) : bool :=
  if decide (code = kNoPreviousCharacter) then false
  else bool_decide (Z.land code 64512 = 56320).

(** Modelled from the spec: [LeadSurrogate], the first unit of the pair a
    code point above the Basic Multilingual Plane is split into. *)
Definition LeadSurrogate (char_code : Z) : Z :=
  to_uint16 (55296 + Z.land (Z.shiftr (to_uint32 (char_code - 65536)) 10) 1023).

(** Modelled from the spec: [TrailSurrogate], the second unit of the pair. *)
Definition TrailSurrogate (char_code : Z) : Z :=
  to_uint16 (56320 + Z.land char_code 1023).

(** Modelled from the spec: [CombineSurrogatePair], the code point a lead
    and a trail surrogate encode. *)
Definition CombineSurrogatePair (lead trail : Z) : Z :=
  to_int (65536 + Z.shiftl (Z.land lead 1023) 10 + Z.land trail 1023).
End Utf16.

(** ** [Vector<byte>] *)

Definition Vector_length (v : list Z) : Z := Z.of_nat (List.length v).

(** [Vector<byte>::New(n)]: fresh memory, modelled as zero bytes. *)
Definition Vector_New (n : Z) : list Z := replicate (Z.to_nat n) 0.

(** [v[i]] read through a raw pointer. *)
Definition load8 (v : list Z) (i : Z) : option Z :=
  if decide (0 <= i) then v !! Z.to_nat i else None.

(** [v[i] = static_cast<byte>(x)]. *)
Definition store8 (v : list Z) (i x : Z) : option (list Z) :=
  if decide (0 <= i < Vector_length v)
  then Some (<[Z.to_nat i := to_uint8 x]> v)
  else None.

(** [*reinterpret_cast<uint16_t*>(&v[i]) = x], little endian. *)
Definition store16 (v : list Z) (i x : Z) : option (list Z) :=
  v' ← store8 v i (to_uint16 x);
  store8 v' (i + 1) (Z.shiftr (to_uint16 x) 8).

(** [reinterpret_cast<const uint16_t*>(v.start())[k]]. *)
Definition uint16_at (v : list Z) (k : nat) : Z :=
  v !!! (2 * k)%nat + 2 ^ 8 * v !!! (2 * k + 1)%nat.

(** [MemCopy(dst, src, n)] and [std::copy(src, src + n, dst)]. *)
Definition MemCopy (dst src : list Z) (n : Z) : option (list Z) :=
  if decide (0 <= n <= Vector_length src /\ n <= Vector_length dst)
  then Some (take (Z.to_nat n) src ++ drop (Z.to_nat n) dst)
  else None.

(** [strncmp(s1, s2, n)] of the C library on the bytes two pointers point
    to: at most [n] bytes are compared, as [unsigned char]; the first
    difference decides, and a NUL in both ends the comparison.  A read
    that leaves the memory is undefined. *)
Fixpoint strncmp (s1 s2 : list Z) (n : Z) : option Z :=
  if decide (n <= 0) then Some 0
  else
    match s1, s2 with
    | c1 :: s1, c2 :: s2 =>
        if decide (c1 = c2) then
          if decide (c1 = 0) then Some 0 else strncmp s1 s2 (n - 1)
        else Some (c1 - c2)
    | _, _ => None
    end.

(** ** [Utf16CharacterStream] *)

Module Utf16CharacterStream.

Definition kEndOfInput : Z := -1.

(** The state of the base class.  [buffer] is the memory the two pointers
    point into, as a list of 16-bit units, and the pointers are indices
    into it; [sub] is the state a subclass adds. *)
Record t (X : Type) := Build {
  buffer : list Z;
  buffer_cursor_ : Z;
  buffer_end_ : Z;
  pos_ : Z;
  sub : X
}.
Arguments Build {X}.
Arguments buffer {X}.
Arguments buffer_cursor_ {X}.
Arguments buffer_end_ {X}.
Arguments pos_ {X}.
Arguments sub {X}.

(** The pure virtual methods [ReadBlock], [SlowSeekForward] and
    [PushBack]. *)
Class Virtual (X : Type) := {
  ReadBlock : t X -> bool * t X;
  SlowSeekForward : Z -> t X -> Z * t X;
  PushBack : Z -> t X -> t X
}.

Section Stream.
Context {X : Type} `{!Virtual X}.

(** The base-class update of cursor and position. *)
Definition move (cursor pos : Z) (s : t X) : t X :=
  {| buffer := buffer s;
     buffer_cursor_ := cursor;
     buffer_end_ := buffer_end_ s;
     pos_ := pos;
     sub := sub s |}.

(** [*buffer_cursor_], a load through the raw pointer. *)
Definition deref_cursor (s : t X) : option Z :=
  if decide (0 <= buffer_cursor_ s) then buffer s !! Z.to_nat (buffer_cursor_ s)
  else None.

Definition Advance (s : t X) : option (Z * t X) :=
  let '(more, s) :=
    if decide (buffer_cursor_ s < buffer_end_ s) then (true, s) else ReadBlock s in
  if more then
    c ← deref_cursor s;
    Some (to_int c, move (buffer_cursor_ s + 1) (to_size_t (pos_ s + 1)) s)
  else
    Some (kEndOfInput, move (buffer_cursor_ s) (to_size_t (pos_ s + 1)) s).

Definition pos (s : t X) : Z := pos_ s.

Definition SeekForward (code_unit_count : Z) (s : t X) : Z * t X :=
  let buffered_chars := to_size_t (buffer_end_ s - buffer_cursor_ s) in
  if decide (code_unit_count <= buffered_chars) then
    (code_unit_count,
     move (buffer_cursor_ s + code_unit_count)
          (to_size_t (pos_ s + code_unit_count)) s)
  else SlowSeekForward code_unit_count s.

(** Calls of the two public, non-virtual movers, and runs of them. *)
Inductive Op :=
| DoAdvance
| DoSeekForward (code_unit_count : Z).

Definition step (op : Op) (s : t X) : option (t X) :=
  match op with
  | DoAdvance => snd <$> Advance s
  | DoSeekForward n => Some (snd (SeekForward n s))
  end.

Fixpoint run (ops : list Op) (s : t X) : option (t X) :=
  match ops with
  | [] => Some s
  | op :: ops => s ← step op s; run ops s
  end.

(** [n] calls of [Advance] one after the other, with the values they
    return. *)
Fixpoint Advances (n : nat) (s : t X) : option (list Z * t X) :=
  match n with
  | O => Some ([], s)
  | S n =>
      '(c, s) ← Advance s;
      '(cs, s) ← Advances n s;
      Some (c :: cs, s)
  end.

(** The most a call can add to [pos_]. *)
Definition reach (op : Op) : Z :=
  match op with
  | DoAdvance => 1
  | DoSeekForward n => n
  end.

Definition total_reach (ops : list Op) : Z := foldr Z.add 0 (reach <$> ops).

Definition in_bounds (op : Op) : Prop :=
  match op with
  | DoAdvance => True
  | DoSeekForward n => 0 <= n
  end.

(** The unit of the input at a position, [kEndOfInput] past the end. *)
Definition unit_at (input : list Z) (p : Z) : Z :=
  default kEndOfInput (input !! Z.to_nat p).

(** What the base class needs of its fields for an input: the buffered
    window [buffer_cursor_ .. buffer_end_) lies in the buffer and holds
    the units of the input from position [pos_] on. *)
Definition window_ok (input : list Z) (s : t X) : Prop :=
  0 <= buffer_cursor_ s <= buffer_end_ s /\
  buffer_end_ s <= Vector_length (buffer s) /\
  0 <= pos_ s <= SIZE_MAX /\
  forall i : nat,
    buffer_cursor_ s + Z.of_nat i < buffer_end_ s ->
    is_Some (input !! Z.to_nat (pos_ s + Z.of_nat i)) /\
    buffer s !! Z.to_nat (buffer_cursor_ s + Z.of_nat i)
    = input !! Z.to_nat (pos_ s + Z.of_nat i).

(** The contract of a subclass, as the comments of the class state it:
    [Inv input s] is its representation invariant for a stream over
    [input].  It gives [window_ok], it is kept by the moves of the base
    class, [ReadBlock] makes [buffer_cursor_] point to the unit at [pos_]
    and returns [false] at or after the end, [SlowSeekForward] skips the
    units it reports, and [PushBack] of the unit read last steps back by
    one. *)
Class Contract := {
  Inv : list Z -> t X -> Prop;
  Inv_window input s : Inv input s -> window_ok input s;
  Inv_seek input s n :
    Inv input s -> 0 <= n <= buffer_end_ s - buffer_cursor_ s ->
    pos_ s + n <= SIZE_MAX ->
    Inv input (move (buffer_cursor_ s + n) (pos_ s + n) s);
  Inv_past_end input s :
    Inv input s -> buffer_cursor_ s = buffer_end_ s ->
    Vector_length input <= pos_ s -> pos_ s + 1 <= SIZE_MAX ->
    Inv input (move (buffer_cursor_ s) (pos_ s + 1) s);
  ReadBlock_spec input s :
    Inv input s -> ~ buffer_cursor_ s < buffer_end_ s ->
    Inv input (snd (ReadBlock s)) /\
    pos_ (snd (ReadBlock s)) = pos_ s /\
    if fst (ReadBlock s)
    then buffer_cursor_ (snd (ReadBlock s)) < buffer_end_ (snd (ReadBlock s))
    else buffer_cursor_ (snd (ReadBlock s)) = buffer_end_ (snd (ReadBlock s))
         /\ Vector_length input <= pos_ s;
  SlowSeekForward_spec input n s :
    Inv input s -> 0 <= n ->
    Inv input (snd (SlowSeekForward n s)) /\
    0 <= fst (SlowSeekForward n s) <= n /\
    pos_ (snd (SlowSeekForward n s)) = pos_ s + fst (SlowSeekForward n s);
  PushBack_spec input s :
    Inv input s -> 0 < pos_ s ->
    Inv input (PushBack (unit_at input (pos_ s - 1)) s) /\
    pos_ (PushBack (unit_at input (pos_ s - 1)) s) = pos_ s - 1
}.
End Stream.
Arguments Contract X {_}.

(** The virtual methods [SetBookmark] and [ResetToBookmark]; the header
    declares them and the subclasses define them. *)
Class VirtualBookmark (X : Type) := {
  SetBookmark : t X -> bool * t X;
  ResetToBookmark : t X -> t X
}.

(** Modelled from the spec: the contract of the stream bookmark, whose
    implementations are not among the sources.  "[set_bookmark()] /
    [reset_to_bookmark()]: capture/restore stream position"; setting may fail.
    [Marked p s] says the stream [s] holds a bookmark for position [p]. *)
Class BookmarkContract (X : Type) `{!Virtual X} `{!Contract X} `{!VirtualBookmark X} := {
  Marked : Z -> t X -> Prop;
  SetBookmark_spec input s :
    Inv input s ->
    Inv input (snd (SetBookmark s)) /\
    pos_ (snd (SetBookmark s)) = pos_ s /\
    (fst (SetBookmark s) = true -> Marked (pos_ s) (snd (SetBookmark s)));
  ResetToBookmark_spec input p s :
    Inv input s -> Marked p s ->
    Inv input (ResetToBookmark s) /\ pos_ (ResetToBookmark s) = p
}.

End Utf16CharacterStream.

(** An in-memory code-unit stream.  The subclasses of [Utf16CharacterStream]
    are not among the sources; this one is the simplest implementation of
    the virtual methods the spec allows for ("in-memory buffer"), and shows
    that the contracts above can be met. *)
Module StringStream.
Import Utf16CharacterStream.

(** Modelled from the spec: the pure virtual methods of an in-memory stream.
    The whole input is buffered, so [ReadBlock] never finds more,
    [SlowSeekForward] has nothing to skip, and [PushBack] "un-consumes
    exactly the most recently advanced unit (or sentinel)": it steps the
    position back, and the cursor too unless the unit is the sentinel. *)
#[global] Instance virtual : Virtual Z := {|
  ReadBlock s := (false, s);
  SlowSeekForward _ s := (0, s);
  PushBack c s :=
    move (if decide (c = kEndOfInput) then buffer_cursor_ s else buffer_cursor_ s - 1)
         (to_size_t (pos_ s - 1)) s
|}.

(** Modelled from the spec: the bookmark of an in-memory stream, "capture /
    restore stream position": the position is saved in the subclass state. *)
#[global] Instance virtual_bookmark : VirtualBookmark Z := {|
  SetBookmark s :=
    (true, {| buffer := buffer s; buffer_cursor_ := buffer_cursor_ s;
              buffer_end_ := buffer_end_ s; pos_ := pos_ s; sub := pos_ s |});
  ResetToBookmark s := move (Z.min (sub s) (buffer_end_ s)) (sub s) s
|}.

(** Modelled from the spec: the constructor of an in-memory stream, at
    position zero of its input. *)
Definition make (input : list Z) : t Z :=
  {| buffer := input; buffer_cursor_ := 0;
     buffer_end_ := Vector_length input; pos_ := 0; sub := 0 |}.

(** The stream holds a bookmark for position [p]. *)
Definition marked (p : Z) (s : t Z) : Prop :=
  sub s = p /\ 0 <= p <= SIZE_MAX.

(** The representation invariant of the in-memory stream over [input]. *)
Definition inv (input : list Z) (s : t Z) : Prop :=
  buffer s = input /\
  Forall is_uint16 input /\
  buffer_end_ s = Vector_length input /\
  0 <= pos_ s <= SIZE_MAX /\
  buffer_cursor_ s = Z.min (pos_ s) (Vector_length input).
End StringStream.

(** ** [LiteralBuffer] *)

Module LiteralBuffer.

Record t := Build {
  is_one_byte_ : bool;
  position_ : Z;
  backing_store_ : list Z
}.

(** [LiteralBuffer()]. *)
Definition init : t :=
  {| is_one_byte_ := true; position_ := 0; backing_store_ := [] |}.

Definition kInitialCapacity : Z := 16.
Definition kGrowthFactory : Z := 4.
Definition kMinConversionSlack : Z := 256.
Definition kMaxGrowth : Z := 1 * MB.

Definition NewCapacity (min_capacity : Z) (lb : t) : Z :=
  let capacity := Z.max min_capacity (Vector_length (backing_store_ lb)) in
  let new_capacity :=
    Z.min (to_int (capacity * kGrowthFactory)) (to_int (capacity + kMaxGrowth)) in
  new_capacity.

Definition ExpandBuffer (lb : t) : option t :=
  let new_store := Vector_New (NewCapacity kInitialCapacity lb) in
  new_store ← MemCopy new_store (backing_store_ lb) (position_ lb);
  Some {| is_one_byte_ := is_one_byte_ lb;
          position_ := position_ lb;
          backing_store_ := new_store |}.

(** The loop [for (int i = position_ - 1; i >= 0; i--) dst[i] = src[i];]
    with [n] iterations left, the next one at [i = n - 1].  When [new_store] is the old backing
    store ([aliased]), [src] and [dst] are the same memory and every store
    through [dst] is seen by the later loads through [src]. *)
Fixpoint ConvertLoop (aliased : bool) (n : nat) (src dst : list Z)
  : option (list Z) :=
  match n with
  | O => Some dst
  | S i =>
      b ← load8 src (Z.of_nat i);
      dst' ← store16 dst (2 * Z.of_nat i) b;
      ConvertLoop aliased i (if aliased then dst' else src) dst'
  end.

Definition ConvertToTwoByte (lb : t) : option t :=
  if is_one_byte_ lb then
    let new_content_size := to_int (position_ lb * kUC16Size) in
    let aliased :=
      negb (bool_decide (new_content_size >= Vector_length (backing_store_ lb))) in
    let new_store :=
      if aliased then backing_store_ lb
      else Vector_New (NewCapacity new_content_size lb) in
    new_store ← ConvertLoop aliased (Z.to_nat (position_ lb))
                            (backing_store_ lb) new_store;
    Some {| is_one_byte_ := false;
            position_ := new_content_size;
            backing_store_ := new_store |}
  else None.

Definition set_store (st : list Z) (position : Z) (lb : t) : t :=
  {| is_one_byte_ := is_one_byte_ lb;
     position_ := position;
     backing_store_ := st |}.

(** The part of [AddChar] after the [if (is_one_byte_)] block. *)
Definition AddCharTwoByte (code_unit : Z) (lb : t) : option t :=
  if decide (code_unit <= Utf16.kMaxNonSurrogateCharCode) then
    st ← store16 (backing_store_ lb) (position_ lb) code_unit;
    Some (set_store st (to_int (position_ lb + kUC16Size)) lb)
  else
    st ← store16 (backing_store_ lb) (position_ lb) (Utf16.LeadSurrogate code_unit);
    let lb := set_store st (to_int (position_ lb + kUC16Size)) lb in
    lb ← (if decide (position_ lb >= Vector_length (backing_store_ lb))
          then ExpandBuffer lb else Some lb);
    st ← store16 (backing_store_ lb) (position_ lb) (Utf16.TrailSurrogate code_unit);
    Some (set_store st (to_int (position_ lb + kUC16Size)) lb).

(** [AddChar(uint32_t code_unit)]. *)
Definition AddChar (code_unit : Z) (lb : t) : option t :=
  lb ← (if decide (position_ lb >= Vector_length (backing_store_ lb))
        then ExpandBuffer lb else Some lb);
  if is_one_byte_ lb then
    if decide (code_unit <= Latin1.kMaxChar) then
      st ← store8 (backing_store_ lb) (position_ lb) code_unit;
      Some (set_store st (to_int (position_ lb + kOneByteSize)) lb)
    else
      lb ← ConvertToTwoByte lb;
      AddCharTwoByte code_unit lb
  else AddCharTwoByte code_unit lb.

Definition is_one_byte (lb : t) : bool := is_one_byte_ lb.

(** [two_byte_literal()]; both [DCHECK]s guard the view. *)
Definition two_byte_literal (lb : t) : option (list Z) :=
  if negb (is_one_byte_ lb) && bool_decide (Z.land (position_ lb) 1 = 0) then
    Some (uint16_at (backing_store_ lb)
            <$> seq 0 (Z.to_nat (Z.shiftr (position_ lb) 1)))
  else None.

Definition one_byte_literal (lb : t) : option (list Z) :=
  if is_one_byte_ lb then
    Some (take (Z.to_nat (position_ lb)) (backing_store_ lb))
  else None.

Definition length (lb : t) : Z :=
  if is_one_byte_ lb then position_ lb else Z.shiftr (position_ lb) 1.

(** [is_contextual_keyword(keyword)]: [memcmp] over [position_] bytes. *)
Definition is_contextual_keyword (keyword : list Z) (lb : t) : bool :=
  is_one_byte lb && bool_decide (Vector_length keyword = position_ lb) &&
  bool_decide (take (Z.to_nat (position_ lb)) keyword
               = take (Z.to_nat (position_ lb)) (backing_store_ lb)).

Definition ReduceLength (delta : Z) (lb : t) : t :=
  set_store (backing_store_ lb)
    (to_int (position_ lb
             - to_int (delta * (if is_one_byte_ lb then kOneByteSize else kUC16Size))))
    lb.

Definition Reset (lb : t) : t :=
  {| is_one_byte_ := true; position_ := 0; backing_store_ := backing_store_ lb |}.

(** [CopyFrom(other)]; [None] is [nullptr]. *)
Definition CopyFrom (other : option t) (lb : t) : option t :=
  match other with
  | None => Some (Reset lb)
  | Some other =>
      let position := position_ other in
      if decide (position < Vector_length (backing_store_ lb)) then
        st ← MemCopy (backing_store_ lb) (backing_store_ other) position;
        Some {| is_one_byte_ := is_one_byte_ other;
                position_ := position;
                backing_store_ := st |}
      else
        Some {| is_one_byte_ := is_one_byte_ other;
                position_ := position;
                backing_store_ := backing_store_ other |}
  end.

(** A run of [AddChar] calls. *)
Fixpoint AddChars (cs : list Z) (lb : t) : option t :=
  match cs with
  | [] => Some lb
  | c :: cs => lb ← AddChar c lb; AddChars cs lb
  end.

(** *** Logical content and representation invariant *)

(** The code units held by the buffer, whatever its mode. *)
Definition chars (lb : t) : list Z :=
  if is_one_byte_ lb then take (Z.to_nat (position_ lb)) (backing_store_ lb)
  else uint16_at (backing_store_ lb)
         <$> seq 0 (Z.to_nat (Z.shiftr (position_ lb) 1)).

(** What [AddChar] appends in wide mode: the unit itself, or the surrogate
    pair of a code point above [kMaxNonSurrogateCharCode]. *)
Definition code_units (c : Z) : list Z :=
  if decide (c <= Utf16.kMaxNonSurrogateCharCode) then [c]
  else [Utf16.LeadSurrogate c; Utf16.TrailSurrogate c].

(** The invariant the class maintains: [position_] lies inside the backing
    store, whose length is even (it is 0 or a result of [NewCapacity]), and a
    wide buffer holds whole 16-bit units. *)
Record wf (lb : t) : Prop := {
  wf_position : 0 <= position_ lb <= Vector_length (backing_store_ lb);
  wf_capacity : Z.even (Vector_length (backing_store_ lb)) = true;
  wf_bytes : Forall is_byte (backing_store_ lb);
  wf_wide : is_one_byte_ lb = false -> Z.even (position_ lb) = true
}.

(** Bytes the content takes once widened; an [AddChar] adds at most 4. *)
Definition cost (lb : t) : Z :=
  if is_one_byte_ lb then 2 * position_ lb else position_ lb.

(** Sizes for which no [int] computation of the class overflows. *)
Definition in_range (lb : t) : Prop :=
  cost lb <= 2 ^ 27 /\ Vector_length (backing_store_ lb) <= 2 ^ 28 + MB + 64.

(** The code units a run of [AddChar] calls appends to a buffer that is
    narrow ([one = true]) or wide: bytes while the buffer is narrow and the
    code unit is at most [Latin1::kMaxChar], 16-bit units from then on. *)
Fixpoint appended (one : bool) (cs : list Z) : list Z :=
  match cs with
  | [] => []
  | c :: cs =>
      let one' := one && bool_decide (c <= Latin1.kMaxChar) in
      (if one' then [c] else code_units c) ++ appended one' cs
  end.

(** The mutating operations other than [Reset] and [CopyFrom], and runs of
    them. *)
Inductive Op :=
| DoAddChar (code_unit : Z)
| DoReduceLength (delta : Z).

Definition step (op : Op) (lb : t) : option t :=
  match op with
  | DoAddChar c => AddChar c lb
  | DoReduceLength delta => Some (ReduceLength delta lb)
  end.

Fixpoint run (ops : list Op) (lb : t) : option t :=
  match ops with
  | [] => Some lb
  | op :: ops => lb ← step op lb; run ops lb
  end.

(** The buffer [AddChar(0x100)] makes of a fresh one: wide, holding the one
    unit 0x100 in a 64-byte store. *)
Definition wide_sample : t :=
  {| is_one_byte_ := false; position_ := 2;
     backing_store_ := 0 :: 1 :: replicate 62 0 |}.

End LiteralBuffer.

(** ** [DuplicateFinder] *)

Module DuplicateFinder.

(** Modelled from the spec: the state of [DuplicateFinder].  The bodies of
    the class are in [src/parsing/scanner.cc], which is not among the sources;
    the header only declares them.  The backing store is the "append-only
    sequence of length-prefixed encoded keys", and the hash map with its
    [Match] function is the "hash index [that] maps byte-identical encoded
    keys to the last associated value": a finite map keyed by the encoded
    bytes. *)
Record t := Build {
  backing_store_ : list (list Z);
  map_ : gmap (list Z) Z
}.

(** Modelled from the spec: the constructor of [DuplicateFinder], an empty
    backing store and an empty map. *)
Definition init : t := {| backing_store_ := []; map_ := ∅ |}.

(** Modelled from the spec: the "variable-width, base-127" digits of the
    length prefix, least significant first; five digits hold any 32-bit
    value. *)
Fixpoint base127 (digits : nat) (n : Z) : list Z :=
  match digits with
  | O => []
  | S digits =>
      if decide (n < 127) then [n]
      else (n mod 127) :: base127 digits (n / 127)
  end.

(** Modelled from the spec: [BackupKey], which is missing from the sources.
    The key is stored "with a base 127 encoding of the length (plus a bit
    saying whether the string is one byte), followed by the bytes of the
    key". *)
Definition BackupKey (key : list Z) (is_one_byte : bool) : list Z :=
  base127 5 (Z.lor (Z.shiftl (Vector_length key) 1) (if is_one_byte then 1 else 0))
  ++ key.

(** Modelled from the spec: [AddSymbol], which is missing from the sources.
    It encodes the key into the backing store and either inserts "a new entry
    (returning the now-current [value])" or finds "an existing
    identical-content entry" and returns "its previous associated value
    while overwriting it with the new one". *)
Definition AddSymbol (key : list Z) (is_one_byte : bool) (value : Z) (df : t)
  : Z * t :=
  let encoding := BackupKey key is_one_byte in
  let df' := {| backing_store_ := backing_store_ df ++ [encoding];
                map_ := <[encoding := value]> (map_ df) |} in
  match map_ df !! encoding with
  | None => (value, df')
  | Some old_value => (old_value, df')
  end.

(** Modelled from the spec: [AddOneByteSymbol], which is missing from the
    sources; the one-byte entry to [AddSymbol]. *)
Definition AddOneByteSymbol (key : list Z) (value : Z) (df : t) : Z * t :=
  AddSymbol key true value df.

(** Modelled from the spec: [AddTwoByteSymbol], which is missing from the
    sources; the 16-bit units are handed to [AddSymbol] as their bytes. *)
Definition AddTwoByteSymbol (key : list Z) (value : Z) (df : t) : Z * t :=
  AddSymbol (key ≫= fun u => [to_uint8 u; to_uint8 (Z.shiftr u 8)]) false value df.

End DuplicateFinder.

(** ** [Scanner] *)

Module Token.
(** Modelled from the spec: [Token::Value] of [src/parsing/token.h], which is
    not among the sources.  The header names [STRING] and [UNINITIALIZED]; the
    spec names number, identifier, illegal and end-of-source tokens; the
    remaining kinds are numbered. *)
Inductive Value :=
| UNINITIALIZED
| STRING
| NUMBER
| IDENTIFIER
| ILLEGAL
| EOS
| Other (index : nat).

#[global] Instance Value_eq_dec : EqDecision Value.
Proof. solve_decision. Defined.
End Token.

Module MessageTemplate.
(** Modelled from the spec: [MessageTemplate::Template] of [src/messages.h],
    which is not among the sources.  [kNone] is the value of the empty error
    slot; the error kinds are numbered. *)
Inductive Template :=
| kNone
| kError (index : nat).

#[global] Instance Template_eq_dec : EqDecision Template.
Proof. solve_decision. Defined.
End MessageTemplate.

Module Scanner.

(** [Scanner::Location]. *)
Record Location := Loc {
  beg_pos : Z;
  end_pos : Z
}.

(** [Location()]. *)
Definition Location_default : Location := Loc 0 0.

Definition IsValid (l : Location) : bool :=
  bool_decide (beg_pos l >= 0) && bool_decide (end_pos l >= beg_pos l).

Definition invalid : Location := Loc (-1) (-1).

Definition kNoOctalLocation : Z := -1.

(** The [LiteralBuffer] members of the scanner; a [LiteralBuffer*] into the
    scanner is [Some] of one of them, [NULL] is [None]. *)
Inductive LiteralBufferRef :=
| literal_buffer0_
| literal_buffer1_
| literal_buffer2_
| source_url_
| source_mapping_url_
| raw_literal_buffer0_
| raw_literal_buffer1_
| raw_literal_buffer2_
| bookmark_current_literal_
| bookmark_current_raw_literal_
| bookmark_next_literal_
| bookmark_next_raw_literal_.

#[global] Instance LiteralBufferRef_eq_dec : EqDecision LiteralBufferRef.
Proof. solve_decision. Defined.

Record TokenDesc := Desc {
  token : Token.Value;
  location : Location;
  literal_chars : option LiteralBufferRef;
  raw_literal_chars : option LiteralBufferRef;
  smi_value_ : Z
}.

Definition set_literal_chars (p : option LiteralBufferRef) (d : TokenDesc) : TokenDesc :=
  {| token := token d; location := location d; literal_chars := p;
     raw_literal_chars := raw_literal_chars d; smi_value_ := smi_value_ d |}.

Definition set_raw_literal_chars (p : option LiteralBufferRef) (d : TokenDesc) : TokenDesc :=
  {| token := token d; location := location d; literal_chars := literal_chars d;
     raw_literal_chars := p; smi_value_ := smi_value_ d |}.

Definition set_token (v : Token.Value) (d : TokenDesc) : TokenDesc :=
  {| token := v; location := location d; literal_chars := literal_chars d;
     raw_literal_chars := raw_literal_chars d; smi_value_ := smi_value_ d |}.

Definition kCharacterLookaheadBufferSize : Z := 1.
Definition kNoBookmark : Z := -1.
Definition kBookmarkWasApplied : Z := -2.

(** A memory of literal buffers in which every buffer satisfies the
    [LiteralBuffer] invariant and is of a size that keeps its [int]
    arithmetic exact. *)
Definition heap_ok (heap : LiteralBufferRef -> LiteralBuffer.t) : Prop :=
  forall r, LiteralBuffer.wf (heap r) /\
            Vector_length (LiteralBuffer.backing_store_ (heap r))
              <= 2 ^ 28 + MB + 64.

(** The members of [Scanner], with the [LiteralBuffer] members gathered in
    the store [buffers], indexed by member. *)
Record t (X : Type) := Build {
  buffers : LiteralBufferRef -> LiteralBuffer.t;
  current_ : TokenDesc;
  next_ : TokenDesc;
  next_next_ : TokenDesc;
  bookmark_c0_ : Z;
  bookmark_current_ : TokenDesc;
  bookmark_next_ : TokenDesc;
  source_ : Utf16CharacterStream.t X;
  octal_pos_ : Location;
  c0_ : Z;
  has_line_terminator_before_next_ : bool;
  has_multiline_comment_before_next_ : bool;
  found_html_comment_ : bool;
  allow_harmony_exponentiation_operator_ : bool;
  scanner_error_ : MessageTemplate.Template;
  scanner_error_location_ : Location
}.
Arguments Build {X}.
Arguments buffers {X}.
Arguments current_ {X}.
Arguments next_ {X}.
Arguments next_next_ {X}.
Arguments bookmark_c0_ {X}.
Arguments bookmark_current_ {X}.
Arguments bookmark_next_ {X}.
Arguments source_ {X}.
Arguments octal_pos_ {X}.
Arguments c0_ {X}.
Arguments has_line_terminator_before_next_ {X}.
Arguments has_multiline_comment_before_next_ {X}.
Arguments found_html_comment_ {X}.
Arguments allow_harmony_exponentiation_operator_ {X}.
Arguments scanner_error_ {X}.
Arguments scanner_error_location_ {X}.

(** Assignments to single members. *)
Definition set_buffers {X : Type} (v : LiteralBufferRef -> LiteralBuffer.t) (s : t X) : t X :=
  {| buffers := v;
     current_ := current_ s;
     next_ := next_ s;
     next_next_ := next_next_ s;
     bookmark_c0_ := bookmark_c0_ s;
     bookmark_current_ := bookmark_current_ s;
     bookmark_next_ := bookmark_next_ s;
     source_ := source_ s;
     octal_pos_ := octal_pos_ s;
     c0_ := c0_ s;
     has_line_terminator_before_next_ := has_line_terminator_before_next_ s;
     has_multiline_comment_before_next_ := has_multiline_comment_before_next_ s;
     found_html_comment_ := found_html_comment_ s;
     allow_harmony_exponentiation_operator_ := allow_harmony_exponentiation_operator_ s;
     scanner_error_ := scanner_error_ s;
     scanner_error_location_ := scanner_error_location_ s |}.

Definition set_current_ {X : Type} (v : TokenDesc) (s : t X) : t X :=
  {| buffers := buffers s;
     current_ := v;
     next_ := next_ s;
     next_next_ := next_next_ s;
     bookmark_c0_ := bookmark_c0_ s;
     bookmark_current_ := bookmark_current_ s;
     bookmark_next_ := bookmark_next_ s;
     source_ := source_ s;
     octal_pos_ := octal_pos_ s;
     c0_ := c0_ s;
     has_line_terminator_before_next_ := has_line_terminator_before_next_ s;
     has_multiline_comment_before_next_ := has_multiline_comment_before_next_ s;
     found_html_comment_ := found_html_comment_ s;
     allow_harmony_exponentiation_operator_ := allow_harmony_exponentiation_operator_ s;
     scanner_error_ := scanner_error_ s;
     scanner_error_location_ := scanner_error_location_ s |}.

Definition set_next_ {X : Type} (v : TokenDesc) (s : t X) : t X :=
  {| buffers := buffers s;
     current_ := current_ s;
     next_ := v;
     next_next_ := next_next_ s;
     bookmark_c0_ := bookmark_c0_ s;
     bookmark_current_ := bookmark_current_ s;
     bookmark_next_ := bookmark_next_ s;
     source_ := source_ s;
     octal_pos_ := octal_pos_ s;
     c0_ := c0_ s;
     has_line_terminator_before_next_ := has_line_terminator_before_next_ s;
     has_multiline_comment_before_next_ := has_multiline_comment_before_next_ s;
     found_html_comment_ := found_html_comment_ s;
     allow_harmony_exponentiation_operator_ := allow_harmony_exponentiation_operator_ s;
     scanner_error_ := scanner_error_ s;
     scanner_error_location_ := scanner_error_location_ s |}.

Definition set_next_next_ {X : Type} (v : TokenDesc) (s : t X) : t X :=
  {| buffers := buffers s;
     current_ := current_ s;
     next_ := next_ s;
     next_next_ := v;
     bookmark_c0_ := bookmark_c0_ s;
     bookmark_current_ := bookmark_current_ s;
     bookmark_next_ := bookmark_next_ s;
     source_ := source_ s;
     octal_pos_ := octal_pos_ s;
     c0_ := c0_ s;
     has_line_terminator_before_next_ := has_line_terminator_before_next_ s;
     has_multiline_comment_before_next_ := has_multiline_comment_before_next_ s;
     found_html_comment_ := found_html_comment_ s;
     allow_harmony_exponentiation_operator_ := allow_harmony_exponentiation_operator_ s;
     scanner_error_ := scanner_error_ s;
     scanner_error_location_ := scanner_error_location_ s |}.

Definition set_bookmark_c0_ {X : Type} (v : Z) (s : t X) : t X :=
  {| buffers := buffers s;
     current_ := current_ s;
     next_ := next_ s;
     next_next_ := next_next_ s;
     bookmark_c0_ := v;
     bookmark_current_ := bookmark_current_ s;
     bookmark_next_ := bookmark_next_ s;
     source_ := source_ s;
     octal_pos_ := octal_pos_ s;
     c0_ := c0_ s;
     has_line_terminator_before_next_ := has_line_terminator_before_next_ s;
     has_multiline_comment_before_next_ := has_multiline_comment_before_next_ s;
     found_html_comment_ := found_html_comment_ s;
     allow_harmony_exponentiation_operator_ := allow_harmony_exponentiation_operator_ s;
     scanner_error_ := scanner_error_ s;
     scanner_error_location_ := scanner_error_location_ s |}.

Definition set_bookmark_current_ {X : Type} (v : TokenDesc) (s : t X) : t X :=
  {| buffers := buffers s;
     current_ := current_ s;
     next_ := next_ s;
     next_next_ := next_next_ s;
     bookmark_c0_ := bookmark_c0_ s;
     bookmark_current_ := v;
     bookmark_next_ := bookmark_next_ s;
     source_ := source_ s;
     octal_pos_ := octal_pos_ s;
     c0_ := c0_ s;
     has_line_terminator_before_next_ := has_line_terminator_before_next_ s;
     has_multiline_comment_before_next_ := has_multiline_comment_before_next_ s;
     found_html_comment_ := found_html_comment_ s;
     allow_harmony_exponentiation_operator_ := allow_harmony_exponentiation_operator_ s;
     scanner_error_ := scanner_error_ s;
     scanner_error_location_ := scanner_error_location_ s |}.

Definition set_bookmark_next_ {X : Type} (v : TokenDesc) (s : t X) : t X :=
  {| buffers := buffers s;
     current_ := current_ s;
     next_ := next_ s;
     next_next_ := next_next_ s;
     bookmark_c0_ := bookmark_c0_ s;
     bookmark_current_ := bookmark_current_ s;
     bookmark_next_ := v;
     source_ := source_ s;
     octal_pos_ := octal_pos_ s;
     c0_ := c0_ s;
     has_line_terminator_before_next_ := has_line_terminator_before_next_ s;
     has_multiline_comment_before_next_ := has_multiline_comment_before_next_ s;
     found_html_comment_ := found_html_comment_ s;
     allow_harmony_exponentiation_operator_ := allow_harmony_exponentiation_operator_ s;
     scanner_error_ := scanner_error_ s;
     scanner_error_location_ := scanner_error_location_ s |}.

Definition set_source_ {X : Type} (v : Utf16CharacterStream.t X) (s : t X) : t X :=
  {| buffers := buffers s;
     current_ := current_ s;
     next_ := next_ s;
     next_next_ := next_next_ s;
     bookmark_c0_ := bookmark_c0_ s;
     bookmark_current_ := bookmark_current_ s;
     bookmark_next_ := bookmark_next_ s;
     source_ := v;
     octal_pos_ := octal_pos_ s;
     c0_ := c0_ s;
     has_line_terminator_before_next_ := has_line_terminator_before_next_ s;
     has_multiline_comment_before_next_ := has_multiline_comment_before_next_ s;
     found_html_comment_ := found_html_comment_ s;
     allow_harmony_exponentiation_operator_ := allow_harmony_exponentiation_operator_ s;
     scanner_error_ := scanner_error_ s;
     scanner_error_location_ := scanner_error_location_ s |}.

Definition set_c0_ {X : Type} (v : Z) (s : t X) : t X :=
  {| buffers := buffers s;
     current_ := current_ s;
     next_ := next_ s;
     next_next_ := next_next_ s;
     bookmark_c0_ := bookmark_c0_ s;
     bookmark_current_ := bookmark_current_ s;
     bookmark_next_ := bookmark_next_ s;
     source_ := source_ s;
     octal_pos_ := octal_pos_ s;
     c0_ := v;
     has_line_terminator_before_next_ := has_line_terminator_before_next_ s;
     has_multiline_comment_before_next_ := has_multiline_comment_before_next_ s;
     found_html_comment_ := found_html_comment_ s;
     allow_harmony_exponentiation_operator_ := allow_harmony_exponentiation_operator_ s;
     scanner_error_ := scanner_error_ s;
     scanner_error_location_ := scanner_error_location_ s |}.

Definition set_found_html_comment_ {X : Type} (v : bool) (s : t X) : t X :=
  {| buffers := buffers s;
     current_ := current_ s;
     next_ := next_ s;
     next_next_ := next_next_ s;
     bookmark_c0_ := bookmark_c0_ s;
     bookmark_current_ := bookmark_current_ s;
     bookmark_next_ := bookmark_next_ s;
     source_ := source_ s;
     octal_pos_ := octal_pos_ s;
     c0_ := c0_ s;
     has_line_terminator_before_next_ := has_line_terminator_before_next_ s;
     has_multiline_comment_before_next_ := has_multiline_comment_before_next_ s;
     found_html_comment_ := v;
     allow_harmony_exponentiation_operator_ := allow_harmony_exponentiation_operator_ s;
     scanner_error_ := scanner_error_ s;
     scanner_error_location_ := scanner_error_location_ s |}.

Definition set_scanner_error_ {X : Type} (v : MessageTemplate.Template) (s : t X) : t X :=
  {| buffers := buffers s;
     current_ := current_ s;
     next_ := next_ s;
     next_next_ := next_next_ s;
     bookmark_c0_ := bookmark_c0_ s;
     bookmark_current_ := bookmark_current_ s;
     bookmark_next_ := bookmark_next_ s;
     source_ := source_ s;
     octal_pos_ := octal_pos_ s;
     c0_ := c0_ s;
     has_line_terminator_before_next_ := has_line_terminator_before_next_ s;
     has_multiline_comment_before_next_ := has_multiline_comment_before_next_ s;
     found_html_comment_ := found_html_comment_ s;
     allow_harmony_exponentiation_operator_ := allow_harmony_exponentiation_operator_ s;
     scanner_error_ := v;
     scanner_error_location_ := scanner_error_location_ s |}.

Definition set_scanner_error_location_ {X : Type} (v : Location) (s : t X) : t X :=
  {| buffers := buffers s;
     current_ := current_ s;
     next_ := next_ s;
     next_next_ := next_next_ s;
     bookmark_c0_ := bookmark_c0_ s;
     bookmark_current_ := bookmark_current_ s;
     bookmark_next_ := bookmark_next_ s;
     source_ := source_ s;
     octal_pos_ := octal_pos_ s;
     c0_ := c0_ s;
     has_line_terminator_before_next_ := has_line_terminator_before_next_ s;
     has_multiline_comment_before_next_ := has_multiline_comment_before_next_ s;
     found_html_comment_ := found_html_comment_ s;
     allow_harmony_exponentiation_operator_ := allow_harmony_exponentiation_operator_ s;
     scanner_error_ := scanner_error_ s;
     scanner_error_location_ := v |}.
Section Scanner.
Context {X : Type} `{!Utf16CharacterStream.Virtual X}.

Definition current_token (s : t X) : Token.Value := token (current_ s).
Definition location_ (s : t X) : Location := location (current_ s).

Definition has_error (s : t X) : bool :=
  bool_decide (scanner_error_ s <> MessageTemplate.kNone).
Definition error (s : t X) : MessageTemplate.Template := scanner_error_ s.
Definition error_location (s : t X) : Location := scanner_error_location_ s.

Definition peek (s : t X) : Token.Value := token (next_ s).
Definition peek_location (s : t X) : Location := location (next_ s).

(** [ReportScannerError(const Location&, MessageTemplate::Template)]. *)
Definition ReportScannerError (location : Location)
    (error : MessageTemplate.Template) (s : t X) : t X :=
  if has_error s then s
  else set_scanner_error_location_ location (set_scanner_error_ error s).

(** [ReportScannerError(int pos, MessageTemplate::Template)]. *)
Definition ReportScannerError_pos (pos : Z)
    (error : MessageTemplate.Template) (s : t X) : t X :=
  if has_error s then s
  else set_scanner_error_location_ (Loc pos (to_int (pos + 1)))
         (set_scanner_error_ error s).

Definition StartLiteral (s : t X) : t X :=
  let free_buffer :=
    if decide (literal_chars (current_ s) = Some literal_buffer0_)
    then literal_buffer1_
    else if decide (literal_chars (current_ s) = Some literal_buffer1_)
         then literal_buffer2_
         else literal_buffer0_ in
  let s := set_buffers
             (<[free_buffer := LiteralBuffer.Reset (buffers s free_buffer)]> (buffers s)) s in
  set_next_ (set_literal_chars (Some free_buffer) (next_ s)) s.

Definition StartRawLiteral (s : t X) : t X :=
  let free_buffer :=
    if decide (raw_literal_chars (current_ s) = Some raw_literal_buffer0_)
    then raw_literal_buffer1_
    else if decide (raw_literal_chars (current_ s) = Some raw_literal_buffer1_)
         then raw_literal_buffer2_
         else raw_literal_buffer0_ in
  let s := set_buffers
             (<[free_buffer := LiteralBuffer.Reset (buffers s free_buffer)]> (buffers s)) s in
  set_next_ (set_raw_literal_chars (Some free_buffer) (next_ s)) s.

(** [p->AddChar(c)] for a [LiteralBuffer* p] into the scanner; [uc32 c] is
    converted to the [uint32_t] parameter. *)
Definition AddChar_at (p : option LiteralBufferRef) (c : Z) (s : t X) : option (t X) :=
  r ← p;
  lb ← LiteralBuffer.AddChar (to_uint32 c) (buffers s r);
  Some (set_buffers (<[r := lb]> (buffers s)) s).

Definition AddLiteralChar (c : Z) (s : t X) : option (t X) :=
  AddChar_at (literal_chars (next_ s)) c s.

Definition AddRawLiteralChar (c : Z) (s : t X) : option (t X) :=
  AddChar_at (raw_literal_chars (next_ s)) c s.

Definition ReduceRawLiteralLength (delta : Z) (s : t X) : option (t X) :=
  r ← raw_literal_chars (next_ s);
  Some (set_buffers
          (<[r := LiteralBuffer.ReduceLength delta (buffers s r)]> (buffers s)) s).

Definition DropLiteral (s : t X) : t X :=
  set_next_ (set_raw_literal_chars None (set_literal_chars None (next_ s))) s.

Definition HandleLeadSurrogate (s : t X) : option (t X) :=
  if Utf16.IsLeadSurrogate (c0_ s) then
    '(c1, source) ← Utf16CharacterStream.Advance (source_ s);
    if negb (Utf16.IsTrailSurrogate c1) then
      Some (set_source_ (Utf16CharacterStream.PushBack c1 source) s)
    else
      Some (set_c0_ (Utf16.CombineSurrogatePair (c0_ s) c1) (set_source_ source s))
  else Some s.

(** [Advance<capture_raw, check_surrogate>()]. *)
Definition Advance (capture_raw check_surrogate : bool) (s : t X) : option (t X) :=
  s ← (if capture_raw then AddRawLiteralChar (c0_ s) s else Some s);
  '(c, source) ← Utf16CharacterStream.Advance (source_ s);
  let s := set_c0_ c (set_source_ source s) in
  if check_surrogate then HandleLeadSurrogate s else Some s.

Definition AddLiteralCharAdvance (s : t X) : option (t X) :=
  s ← AddLiteralChar (c0_ s) s;
  Advance false true s.

Definition PushBack (ch : Z) (s : t X) : t X :=
  let source :=
    if decide (ch > Utf16.kMaxNonSurrogateCharCode) then
      Utf16CharacterStream.PushBack (Utf16.LeadSurrogate (to_uint32 (c0_ s)))
        (Utf16CharacterStream.PushBack (Utf16.TrailSurrogate (to_uint32 (c0_ s)))
           (source_ s))
    else Utf16CharacterStream.PushBack (c0_ s) (source_ s) in
  set_c0_ ch (set_source_ source s).

(** [Select(Token::Value tok)]. *)
Definition Select (tok : Token.Value) (s : t X) : option (Token.Value * t X) :=
  s ← Advance false true s;
  Some (tok, s).

(** [Select(uc32 next, Token::Value then, Token::Value else_)]. *)
Definition Select_next (next : Z) (then_ else_ : Token.Value) (s : t X)
  : option (Token.Value * t X) :=
  s ← Advance false true s;
  if decide (c0_ s = next) then
    s ← Advance false true s;
    Some (then_, s)
  else Some (else_, s).

(** [Init()]. *)
Definition Init (s : t X) : option (t X) :=
  s ← Advance false true s;
  let s := set_current_
             (set_raw_literal_chars None (set_literal_chars None (current_ s))) s in
  let s := set_next_next_ (set_token Token.UNINITIALIZED (next_next_ s)) s in
  let s := set_found_html_comment_ false s in
  Some (set_scanner_error_ MessageTemplate.kNone s).

(** The literal accessors; a [NULL] descriptor pointer fails the [DCHECK]. *)
Definition is_literal_one_byte (s : t X) : option bool :=
  r ← literal_chars (current_ s); Some (LiteralBuffer.is_one_byte (buffers s r)).
Definition literal_length (s : t X) : option Z :=
  r ← literal_chars (current_ s); Some (LiteralBuffer.length (buffers s r)).
Definition literal_one_byte_string (s : t X) : option (list Z) :=
  r ← literal_chars (current_ s); LiteralBuffer.one_byte_literal (buffers s r).
Definition literal_two_byte_string (s : t X) : option (list Z) :=
  r ← literal_chars (current_ s); LiteralBuffer.two_byte_literal (buffers s r).
Definition is_next_literal_one_byte (s : t X) : option bool :=
  r ← literal_chars (next_ s); Some (LiteralBuffer.is_one_byte (buffers s r)).
Definition next_literal_one_byte_string (s : t X) : option (list Z) :=
  r ← literal_chars (next_ s); LiteralBuffer.one_byte_literal (buffers s r).
Definition next_literal_two_byte_string (s : t X) : option (list Z) :=
  r ← literal_chars (next_ s); LiteralBuffer.two_byte_literal (buffers s r).

Definition raw_literal_one_byte_string (s : t X) : option (list Z) :=
  r ← raw_literal_chars (current_ s); LiteralBuffer.one_byte_literal (buffers s r).
Definition raw_literal_two_byte_string (s : t X) : option (list Z) :=
  r ← raw_literal_chars (current_ s); LiteralBuffer.two_byte_literal (buffers s r).
Definition is_raw_literal_one_byte (s : t X) : option bool :=
  r ← raw_literal_chars (current_ s); Some (LiteralBuffer.is_one_byte (buffers s r)).

Definition is_literal_contextual_keyword (keyword : list Z) (s : t X) : option bool :=
  r ← literal_chars (current_ s);
  Some (LiteralBuffer.is_contextual_keyword keyword (buffers s r)).
Definition is_next_contextual_keyword (keyword : list Z) (s : t X) : option bool :=
  r ← literal_chars (next_ s);
  Some (LiteralBuffer.is_contextual_keyword keyword (buffers s r)).

Definition source_pos (s : t X) : Z :=
  to_int (to_int (Utf16CharacterStream.pos (source_ s)) - kCharacterLookaheadBufferSize).

(** [LiteralContainsEscapes(const TokenDesc&)]; [heap] is the memory the
    descriptor's [literal_chars] points into. *)
Definition LiteralContainsEscapes (heap : LiteralBufferRef -> LiteralBuffer.t)
    (token_ : TokenDesc) : option bool :=
  let location := location token_ in
  let source_length := to_int (end_pos location - beg_pos location) in
  let source_length :=
    if decide (token token_ = Token.STRING) then to_int (source_length - 2)
    else source_length in
  r ← literal_chars token_;
  Some (bool_decide (LiteralBuffer.length (heap r) <> source_length)).

Definition literal_contains_escapes (s : t X) : option bool :=
  LiteralContainsEscapes (buffers s) (current_ s).

Definition next_literal_contains_escapes (s : t X) : option bool :=
  LiteralContainsEscapes (buffers s) (next_ s).

(** [LiteralMatches(data, length, allow_escapes)]; [data] is the memory the
    pointer points to.  The conditions are evaluated left to right and the
    later ones only when the earlier ones hold; [length] is converted to the
    [size_t] parameter of [strncmp]. *)
Definition LiteralMatches (data : list Z) (length : Z) (allow_escapes : bool)
    (s : t X) : option bool :=
  one_byte ← is_literal_one_byte s;
  if (one_byte : bool) then
    len ← literal_length s;
    if decide (len = length) then
      unescaped ← (if allow_escapes then Some true
                   else negb <$> literal_contains_escapes s);
      if (unescaped : bool) then
        token ← literal_one_byte_string s;
        r ← strncmp token data (to_size_t length);
        Some (bool_decide (r = 0))
      else Some false
    else Some false
  else Some false.

Definition UnescapedLiteralMatches (data : list Z) (length : Z) (s : t X)
  : option bool :=
  LiteralMatches data length false s.

(** The string literals ["get"] and ["set"], with their terminating NUL. *)
Definition str_get : list Z := [103; 101; 116; 0].
Definition str_set : list Z := [115; 101; 116; 0].

(** [IsGetOrSet(bool* is_get, bool* is_set)]; the arguments are the values
    the two pointers (to different objects) point to before the call, the
    result the values after it. *)
Definition IsGetOrSet (is_get is_set : bool) (s : t X) : option (bool * bool) :=
  one_byte ← is_literal_one_byte s;
  if (one_byte : bool) then
    len ← literal_length s;
    if decide (len = 3) then
      escapes ← literal_contains_escapes s;
      if negb escapes then
        token ← literal_one_byte_string s;
        r ← strncmp token str_get 3;
        let is_get := bool_decide (r = 0) in
        if negb is_get then
          r ← strncmp token str_set 3;
          Some (is_get, bool_decide (r = 0))
        else Some (is_get, false)
      else Some (is_get, is_set)
    else Some (is_get, is_set)
  else Some (is_get, is_set).

(** Runs of [AddLiteralCharAdvance] and of [Advance], the latter with the
    values of [c0_] it leaves. *)
Fixpoint AddLiteralCharAdvances (n : nat) (s : t X) : option (t X) :=
  match n with
  | O => Some s
  | S n => s ← AddLiteralCharAdvance s; AddLiteralCharAdvances n s
  end.

Fixpoint Advances (capture_raw check_surrogate : bool) (n : nat) (s : t X)
  : option (list Z * t X) :=
  match n with
  | O => Some ([], s)
  | S n =>
      s ← Advance capture_raw check_surrogate s;
      '(cs, s') ← Advances capture_raw check_surrogate n s;
      Some (c0_ s :: cs, s')
  end.

(** Runs of [AddLiteralChar] and of [AddRawLiteralChar]. *)
Fixpoint AddLiteralChars (cs : list Z) (s : t X) : option (t X) :=
  match cs with
  | [] => Some s
  | c :: cs => s ← AddLiteralChar c s; AddLiteralChars cs s
  end.

Fixpoint AddRawLiteralChars (cs : list Z) (s : t X) : option (t X) :=
  match cs with
  | [] => Some s
  | c :: cs => s ← AddRawLiteralChar c s; AddRawLiteralChars cs s
  end.

(** A run of [p->AddChar] calls through one pointer. *)
Fixpoint AddChars_at (p : option LiteralBufferRef) (cs : list Z) (s : t X)
  : option (t X) :=
  match cs with
  | [] => Some s
  | c :: cs => s ← AddChar_at p c s; AddChars_at p cs s
  end.

(** Lexical faults reported one after the other, through either overload. *)
Inductive Report :=
| AtLocation (location : Location) (error : MessageTemplate.Template)
| AtPos (pos : Z) (error : MessageTemplate.Template).

Definition report (r : Report) (s : t X) : t X :=
  match r with
  | AtLocation l e => ReportScannerError l e s
  | AtPos p e => ReportScannerError_pos p e s
  end.

Definition reports (rs : list Report) (s : t X) : t X :=
  foldl (fun s r => report r s) s rs.

Definition reported_error (r : Report) : MessageTemplate.Template :=
  match r with
  | AtLocation _ e => e
  | AtPos _ e => e
  end.

Definition reported_location (r : Report) : Location :=
  match r with
  | AtLocation l _ => l
  | AtPos p _ => Loc p (to_int (p + 1))
  end.

(** Every literal buffer of the scanner satisfies the [LiteralBuffer]
    invariant and is of a size that keeps its [int] arithmetic exact. *)
Definition buffers_ok (s : t X) : Prop := heap_ok (buffers s).

End Scanner.

(** *** [Scanner::LiteralScope] *)

(** The members of [LiteralScope]; [scanner_] is the scanner the functions
    below are given. *)
Record LiteralScope := MkLiteralScope {
  complete_ : bool
}.

Section LiteralScope.
Context {X : Type}.

(** [LiteralScope(Scanner* self)]. *)
Definition LiteralScope_new (s : t X) : LiteralScope * t X :=
  ({| complete_ := false |}, StartLiteral s).

(** [Complete()]. *)
Definition Complete (l : LiteralScope) : LiteralScope :=
  {| complete_ := true |}.

(** [~LiteralScope()]. *)
Definition LiteralScope_delete (l : LiteralScope) (s : t X) : t X :=
  if negb (complete_ l) then DropLiteral s else s.

End LiteralScope.

(** *** Bookmarks *)

Section Bookmark.
Context {X : Type} `{!Utf16CharacterStream.Virtual X}
        `{!Utf16CharacterStream.VirtualBookmark X}.

(** Modelled from the spec: [CopyTokenDesc], whose body is in
    [src/parsing/scanner.cc], not among the sources.  A descriptor is
    snapshot with "deep copies of [its] literal contents": kind, span and
    auxiliary value are copied, and the two literal buffers of [to] receive
    the content of those of [from] through [LiteralBuffer::CopyFrom].  [heap]
    is the memory the descriptors point into. *)
Definition CopyTokenDesc (to from : TokenDesc)
    (heap : LiteralBufferRef -> LiteralBuffer.t)
  : option (TokenDesc * (LiteralBufferRef -> LiteralBuffer.t)) :=
  r ← literal_chars to;
  lb ← LiteralBuffer.CopyFrom (heap <$> literal_chars from) (heap r);
  let heap := <[r := lb]> heap in
  q ← raw_literal_chars to;
  lb ← LiteralBuffer.CopyFrom (heap <$> raw_literal_chars from) (heap q);
  let heap := <[q := lb]> heap in
  Some ({| token := token from; location := location from;
           literal_chars := Some r; raw_literal_chars := Some q;
           smi_value_ := smi_value_ from |}, heap).

(** Modelled from the spec: [BookmarkHasBeenSet] and [BookmarkHasBeenReset],
    the "queriable flags", read off [bookmark_c0_] as its comment says:
    [>= 0] for a set bookmark, [kBookmarkWasApplied] for an applied one. *)
Definition BookmarkHasBeenSet (s : t X) : bool := bool_decide (0 <= bookmark_c0_ s).
Definition BookmarkHasBeenReset (s : t X) : bool :=
  bool_decide (bookmark_c0_ s = kBookmarkWasApplied).

(** Modelled from the spec: [SetBookmark], whose body is not among the
    sources.  It "captures full re-scannable state (fails if the underlying
    stream cannot bookmark, or if a bookmark is already outstanding)": the
    stream bookmark, [c0_], and copies of [current_] and [next_] with the
    contents of their literal buffers, kept in the [bookmark_] members.  A
    bookmark is outstanding when it has been set; by the comment on
    [bookmark_c0_] a set bookmark is a value [>= 0] holding [c0_], so [c0_]
    must not be negative. *)
Definition SetBookmark (s : t X) : option (bool * t X) :=
  if negb (BookmarkHasBeenSet s) && bool_decide (0 <= c0_ s) then
    let '(ok, source) := Utf16CharacterStream.SetBookmark (source_ s) in
    let s := set_source_ source s in
    if ok then
      '(d, heap) ← CopyTokenDesc (bookmark_current_ s) (current_ s) (buffers s);
      let s := set_bookmark_current_ d (set_buffers heap s) in
      '(d, heap) ← CopyTokenDesc (bookmark_next_ s) (next_ s) (buffers s);
      let s := set_bookmark_next_ d (set_buffers heap s) in
      Some (true, set_bookmark_c0_ (c0_ s) s)
    else Some (false, s)
  else Some (false, s).

(** Modelled from the spec: [ResetToBookmark], whose body is not among the
    sources.  It restores the snapshot: the stream position, [c0_], and the
    descriptors [current_] and [next_], whose literal contents are copied
    back into rotation buffers obtained with [StartLiteral] and
    [StartRawLiteral], so that the two descriptors do not share a buffer;
    the bookmark is then marked as applied.  Without a set bookmark the call
    is an error. *)
Definition ResetToBookmark (s : t X) : option (t X) :=
  if BookmarkHasBeenSet s then
    let s := set_source_ (Utf16CharacterStream.ResetToBookmark (source_ s)) s in
    let s := set_c0_ (bookmark_c0_ s) s in
    let s := StartRawLiteral (StartLiteral s) in
    '(d, heap) ← CopyTokenDesc (next_ s) (bookmark_current_ s) (buffers s);
    let s := set_current_ d (set_next_ d (set_buffers heap s)) in
    let s := StartRawLiteral (StartLiteral s) in
    '(d, heap) ← CopyTokenDesc (next_ s) (bookmark_next_ s) (buffers s);
    let s := set_next_ d (set_buffers heap s) in
    Some (set_bookmark_c0_ kBookmarkWasApplied s)
  else None.




End Bookmark.





Definition is_literal_ref (r : LiteralBufferRef) : bool :=
  match r with
  | literal_buffer0_ | literal_buffer1_ | literal_buffer2_ => true
  | _ => false
  end.

Definition is_raw_ref (r : LiteralBufferRef) : bool :=
  match r with
  | raw_literal_buffer0_ | raw_literal_buffer1_ | raw_literal_buffer2_ => true
  | _ => false
  end.

(** A descriptor of the lookahead window points into the rotation buffers. *)
Definition desc_ok (d : TokenDesc) : Prop :=
  (forall r, literal_chars d = Some r -> is_literal_ref r = true) /\
  (forall q, raw_literal_chars d = Some q -> is_raw_ref q = true).

(** The invariant of a scanner over the stream of [input]: its buffers are
    well formed, its stream represents [input], [current_] and [next_] point
    into the rotation buffers, and the bookmark descriptors own the
    [bookmark_] buffers (as the constructor sets them up). *)
Record ok {X : Type} `{!Utf16CharacterStream.Virtual X}
    `{!Utf16CharacterStream.Contract X} (input : list Z) (s : t X) : Prop := {
  ok_buffers : buffers_ok s;
  ok_source : Utf16CharacterStream.Inv input (source_ s);
  ok_current : desc_ok (current_ s);
  ok_next : desc_ok (next_ s);
  ok_bookmark_current :
    literal_chars (bookmark_current_ s) = Some bookmark_current_literal_ /\
    raw_literal_chars (bookmark_current_ s) = Some bookmark_current_raw_literal_;
  ok_bookmark_next :
    literal_chars (bookmark_next_ s) = Some bookmark_next_literal_ /\
    raw_literal_chars (bookmark_next_ s) = Some bookmark_next_raw_literal_
}.




(** Modelled from the spec: the constructor of [Scanner] followed by
    [Initialize], whose bodies are not among the sources: a scanner over a
    given stream with fresh literal buffers, descriptors without literals,
    no error and no bookmark, the bookmark descriptors owning the
    [bookmark_] buffers. *)
Definition fresh {X : Type} (source : Utf16CharacterStream.t X) : t X :=
  let desc := Desc Token.UNINITIALIZED Location_default None None 0 in
  {| buffers := fun _ => LiteralBuffer.init;
     current_ := desc; next_ := desc; next_next_ := desc;
     bookmark_c0_ := kNoBookmark;
     bookmark_current_ :=
       Desc Token.UNINITIALIZED Location_default
            (Some bookmark_current_literal_) (Some bookmark_current_raw_literal_) 0;
     bookmark_next_ :=
       Desc Token.UNINITIALIZED Location_default
            (Some bookmark_next_literal_) (Some bookmark_next_raw_literal_) 0;
     source_ := source;
     octal_pos_ := invalid;
     c0_ := 0;
     has_line_terminator_before_next_ := false;
     has_multiline_comment_before_next_ := false;
     found_html_comment_ := false;
     allow_harmony_exponentiation_operator_ := false;
     scanner_error_ := MessageTemplate.kNone;
     scanner_error_location_ := Location_default |}.

(** A scanner whose current token is a string held in [literal_buffer0_] and
    [raw_literal_buffer0_]. *)
Definition sample {X : Type} (source : Utf16CharacterStream.t X) : t X :=
  set_current_
    (Desc Token.STRING (Loc 0 4) (Some literal_buffer0_) (Some raw_literal_buffer0_) 0)
    (fresh source).

(** *** The input as the scanner reads it *)

(** The code point that starts at position [p] of the input, with the number
    of units it takes: a lead surrogate followed by a trail surrogate is one
    code point of two units, every other unit (and the end-of-input
    sentinel) stands for itself. *)
Definition code_point_at (input : list Z) (p : Z) : Z * Z :=
  let c := Utf16CharacterStream.unit_at input p in
  let c1 := Utf16CharacterStream.unit_at input (p + 1) in
  if Utf16.IsLeadSurrogate c && Utf16.IsTrailSurrogate c1
  then (Utf16.CombineSurrogatePair c c1, 2)
  else (c, 1).

(** The position [n] code points after position [p]. *)
Fixpoint skip_code_points (input : list Z) (n : nat) (p : Z) : Z :=
  match n with
  | O => p
  | S n => skip_code_points input n (p + (code_point_at input p).2)
  end.

(** The code points of a sequence of UTF-16 units. *)
Fixpoint decode (units : list Z) : list Z :=
  match units with
  | [] => []
  | c :: units' =>
      match units' with
      | c1 :: units'' =>
          if Utf16.IsLeadSurrogate c && Utf16.IsTrailSurrogate c1
          then Utf16.CombineSurrogatePair c c1 :: decode units''
          else c :: decode units'
      | [] => [c]
      end
  end.

End Scanner.

(** * Theorems *)

(** ** Machine integers and byte stores *)

Lemma to_int_id z : INT_MIN <= z <= INT_MAX -> to_int z = z.
Proof.
  unfold to_int, wrap_signed, INT_MIN, INT_MAX. intros H.
  change (2 ^ (32 - 1)) with 2147483648. change (2 ^ 32) with 4294967296.
  change (2 ^ 31) with 2147483648 in H.
  rewrite Z.mod_small; lia.
Qed.

Lemma Vector_length_nonneg v : 0 <= Vector_length v.
Proof. unfold Vector_length. lia. Qed.

Lemma Vector_length_New n : 0 <= n -> Vector_length (Vector_New n) = n.
Proof. intros. unfold Vector_length, Vector_New. rewrite length_replicate. lia. Qed.

Lemma Vector_length_insert v i (x : Z) :
  Vector_length (<[i := x]> v) = Vector_length v.
Proof. unfold Vector_length. by rewrite length_insert. Qed.

Lemma to_uint8_byte x : is_byte (to_uint8 x).
Proof. unfold is_byte, to_uint8. apply Z.mod_pos_bound. lia. Qed.

Lemma store8_Some v i x :
  0 <= i < Vector_length v ->
  store8 v i x = Some (<[Z.to_nat i := to_uint8 x]> v).
Proof. intros. unfold store8. by rewrite decide_True. Qed.

Lemma store16_Some v i x :
  0 <= i -> i + 1 < Vector_length v ->
  store16 v i x =
    Some (<[Z.to_nat (i + 1) := to_uint8 (Z.shiftr (to_uint16 x) 8)]>
            (<[Z.to_nat i := to_uint8 (to_uint16 x)]> v)).
Proof.
  intros. unfold store16. rewrite store8_Some by lia. simpl.
  rewrite store8_Some; [done|]. rewrite Vector_length_insert. lia.
Qed.

Lemma uint16_split x :
  to_uint8 (to_uint16 x) + 2 ^ 8 * to_uint8 (Z.shiftr (to_uint16 x) 8) = to_uint16 x.
Proof.
  unfold to_uint8, to_uint16. rewrite Z.shiftr_div_pow2 by lia.
  change (2 ^ 16) with 65536. change (2 ^ 8) with 256.
  assert (0 <= x mod 65536 < 65536) by (apply Z.mod_pos_bound; lia).
  rewrite (Z.mod_small (x mod 65536 / 256)).
  - pose proof (Z.div_mod (x mod 65536) 256). lia.
  - split; [apply Z.div_pos; lia|]. apply Z.div_lt_upper_bound; lia.
Qed.

Lemma to_uint16_id x : is_uint16 x -> to_uint16 x = x.
Proof. unfold is_uint16, to_uint16. intros. by apply Z.mod_small. Qed.

Lemma store16_spec v i x :
  0 <= i -> i + 1 < Vector_length v ->
  exists v',
    store16 v i x = Some v' /\
    Vector_length v' = Vector_length v /\
    v' !!! Z.to_nat i + 2 ^ 8 * v' !!! Z.to_nat (i + 1) = to_uint16 x /\
    (forall j : nat, j <> Z.to_nat i -> j <> Z.to_nat (i + 1) -> v' !! j = v !! j) /\
    (Forall is_byte v -> Forall is_byte v').
Proof.
  intros Hi Hlen. eexists. split; [by apply store16_Some|].
  assert (Hl : (Z.to_nat i < List.length v)%nat /\ (Z.to_nat (i + 1) < List.length v)%nat)
    by (unfold Vector_length in Hlen; lia).
  destruct Hl as [Hl1 Hl2].
  split; [by rewrite !Vector_length_insert|].
  split.
  - rewrite list_lookup_total_insert_ne by lia.
    rewrite list_lookup_total_insert_eq by done.
    rewrite list_lookup_total_insert_eq by (by rewrite length_insert).
    apply uint16_split.
  - split.
    + intros j Hj1 Hj2. by rewrite !list_lookup_insert_ne.
    + intros Hb. apply Forall_insert; [apply Forall_insert; [done|]|]; apply to_uint8_byte.
Qed.

Lemma lookup_total_eq (v v' : list Z) (j : nat) : v' !! j = v !! j -> v' !!! j = v !!! j.
Proof. intros H. by rewrite !list_lookup_total_alt, H. Qed.

Lemma uint16_at_ext (v v' : list Z) (k : nat) :
  v' !! (2 * k)%nat = v !! (2 * k)%nat ->
  v' !! (2 * k + 1)%nat = v !! (2 * k + 1)%nat ->
  uint16_at v' k = uint16_at v k.
Proof.
  intros H0 H1. unfold uint16_at.
  by rewrite (lookup_total_eq _ _ _ H0), (lookup_total_eq _ _ _ H1).
Qed.

(** The 16-bit view of the first [k] units only reads the first [2 * k] bytes. *)
Lemma uint16_view_ext (v v' : list Z) (k : nat) :
  (forall j : nat, (j < 2 * k)%nat -> v' !! j = v !! j) ->
  uint16_at v' <$> seq 0 k = uint16_at v <$> seq 0 k.
Proof.
  intros H. apply list_eq. intros i. rewrite !list_lookup_fmap.
  destruct (decide (i < k)%nat) as [Hi|Hi].
  - rewrite lookup_seq_lt by done. simpl. f_equal.
    apply uint16_at_ext; apply H; lia.
  - by rewrite lookup_seq_ge by lia.
Qed.

Lemma uint16_view_snoc (v : list Z) (k : nat) :
  uint16_at v <$> seq 0 (S k) = (uint16_at v <$> seq 0 k) ++ [uint16_at v k].
Proof. by rewrite seq_S, fmap_app. Qed.

(** Storing a unit right after the first [k] units appends it to the view. *)
Lemma store16_append v (k : nat) x :
  2 * Z.of_nat k + 1 < Vector_length v ->
  exists v',
    store16 v (2 * Z.of_nat k) x = Some v' /\
    Vector_length v' = Vector_length v /\
    uint16_at v' <$> seq 0 (S k) = (uint16_at v <$> seq 0 k) ++ [to_uint16 x] /\
    (forall j : nat, (j < 2 * k)%nat -> v' !! j = v !! j) /\
    (forall j : nat, (2 * k + 2 <= j)%nat -> v' !! j = v !! j) /\
    (Forall is_byte v -> Forall is_byte v').
Proof.
  intros Hlen.
  destruct (store16_spec v (2 * Z.of_nat k) x) as (v' & Hs & Hl & Hv & Hne & Hb); [lia..|].
  exists v'. split; [done|]. split; [done|].
  replace (Z.to_nat (2 * Z.of_nat k)) with (2 * k)%nat in * by lia.
  replace (Z.to_nat (2 * Z.of_nat k + 1)) with (2 * k + 1)%nat in * by lia.
  split; [|split; [|split]].
  - rewrite uint16_view_snoc. f_equal.
    + apply uint16_view_ext. intros j Hj. apply Hne; lia.
    + f_equal. apply Hv.
  - intros j Hj. apply Hne; lia.
  - intros j Hj. apply Hne; lia.
  - done.
Qed.

(** ** [LiteralBuffer]: growth and widening *)

Lemma Z_even_sum a b : Z.even a = true -> Z.even b = true -> Z.even (a + b) = true.
Proof. intros Ha Hb. by rewrite Z.even_add, Ha, Hb. Qed.

Lemma NewCapacity_spec min_capacity lb :
  let capacity := Z.max min_capacity (Vector_length (LiteralBuffer.backing_store_ lb)) in
  0 < capacity <= 2 ^ 29 - 1 ->
  LiteralBuffer.NewCapacity min_capacity lb = Z.min (capacity * 4) (capacity + MB) /\
  capacity < LiteralBuffer.NewCapacity min_capacity lb <= capacity + MB /\
  (Z.even capacity = true ->
   Z.even (LiteralBuffer.NewCapacity min_capacity lb) = true).
Proof.
  intros capacity Hc. unfold LiteralBuffer.NewCapacity. fold capacity.
  unfold LiteralBuffer.kGrowthFactory, LiteralBuffer.kMaxGrowth, MB in *.
  change (2 ^ 29 - 1) with 536870911 in Hc.
  rewrite !to_int_id by (unfold INT_MIN, INT_MAX; change (2 ^ 31) with 2147483648; lia).
  split; [done|]. split; [lia|].
  intros He.
  destruct (Z.min_spec (capacity * 4) (capacity + 1 * (1024 * 1024))) as [[_ ->]|[_ ->]].
  - rewrite Z.even_mul. by rewrite He.
  - by apply Z_even_sum.
Qed.

Lemma lookup_MemCopy_lt dst src n (j : nat) :
  0 <= n <= Vector_length src ->
  (j < Z.to_nat n)%nat ->
  (take (Z.to_nat n) src ++ drop (Z.to_nat n) dst) !! j = src !! j.
Proof.
  intros Hn Hj. unfold Vector_length in Hn.
  rewrite lookup_app_l by (rewrite length_take; lia).
  by rewrite lookup_take_lt.
Qed.

Lemma MemCopy_length dst src n :
  0 <= n <= Vector_length src -> n <= Vector_length dst ->
  Vector_length (take (Z.to_nat n) src ++ drop (Z.to_nat n) dst) = Vector_length dst.
Proof.
  unfold Vector_length. intros.
  rewrite length_app, length_take, length_drop. lia.
Qed.

Lemma Forall_is_byte_New n : Forall is_byte (Vector_New n).
Proof.
  unfold Vector_New. apply Forall_replicate. unfold is_byte.
  change (2 ^ 8) with 256. lia.
Qed.


(** [ExpandBuffer] keeps mode, position and the bytes below [position_], and
    strictly grows the backing store. *)
Lemma ExpandBuffer_spec lb :
  LiteralBuffer.wf lb ->
  Vector_length (LiteralBuffer.backing_store_ lb) <= 2 ^ 29 - 1 - MB ->
  exists lb',
    LiteralBuffer.ExpandBuffer lb = Some lb' /\
    LiteralBuffer.wf lb' /\
    LiteralBuffer.is_one_byte_ lb' = LiteralBuffer.is_one_byte_ lb /\
    LiteralBuffer.position_ lb' = LiteralBuffer.position_ lb /\
    (forall j : nat, (j < Z.to_nat (LiteralBuffer.position_ lb))%nat ->
       LiteralBuffer.backing_store_ lb' !! j = LiteralBuffer.backing_store_ lb !! j) /\
    Vector_length (LiteralBuffer.backing_store_ lb)
      < Vector_length (LiteralBuffer.backing_store_ lb') /\
    Vector_length (LiteralBuffer.backing_store_ lb')
      <= Z.max 16 (Vector_length (LiteralBuffer.backing_store_ lb)) + MB.
Proof.
  intros [Hpos Hcap Hbytes Hwide] Hlen.
  pose proof (Vector_length_nonneg (LiteralBuffer.backing_store_ lb)) as Hnn.
  destruct (NewCapacity_spec LiteralBuffer.kInitialCapacity lb) as (Hnc & Hgrow & Heven).
  { unfold LiteralBuffer.kInitialCapacity, MB in *.
    change (2 ^ 29) with 536870912 in *. lia. }
  unfold LiteralBuffer.kInitialCapacity in *.
  set (nc := LiteralBuffer.NewCapacity 16 lb) in *.
  assert (Hnew : Vector_length (Vector_New nc) = nc) by (apply Vector_length_New; lia).
  unfold LiteralBuffer.ExpandBuffer, LiteralBuffer.kInitialCapacity. fold nc.
  unfold MemCopy. rewrite decide_True by (rewrite Hnew; lia). simpl.
  eexists. split; [done|]. simpl.
  assert (Hl : Vector_length
                 (take (Z.to_nat (LiteralBuffer.position_ lb)) (LiteralBuffer.backing_store_ lb)
                  ++ drop (Z.to_nat (LiteralBuffer.position_ lb)) (Vector_New nc)) = nc).
  { rewrite MemCopy_length; [done|lia|rewrite Hnew; lia]. }
  split; [|split; [done|split; [done|split; [|split]]]].
  - constructor; simpl.
    + rewrite Hl. lia.
    + rewrite Hl. apply Heven.
      destruct (Z.max_spec 16 (Vector_length (LiteralBuffer.backing_store_ lb)))
        as [[_ ->]|[_ ->]]; done.
    + apply Forall_app. split.
      * by apply Forall_take.
      * apply Forall_drop, Forall_is_byte_New.
    + done.
  - intros j Hj. by apply lookup_MemCopy_lt.
  - rewrite Hl. lia.
  - rewrite Hl. lia.
Qed.

(** The widening loop: after [n] iterations the first [n] 16-bit units of the
    destination are the first [n] bytes of the source, also when both are the
    same memory, and the bytes from [2 * n] on are untouched. *)
Lemma ConvertLoop_spec aliased (n : nat) : forall src dst,
  (aliased = true -> src = dst) ->
  2 * Z.of_nat n <= Vector_length dst ->
  Z.of_nat n <= Vector_length src ->
  Forall is_byte src ->
  exists r,
    LiteralBuffer.ConvertLoop aliased n src dst = Some r /\
    Vector_length r = Vector_length dst /\
    (forall k : nat, (k < n)%nat -> uint16_at r k = src !!! k) /\
    (forall j : nat, (2 * n <= j)%nat -> r !! j = dst !! j) /\
    (Forall is_byte dst -> Forall is_byte r).
Proof.
  induction n as [|i IH]; intros src dst Halias Hdst Hsrc Hbytes.
  - exists dst. simpl. repeat split; [intros; lia|done..].
  - simpl.
    assert (Hi : (i < List.length src)%nat) by (unfold Vector_length in Hsrc; lia).
    destruct (lookup_lt_is_Some_2 src i Hi) as [b Hb].
    unfold load8. rewrite decide_True by lia. rewrite Nat2Z.id, Hb. simpl.
    assert (Hbyte : is_byte b) by (eapply Forall_lookup_1; eauto).
    destruct (store16_append dst i b) as (dst' & Hst & Hlen & _ & Hlow & Hhigh & Hfb); [lia|].
    destruct (store16_spec dst (2 * Z.of_nat i) b) as (dst'' & Hst' & _ & Hv & _); [lia..|].
    rewrite Hst in Hst'. injection Hst' as <-.
    replace (Z.to_nat (2 * Z.of_nat i)) with (2 * i)%nat in Hv by lia.
    replace (Z.to_nat (2 * Z.of_nat i + 1)) with (2 * i + 1)%nat in Hv by lia.
    rewrite to_uint16_id in Hv
      by (unfold is_byte, is_uint16 in *; change (2 ^ 8) with 256 in *;
          change (2 ^ 16) with 65536; lia).
    rewrite Hst. simpl.
    set (src' := if aliased then dst' else src).
    assert (Hsrc'len : Vector_length src' = Vector_length src).
    { unfold src'. destruct aliased; [|done]. rewrite Hlen. by rewrite Halias. }
    assert (Hsrc'low : forall k : nat, (k < i)%nat -> src' !! k = src !! k).
    { intros k Hk. unfold src'. destruct aliased; [|done].
      rewrite (Halias eq_refl). apply Hlow. lia. }
    destruct (IH src' dst') as (r & Hr & Hrlen & Hrunits & Hrhigh & Hrb).
    { unfold src'. by destruct aliased. }
    { lia. }
    { lia. }
    { unfold src'. destruct aliased; [|done]. apply Hfb. by rewrite <- (Halias eq_refl). }
    exists r. split; [done|]. split; [lia|]. split; [|split].
    + intros k Hk. destruct (decide (k = i)) as [->|Hne].
      * unfold uint16_at. rewrite (lookup_total_eq dst' r (2 * i)), (lookup_total_eq dst' r (2 * i + 1));
          [|apply Hrhigh; lia..].
        rewrite Hv. symmetry. by apply list_lookup_total_correct.
      * rewrite Hrunits by lia. apply lookup_total_eq, Hsrc'low. lia.
    + intros j Hj. rewrite Hrhigh by lia. apply Hhigh. lia.
    + intros Hd. apply Hrb, Hfb, Hd.
Qed.

Lemma even_double a : Z.even a = true -> exists m, a = 2 * m.
Proof. intros H. by apply Z.even_spec in H. Qed.

Lemma shiftr1_double m : Z.shiftr (2 * m) 1 = m.
Proof. rewrite Z.shiftr_div_pow2 by lia. change (2 ^ 1) with 2. rewrite Z.mul_comm. apply Z.div_mul. lia. Qed.

Lemma pow27_bound z : z <= 2 ^ 27 -> z <= 134217728.
Proof. change (2 ^ 27) with 134217728. lia. Qed.

Lemma capacity_bound z : z <= 2 ^ 29 - 1 - MB -> z <= 535822335.
Proof. unfold MB. change (2 ^ 29) with 536870912. lia. Qed.

(** [ConvertToTwoByte] on a narrow buffer that has a free byte: the buffer
    becomes wide, holds the same characters in the same order, and has room
    for one more 16-bit unit. *)
Lemma ConvertToTwoByte_spec lb :
  LiteralBuffer.wf lb ->
  LiteralBuffer.is_one_byte_ lb = true ->
  LiteralBuffer.position_ lb < Vector_length (LiteralBuffer.backing_store_ lb) ->
  2 * LiteralBuffer.position_ lb <= 2 ^ 27 ->
  Vector_length (LiteralBuffer.backing_store_ lb) <= 2 ^ 29 - 1 - MB ->
  exists lb',
    LiteralBuffer.ConvertToTwoByte lb = Some lb' /\
    LiteralBuffer.wf lb' /\
    LiteralBuffer.is_one_byte_ lb' = false /\
    LiteralBuffer.position_ lb' = 2 * LiteralBuffer.position_ lb /\
    LiteralBuffer.position_ lb' + 2 <= Vector_length (LiteralBuffer.backing_store_ lb') /\
    LiteralBuffer.chars lb' = LiteralBuffer.chars lb /\
    Vector_length (LiteralBuffer.backing_store_ lb')
      <= Z.max (Vector_length (LiteralBuffer.backing_store_ lb))
               (2 * LiteralBuffer.position_ lb + MB).
Proof.
  intros [Hpos Hcap Hbytes Hwide] Hone Hfree Hcost Hlen.
  apply pow27_bound in Hcost. apply capacity_bound in Hlen.
  destruct lb as [one p st]. simpl in *. subst one.
  unfold LiteralBuffer.ConvertToTwoByte. simpl.
  unfold kUC16Size.
  rewrite to_int_id by (unfold INT_MIN, INT_MAX; change (2 ^ 31) with 2147483648; lia).
  destruct (even_double _ Hcap) as [m Hm].
  set (aliased := negb (bool_decide (p * 2 >= Vector_length st))).
  set (new_store := if aliased then st else _).
  assert (Hns : p * 2 + 2 <= Vector_length new_store
                /\ Z.even (Vector_length new_store) = true
                /\ Forall is_byte new_store
                /\ Vector_length new_store <= Z.max (Vector_length st) (2 * p + MB)).
  { unfold new_store, aliased. case_bool_decide as Hd; simpl.
    - destruct (NewCapacity_spec (p * 2) (LiteralBuffer.Build true p st)) as (Hnc & Hgrow & Heven).
      { simpl. change (2 ^ 29 - 1) with 536870911. lia. }
      simpl in *. rewrite Z.max_l in * by lia.
      rewrite Vector_length_New by lia.
      assert (He : Z.even (LiteralBuffer.NewCapacity (p * 2) (LiteralBuffer.Build true p st)) = true).
      { apply Heven. rewrite Z.even_mul. simpl. apply orb_true_r. }
      destruct (even_double _ He) as [m' Hm'].
      split; [lia|]. split; [done|]. split; [apply Forall_is_byte_New|]. lia.
    - split; [lia|]. split; [done|]. split; [done|]. lia. }
  destruct Hns as (Hroom & Heven & Hnb & Hnlen).
  destruct (ConvertLoop_spec aliased (Z.to_nat p) st new_store)
    as (r & Hr & Hrlen & Hunits & _ & Hrb).
  { unfold new_store. intros ->. done. }
  { lia. }
  { lia. }
  { done. }
  rewrite Hr. simpl. eexists. split; [done|]. simpl.
  split; [|split; [done|split; [lia|split; [lia|split; [|lia]]]]].
  - constructor; simpl.
    + lia.
    + by rewrite Hrlen.
    + by apply Hrb.
    + intros _. rewrite Z.even_mul. simpl. apply orb_true_r.
  - unfold LiteralBuffer.chars. simpl.
    rewrite (Z.mul_comm p 2), shiftr1_double.
    apply list_eq. intros k. rewrite list_lookup_fmap.
    destruct (decide (k < Z.to_nat p)%nat) as [Hk|Hk].
    + rewrite lookup_seq_lt by done. simpl. rewrite Hunits by done.
      rewrite lookup_take_lt by done. symmetry.
      apply list_lookup_lookup_total_lt. unfold Vector_length in *. lia.
    + rewrite lookup_seq_ge by lia. simpl. by rewrite lookup_take_ge by lia.
Qed.

Lemma to_uint16_idem x : to_uint16 (to_uint16 x) = to_uint16 x.
Proof. unfold to_uint16. apply Z.mod_mod. lia. Qed.

Lemma to_int_small z : 0 <= z <= 134217728 + 4 -> to_int z = z.
Proof.
  intros. apply to_int_id. unfold INT_MIN, INT_MAX.
  change (2 ^ 31) with 2147483648. lia.
Qed.

Lemma even_2mul m : Z.even (2 * m) = true.
Proof. by rewrite Z.even_mul. Qed.

Ltac lb_simpl :=
  unfold LiteralBuffer.set_store in *;
  cbn [LiteralBuffer.is_one_byte_ LiteralBuffer.position_
       LiteralBuffer.backing_store_ mbind option_bind] in *.

(** The wide tail of [AddChar]: on a wide buffer with room for one unit it
    appends [code_units c] (the unit, or lead then trail). *)
Lemma AddCharTwoByte_spec c lb :
  LiteralBuffer.wf lb ->
  LiteralBuffer.is_one_byte_ lb = false ->
  LiteralBuffer.position_ lb + 2 <= Vector_length (LiteralBuffer.backing_store_ lb) ->
  LiteralBuffer.position_ lb + 4 <= 2 ^ 27 ->
  Vector_length (LiteralBuffer.backing_store_ lb) <= 2 ^ 29 - 1 - MB ->
  0 <= c ->
  exists lb',
    LiteralBuffer.AddCharTwoByte c lb = Some lb' /\
    LiteralBuffer.wf lb' /\
    LiteralBuffer.is_one_byte_ lb' = false /\
    LiteralBuffer.chars lb' = LiteralBuffer.chars lb ++ LiteralBuffer.code_units c /\
    LiteralBuffer.position_ lb <= LiteralBuffer.position_ lb'
      <= LiteralBuffer.position_ lb + 4 /\
    Vector_length (LiteralBuffer.backing_store_ lb')
      <= Z.max (Vector_length (LiteralBuffer.backing_store_ lb))
               (LiteralBuffer.position_ lb' + 16 + MB).
Proof.
  intros [Hpos Hcap Hbytes Hwide] Hone Hroom Hcost Hlen Hc.
  apply pow27_bound in Hcost.
  destruct lb as [one p st]. lb_simpl. subst one.
  destruct (even_double _ (Hwide eq_refl)) as [m ->].
  assert (Hm : m = Z.of_nat (Z.to_nat m)) by lia.
  set (k := Z.to_nat m) in *. clearbody k. subst m.
  unfold LiteralBuffer.AddCharTwoByte, LiteralBuffer.code_units, LiteralBuffer.chars.
  lb_simpl. unfold kUC16Size. rewrite shiftr1_double, Nat2Z.id.
  destruct (decide (c <= Utf16.kMaxNonSurrogateCharCode)) as [Hle|Hgt].
  - destruct (store16_append st k c) as (st' & Hs & Hl & Hv & _ & _ & Hb); [lia|].
    rewrite Hs. lb_simpl. eexists. split; [done|].
    lb_simpl.
    rewrite to_int_small by lia.
    replace (2 * Z.of_nat k + 2) with (2 * Z.of_nat (S k)) by lia.
    rewrite shiftr1_double, Nat2Z.id.
    split; [|split; [done|split; [|split; [lia|lia]]]].
    + constructor; lb_simpl; [lia|by rewrite Hl|by apply Hb|].
      intros _. apply even_2mul.
    + rewrite Hv. do 2 f_equal. apply to_uint16_id.
      unfold Utf16.kMaxNonSurrogateCharCode in Hle. unfold is_uint16.
      change (2 ^ 16) with 65536. lia.
  - destruct (store16_append st k (Utf16.LeadSurrogate c))
      as (st1 & Hs1 & Hl1 & Hv1 & _ & _ & Hb1); [lia|].
    rewrite Hs1. lb_simpl.
    rewrite to_int_small by lia.
    replace (2 * Z.of_nat k + 2) with (2 * Z.of_nat (S k)) by lia.
    set (lb1 := LiteralBuffer.Build false (2 * Z.of_nat (S k)) st1).
    assert (Hwf1 : LiteralBuffer.wf lb1).
    { constructor; unfold lb1; lb_simpl; [lia|by rewrite Hl1|by apply Hb1|].
      intros _. apply even_2mul. }
    assert (Hexp : exists lb2,
      (if decide (2 * Z.of_nat (S k) >= Vector_length st1)
       then LiteralBuffer.ExpandBuffer lb1 else Some lb1) = Some lb2 /\
      LiteralBuffer.wf lb2 /\
      LiteralBuffer.is_one_byte_ lb2 = false /\
      LiteralBuffer.position_ lb2 = 2 * Z.of_nat (S k) /\
      (forall j : nat, (j < 2 * S k)%nat ->
         LiteralBuffer.backing_store_ lb2 !! j = st1 !! j) /\
      2 * Z.of_nat (S k) + 2 <= Vector_length (LiteralBuffer.backing_store_ lb2) /\
      Vector_length (LiteralBuffer.backing_store_ lb2)
        <= Z.max (Vector_length st) (2 * Z.of_nat (S k) + 16 + MB)).
    { destruct (decide (2 * Z.of_nat (S k) >= Vector_length st1)) as [Hfull|Hfree].
      - destruct (ExpandBuffer_spec lb1 Hwf1) as (lb2 & He & Hwf2 & H1 & H2 & H3 & H4 & H5).
        { unfold lb1. lb_simpl. rewrite Hl1. done. }
        exists lb2. unfold lb1 in *. lb_simpl. split; [done|]. split; [done|]. split; [done|].
        split; [done|]. split; [intros j Hj; apply H3; lia|].
        destruct (even_double _ (LiteralBuffer.wf_capacity _ Hwf2)) as [m2 Hm2].
        split; lia.
      - exists lb1. unfold lb1. lb_simpl. split; [done|]. split; [done|]. split; [done|].
        split; [done|]. split; [done|].
        destruct (even_double _ Hcap) as [m1 Hm1]. split; lia. }
    destruct Hexp as (lb2 & -> & Hwf2 & Hone2 & Hp2 & Hlow2 & Hroom2 & Hlen2).
    lb_simpl. destruct lb2 as [one2 p2 st2]. lb_simpl. subst one2 p2.
    destruct (store16_append st2 (S k) (Utf16.TrailSurrogate c))
      as (st3 & Hs3 & Hl3 & Hv3 & _ & _ & Hb3); [lia|].
    rewrite Hs3. lb_simpl. eexists. split; [done|]. lb_simpl.
    rewrite to_int_small by lia.
    replace (2 * Z.of_nat (S k) + 2) with (2 * Z.of_nat (S (S k))) by lia.
    rewrite shiftr1_double, Nat2Z.id.
    split; [|split; [done|split; [|split; [lia|lia]]]].
    + constructor; lb_simpl.
      * lia.
      * rewrite Hl3. apply (LiteralBuffer.wf_capacity _ Hwf2).
      * apply Hb3. apply (LiteralBuffer.wf_bytes _ Hwf2).
      * intros _. apply even_2mul.
    + rewrite Hv3. rewrite (uint16_view_ext st1 st2 (S k) Hlow2), Hv1.
      rewrite <- app_assoc. cbn [app]. unfold Utf16.LeadSurrogate, Utf16.TrailSurrogate.
      by rewrite !to_uint16_idem.
Qed.

Ltac size_consts :=
  unfold MB in *;
  change (2 ^ 27) with 134217728 in *;
  change (2 ^ 28) with 268435456 in *;
  change (2 ^ 29) with 536870912 in *.

(** The content only depends on the mode, the position and the bytes below
    the position. *)
Lemma chars_ext lb lb' :
  LiteralBuffer.is_one_byte_ lb' = LiteralBuffer.is_one_byte_ lb ->
  LiteralBuffer.position_ lb' = LiteralBuffer.position_ lb ->
  (forall j : nat, (j < Z.to_nat (LiteralBuffer.position_ lb))%nat ->
     LiteralBuffer.backing_store_ lb' !! j = LiteralBuffer.backing_store_ lb !! j) ->
  LiteralBuffer.chars lb' = LiteralBuffer.chars lb.
Proof.
  intros Hm Hp Hlow. unfold LiteralBuffer.chars. rewrite Hm, Hp.
  destruct (LiteralBuffer.is_one_byte_ lb).
  - apply list_eq. intros j.
    destruct (decide (j < Z.to_nat (LiteralBuffer.position_ lb))%nat).
    + rewrite !lookup_take_lt by done. by apply Hlow.
    + by rewrite !lookup_take_ge by lia.
  - apply uint16_view_ext. intros j Hj. apply Hlow.
    rewrite Z.shiftr_div_pow2 in Hj by lia. change (2 ^ 1) with 2 in Hj.
    destruct (decide (0 <= LiteralBuffer.position_ lb)) as [Hnn|Hneg].
    + pose proof (Z.mul_div_le (LiteralBuffer.position_ lb) 2). lia.
    + assert (LiteralBuffer.position_ lb / 2 < 0) by (apply Z.div_lt_upper_bound; lia).
      lia.
Qed.

(** The capacity check that opens [AddChar]. *)
Lemma AddChar_room lb :
  LiteralBuffer.wf lb ->
  Vector_length (LiteralBuffer.backing_store_ lb) <= 2 ^ 29 - 1 - MB ->
  exists lb0,
    (if decide (LiteralBuffer.position_ lb >= Vector_length (LiteralBuffer.backing_store_ lb))
     then LiteralBuffer.ExpandBuffer lb else Some lb) = Some lb0 /\
    LiteralBuffer.wf lb0 /\
    LiteralBuffer.is_one_byte_ lb0 = LiteralBuffer.is_one_byte_ lb /\
    LiteralBuffer.position_ lb0 = LiteralBuffer.position_ lb /\
    LiteralBuffer.chars lb0 = LiteralBuffer.chars lb /\
    LiteralBuffer.position_ lb0 < Vector_length (LiteralBuffer.backing_store_ lb0) /\
    Vector_length (LiteralBuffer.backing_store_ lb0)
      <= Z.max (Vector_length (LiteralBuffer.backing_store_ lb))
               (LiteralBuffer.position_ lb + 16 + MB).
Proof.
  intros Hwf Hlen.
  destruct (decide (LiteralBuffer.position_ lb >= Vector_length (LiteralBuffer.backing_store_ lb)))
    as [Hfull|Hfree].
  - destruct (ExpandBuffer_spec lb Hwf Hlen) as (lb0 & He & Hwf0 & H1 & H2 & H3 & H4 & H5).
    exists lb0. split; [done|]. split; [done|]. split; [done|]. split; [done|].
    split; [by apply chars_ext|].
    pose proof (LiteralBuffer.wf_position _ Hwf). lia.
  - exists lb. do 5 (split; [done|]). lia.
Qed.

(** One [AddChar] call.  A narrow buffer stays narrow exactly when the code
    unit is at most [Latin1::kMaxChar]; otherwise the result is wide.  In both
    cases the characters appended before are kept, in order, and the new one
    follows them. *)
Lemma AddChar_spec c lb :
  LiteralBuffer.wf lb ->
  LiteralBuffer.in_range lb ->
  LiteralBuffer.cost lb + 4 <= 2 ^ 27 ->
  0 <= c ->
  exists lb',
    LiteralBuffer.AddChar c lb = Some lb' /\
    LiteralBuffer.wf lb' /\
    LiteralBuffer.in_range lb' /\
    LiteralBuffer.cost lb' <= LiteralBuffer.cost lb + 4 /\
    LiteralBuffer.is_one_byte_ lb' =
      LiteralBuffer.is_one_byte_ lb && bool_decide (c <= Latin1.kMaxChar) /\
    LiteralBuffer.chars lb' =
      LiteralBuffer.chars lb
      ++ (if LiteralBuffer.is_one_byte_ lb' then [c] else LiteralBuffer.code_units c).
Proof.
  intros Hwf [Hcost Hlen] Hcost4 Hc.
  assert (Hlen' : Vector_length (LiteralBuffer.backing_store_ lb) <= 2 ^ 29 - 1 - MB)
    by (size_consts; lia).
  destruct (AddChar_room lb Hwf Hlen') as (lb0 & Hroom & Hwf0 & Hm0 & Hp0 & Hch0 & Hfree0 & Hlen0).
  unfold LiteralBuffer.AddChar. rewrite Hroom. cbn [mbind option_bind].
  assert (Hpc : LiteralBuffer.position_ lb <= LiteralBuffer.cost lb).
  { unfold LiteralBuffer.cost. pose proof (LiteralBuffer.wf_position _ Hwf).
    destruct (LiteralBuffer.is_one_byte_ lb); lia. }
  unfold LiteralBuffer.in_range, LiteralBuffer.cost in *.
  rewrite <- Hch0. clear Hroom Hch0.
  destruct lb0 as [one0 p0 st0]. lb_simpl. subst p0 one0.
  pose proof (LiteralBuffer.wf_position _ Hwf) as Hpos.
  pose proof (LiteralBuffer.wf_capacity _ Hwf0) as Hcap0.
  pose proof (LiteralBuffer.wf_bytes _ Hwf0) as Hbytes0.
  lb_simpl.
  set (p := LiteralBuffer.position_ lb) in *.
  destruct (LiteralBuffer.is_one_byte_ lb) eqn:Hone.
  - (* narrow *)
    destruct (decide (c <= Latin1.kMaxChar)) as [Hle|Hgt].
    + rewrite bool_decide_true by done.
      rewrite store8_Some by lia. lb_simpl. eexists. split; [done|]. lb_simpl.
      unfold kOneByteSize. rewrite to_int_small by (size_consts; lia).
      assert (Hb : to_uint8 c = c).
      { unfold to_uint8, Latin1.kMaxChar in *. apply Z.mod_small.
        change (2 ^ 8) with 256. lia. }
      split; [|split; [|split; [lia|split; [done|]]]].
      * constructor; lb_simpl.
        -- rewrite Vector_length_insert. lia.
        -- by rewrite Vector_length_insert.
        -- apply Forall_insert; [done|apply to_uint8_byte].
        -- done.
      * rewrite Vector_length_insert. size_consts. lia.
      * unfold LiteralBuffer.chars. lb_simpl.
        replace (Z.to_nat (p + 1)) with (S (Z.to_nat p)) by lia.
        erewrite take_S_r.
        2:{ rewrite list_lookup_insert_eq; [done|]. unfold Vector_length in *. lia. }
        rewrite take_insert_ge by lia. by rewrite Hb.
    + rewrite bool_decide_false by done.
      destruct (ConvertToTwoByte_spec (LiteralBuffer.Build true p st0) Hwf0)
        as (lb1 & Hcv & Hwf1 & Hm1 & Hp1 & Hroom1 & Hch1 & Hlen1);
        [done|done|lb_simpl; size_consts; lia|lb_simpl; size_consts; lia|].
      rewrite Hcv. lb_simpl.
      destruct (AddCharTwoByte_spec c lb1 Hwf1 Hm1 Hroom1)
        as (lb2 & Ha & Hwf2 & Hm2 & Hch2 & Hp2 & Hlen2);
        [size_consts; lia|size_consts; lia|done|].
      exists lb2. split; [done|]. split; [done|]. rewrite Hm2.
      split; [|split; [lia|split; [done|]]].
      * size_consts. lia.
      * by rewrite Hch2, Hch1.
  - (* wide *)
    pose proof (LiteralBuffer.wf_wide _ Hwf Hone) as Hev.
    destruct (even_double _ Hev) as [m Hm]. destruct (even_double _ Hcap0) as [m0 Hmm0].
    destruct (AddCharTwoByte_spec c (LiteralBuffer.Build false p st0) Hwf0)
      as (lb2 & Ha & Hwf2 & Hm2 & Hch2 & Hp2 & Hlen2);
      [done|lb_simpl; lia|lb_simpl; size_consts; lia|lb_simpl; size_consts; lia|done|].
    exists lb2. split; [done|]. split; [done|]. rewrite Hm2. lb_simpl.
    split; [|split; [lia|split; [done|]]].
    + size_consts. lia.
    + by rewrite Hch2.
Qed.

Lemma AddChars_app cs1 cs2 lb :
  LiteralBuffer.AddChars (cs1 ++ cs2) lb
  = LiteralBuffer.AddChars cs1 lb ≫= LiteralBuffer.AddChars cs2.
Proof.
  revert lb. induction cs1 as [|c cs1 IH]; intros lb; [done|].
  cbn [app LiteralBuffer.AddChars]. destruct (LiteralBuffer.AddChar c lb); [|done].
  cbn [mbind option_bind]. apply IH.
Qed.

(** A run of [AddChar] calls succeeds, keeps the invariant, and appends
    [appended] to the content. *)
Lemma AddChars_spec cs : forall lb,
  LiteralBuffer.wf lb ->
  LiteralBuffer.in_range lb ->
  LiteralBuffer.cost lb + 4 * Z.of_nat (List.length cs) <= 2 ^ 27 ->
  Forall (fun c => 0 <= c) cs ->
  exists lb',
    LiteralBuffer.AddChars cs lb = Some lb' /\
    LiteralBuffer.wf lb' /\
    LiteralBuffer.in_range lb' /\
    LiteralBuffer.cost lb' <= LiteralBuffer.cost lb + 4 * Z.of_nat (List.length cs) /\
    LiteralBuffer.is_one_byte_ lb' =
      LiteralBuffer.is_one_byte_ lb
      && forallb (fun c => bool_decide (c <= Latin1.kMaxChar)) cs /\
    LiteralBuffer.chars lb' =
      LiteralBuffer.chars lb
      ++ LiteralBuffer.appended (LiteralBuffer.is_one_byte_ lb) cs.
Proof.
  induction cs as [|c cs IH]; intros lb Hwf Hr Hcost Hcs.
  - exists lb. cbn [LiteralBuffer.AddChars LiteralBuffer.appended forallb List.length].
    rewrite andb_true_r, app_nil_r. do 3 (split; [done|]). split; [lia|done].
  - apply Forall_cons in Hcs as [Hc Hcs]. cbn [List.length] in *.
    destruct (AddChar_spec c lb Hwf Hr) as (lb1 & Ha & Hwf1 & Hr1 & Hc1 & Hm1 & Hch1); [lia|done|].
    destruct (IH lb1 Hwf1 Hr1) as (lb' & Has & Hwf' & Hr' & Hc' & Hm' & Hch'); [lia|done|].
    exists lb'. cbn [LiteralBuffer.AddChars LiteralBuffer.appended forallb].
    rewrite Ha. cbn [mbind option_bind].
    split; [done|]. split; [done|]. split; [done|]. split; [lia|]. split.
    + by rewrite Hm', Hm1, andb_assoc.
    + rewrite Hch', Hch1, <- app_assoc, <- Hm1. done.
Qed.

Lemma appended_latin1 cs :
  Forall (fun c => c <= Latin1.kMaxChar) cs ->
  LiteralBuffer.appended true cs = cs /\
  forallb (fun c => bool_decide (c <= Latin1.kMaxChar)) cs = true.
Proof.
  induction 1 as [|c cs Hc _ [IH1 IH2]]; [done|].
  cbn [LiteralBuffer.appended forallb andb].
  rewrite bool_decide_true by done. cbn [andb app]. by rewrite IH1, IH2.
Qed.


Lemma one_byte_literal_chars lb :
  LiteralBuffer.is_one_byte_ lb = true ->
  LiteralBuffer.one_byte_literal lb = Some (LiteralBuffer.chars lb).
Proof. intros H. unfold LiteralBuffer.one_byte_literal, LiteralBuffer.chars. by rewrite H. Qed.

Lemma two_byte_literal_chars lb :
  LiteralBuffer.wf lb ->
  LiteralBuffer.is_one_byte_ lb = false ->
  LiteralBuffer.two_byte_literal lb = Some (LiteralBuffer.chars lb).
Proof.
  intros Hwf H. unfold LiteralBuffer.two_byte_literal, LiteralBuffer.chars. rewrite H.
  destruct (even_double _ (LiteralBuffer.wf_wide _ Hwf H)) as [m ->].
  cbn [negb andb]. rewrite bool_decide_true; [done|].
  rewrite Z.land_ones with (n := 1) by lia. change (2 ^ 1) with 2.
  rewrite Z.mul_comm. apply Z.mod_mul. lia.
Qed.

Lemma length_chars lb :
  LiteralBuffer.wf lb ->
  LiteralBuffer.length lb = Z.of_nat (List.length (LiteralBuffer.chars lb)).
Proof.
  intros [Hpos _ _ Hwide]. unfold LiteralBuffer.length, LiteralBuffer.chars.
  destruct (LiteralBuffer.is_one_byte_ lb).
  - rewrite length_take. unfold Vector_length in Hpos. lia.
  - rewrite length_fmap, length_seq.
    destruct (even_double _ (Hwide eq_refl)) as [m Hm]. rewrite Hm, shiftr1_double. lia.
Qed.

(** Claim C1.  Take a well-formed narrow [LiteralBuffer] holding [old] and
    append a run [pre] of code units that are all at most
    [Latin1::kMaxChar], then one code unit [c] above it.  After [pre] the
    buffer is still one-byte and holds [old ++ pre].  The [AddChar] of [c]
    makes the buffer two-byte, and its 16-bit content is then the previous
    characters, unchanged and in order, followed by [c] (as its surrogate
    pair when [c] is above [kMaxNonSurrogateCharCode]).  The size hypotheses
    keep the [int] arithmetic of the class from overflowing. *)
Theorem LiteralBuffer_AddChar_narrow_then_wide lb old pre c :
  LiteralBuffer.wf lb ->
  LiteralBuffer.in_range lb ->
  LiteralBuffer.one_byte_literal lb = Some old ->
  LiteralBuffer.cost lb + 4 * (Z.of_nat (List.length pre) + 1) <= 2 ^ 27 ->
  Forall (fun x => 0 <= x <= Latin1.kMaxChar) pre ->
  Latin1.kMaxChar < c ->
  exists lb1 lb2,
    LiteralBuffer.AddChars pre lb = Some lb1 /\
    LiteralBuffer.is_one_byte lb1 = true /\
    LiteralBuffer.one_byte_literal lb1 = Some (old ++ pre) /\
    LiteralBuffer.AddChar c lb1 = Some lb2 /\
    LiteralBuffer.AddChars (pre ++ [c]) lb = Some lb2 /\
    LiteralBuffer.is_one_byte lb2 = false /\
    LiteralBuffer.two_byte_literal lb2
      = Some (old ++ pre ++ LiteralBuffer.code_units c).
Proof.
  intros Hwf Hr Hold Hcost Hpre Hc.
  assert (Hone : LiteralBuffer.is_one_byte_ lb = true).
  { unfold LiteralBuffer.one_byte_literal in Hold.
    by destruct (LiteralBuffer.is_one_byte_ lb). }
  rewrite one_byte_literal_chars in Hold by done. injection Hold as <-.
  destruct (AddChars_spec pre lb Hwf Hr) as (lb1 & Has & Hwf1 & Hr1 & Hc1 & Hm1 & Hch1).
  { lia. }
  { eapply Forall_impl; [exact Hpre|]. intros x Hx. simpl in Hx. lia. }
  destruct (appended_latin1 pre) as [Happ Hall].
  { eapply Forall_impl; [exact Hpre|]. intros x Hx. simpl in Hx. lia. }
  rewrite Hone, Happ in Hch1. rewrite Hone, Hall in Hm1. cbn [andb] in Hm1.
  destruct (AddChar_spec c lb1 Hwf1 Hr1) as (lb2 & Ha & Hwf2 & Hr2 & Hc2 & Hm2 & Hch2).
  { lia. }
  { unfold Latin1.kMaxChar in Hc. lia. }
  rewrite Hm1, bool_decide_false in Hm2 by lia. cbn [andb] in Hm2.
  rewrite Hm2, Hch1 in Hch2.
  exists lb1, lb2. split; [done|]. split; [done|].
  split; [by rewrite one_byte_literal_chars, Hch1|].
  split; [done|].
  split; [rewrite AddChars_app, Has; cbn [mbind option_bind LiteralBuffer.AddChars];
          by destruct (LiteralBuffer.AddChar c lb1)|].
  split; [done|].
  by rewrite two_byte_literal_chars, Hch2, <- app_assoc.
Qed.

Lemma LiteralBuffer_init_wf : LiteralBuffer.wf LiteralBuffer.init.
Proof.
  constructor.
  - vm_compute. split; discriminate.
  - reflexivity.
  - constructor.
  - discriminate.
Defined.

Lemma LiteralBuffer_init_in_range : LiteralBuffer.in_range LiteralBuffer.init.
Proof. split; vm_compute; discriminate. Defined.

Lemma LiteralBuffer_AddChar_narrow_then_wide_witness :
  exists lb1 lb2,
    LiteralBuffer.AddChars [97; 98; 99] LiteralBuffer.init = Some lb1 /\
    LiteralBuffer.is_one_byte lb1 = true /\
    LiteralBuffer.one_byte_literal lb1 = Some ([] ++ [97; 98; 99]) /\
    LiteralBuffer.AddChar 960 lb1 = Some lb2 /\
    LiteralBuffer.AddChars ([97; 98; 99] ++ [960]) LiteralBuffer.init = Some lb2 /\
    LiteralBuffer.is_one_byte lb2 = false /\
    LiteralBuffer.two_byte_literal lb2
      = Some ([] ++ [97; 98; 99] ++ LiteralBuffer.code_units 960).
Proof.
  apply (LiteralBuffer_AddChar_narrow_then_wide LiteralBuffer.init [] [97; 98; 99] 960).
  - exact LiteralBuffer_init_wf.
  - exact LiteralBuffer_init_in_range.
  - reflexivity.
  - vm_compute. discriminate.
  - repeat constructor; vm_compute; discriminate.
  - reflexivity.
Defined.

(** ** [LiteralBuffer]: the mode flag *)

Lemma ExpandBuffer_mode lb lb' :
  LiteralBuffer.ExpandBuffer lb = Some lb' ->
  LiteralBuffer.is_one_byte_ lb' = LiteralBuffer.is_one_byte_ lb.
Proof.
  unfold LiteralBuffer.ExpandBuffer. intros H.
  destruct (MemCopy _ _ _); [|done]. cbn [mbind option_bind] in H. by injection H as <-.
Qed.

Lemma AddChar_room_mode lb lb' :
  (if decide (LiteralBuffer.position_ lb >= Vector_length (LiteralBuffer.backing_store_ lb))
   then LiteralBuffer.ExpandBuffer lb else Some lb) = Some lb' ->
  LiteralBuffer.is_one_byte_ lb' = LiteralBuffer.is_one_byte_ lb.
Proof.
  destruct (decide _); intros H; [by apply ExpandBuffer_mode|by injection H as <-].
Qed.

Lemma AddCharTwoByte_mode c lb lb' :
  LiteralBuffer.AddCharTwoByte c lb = Some lb' ->
  LiteralBuffer.is_one_byte_ lb' = LiteralBuffer.is_one_byte_ lb.
Proof.
  unfold LiteralBuffer.AddCharTwoByte. intros H.
  destruct (decide (c <= Utf16.kMaxNonSurrogateCharCode)).
  - destruct (store16 _ _ _); [|done]. cbn [mbind option_bind] in H. by injection H as <-.
  - destruct (store16 _ _ _) as [st|]; [|done]. cbn [mbind option_bind] in H.
    match type of H with (?r ≫= _) = _ => destruct r as [lb1|] eqn:Hr end; [|done].
    apply AddChar_room_mode in Hr. cbn [mbind option_bind] in H.
    destruct (store16 _ _ _); [|done]. cbn [mbind option_bind] in H.
    injection H as <-. lb_simpl. done.
Qed.

Lemma AddChar_wide c lb lb' :
  LiteralBuffer.is_one_byte_ lb = false ->
  LiteralBuffer.AddChar c lb = Some lb' ->
  LiteralBuffer.is_one_byte_ lb' = false.
Proof.
  intros Hw H. unfold LiteralBuffer.AddChar in H.
  match type of H with (?r ≫= _) = _ => destruct r as [lb0|] eqn:Hr end; [|done].
  apply AddChar_room_mode in Hr. cbn [mbind option_bind] in H.
  rewrite Hr, Hw in H. apply AddCharTwoByte_mode in H. congruence.
Qed.

(** Counterexample to claim C6 as stated: [CopyFrom] does not preserve the
    wide mode.  [wide_sample], the result of [AddChar(0x100)] on a fresh
    buffer, is wide; copying a fresh (narrow) buffer, or [nullptr], into it
    makes it narrow again without any [Reset()] call by the caller. *)
Lemma LiteralBuffer_CopyFrom_narrows :
  LiteralBuffer.AddChar 256 LiteralBuffer.init = Some LiteralBuffer.wide_sample /\
  LiteralBuffer.is_one_byte LiteralBuffer.wide_sample = false /\
  LiteralBuffer.is_one_byte
    <$> LiteralBuffer.CopyFrom (Some LiteralBuffer.init) LiteralBuffer.wide_sample
    = Some true /\
  LiteralBuffer.is_one_byte
    <$> LiteralBuffer.CopyFrom None LiteralBuffer.wide_sample
    = Some true.
Proof. vm_compute. done. Qed.

(** Claim C6, amended.  On a buffer whose [is_one_byte()] is false, [AddChar]
    and [ReduceLength], and every run of them, leave it false (the accessors
    are [const] and are functions of the buffer here).  [Reset()] makes it
    true, and [CopyFrom(other)] sets it to the mode of [other]: true when
    [other] is narrow or [nullptr]. *)
Theorem LiteralBuffer_wide_mode lb :
  LiteralBuffer.is_one_byte lb = false ->
  (forall c lb', LiteralBuffer.AddChar c lb = Some lb' ->
     LiteralBuffer.is_one_byte lb' = false) /\
  (forall delta, LiteralBuffer.is_one_byte (LiteralBuffer.ReduceLength delta lb) = false) /\
  (forall ops lb', LiteralBuffer.run ops lb = Some lb' ->
     LiteralBuffer.is_one_byte lb' = false) /\
  LiteralBuffer.is_one_byte (LiteralBuffer.Reset lb) = true /\
  (forall other lb', LiteralBuffer.CopyFrom other lb = Some lb' ->
     LiteralBuffer.is_one_byte lb' =
       match other with
       | None => true
       | Some o => LiteralBuffer.is_one_byte o
       end).
Proof.
  unfold LiteralBuffer.is_one_byte. intros Hw.
  split; [intros c lb'; by apply AddChar_wide|].
  split; [done|].
  split.
  - intros ops. revert lb Hw. induction ops as [|op ops IH]; intros lb Hw lb' Hrun.
    + cbn in Hrun. by injection Hrun as <-.
    + cbn [LiteralBuffer.run] in Hrun.
      destruct (LiteralBuffer.step op lb) as [lb1|] eqn:Hstep; [|done].
      cbn [mbind option_bind] in Hrun. apply (IH lb1); [|done].
      destruct op as [c|delta]; cbn [LiteralBuffer.step] in Hstep.
      * by apply (AddChar_wide c lb).
      * by injection Hstep as <-.
  - split; [done|].
    intros [o|] lb' H; cbn [LiteralBuffer.CopyFrom] in H.
    + destruct (decide _).
      * destruct (MemCopy _ _ _); [|done]. cbn [mbind option_bind] in H. by injection H as <-.
      * by injection H as <-.
    + by injection H as <-.
Qed.

Lemma LiteralBuffer_wide_mode_witness :
  LiteralBuffer.is_one_byte
    <$> LiteralBuffer.run
          [LiteralBuffer.DoAddChar 97; LiteralBuffer.DoReduceLength 1;
           LiteralBuffer.DoAddChar 70000]
          LiteralBuffer.wide_sample
  = Some false.
Proof.
  destruct (LiteralBuffer.run
              [LiteralBuffer.DoAddChar 97; LiteralBuffer.DoReduceLength 1;
               LiteralBuffer.DoAddChar 70000]
              LiteralBuffer.wide_sample) as [lb'|] eqn:Hrun.
  - cbn [fmap option_fmap option_map]. f_equal.
    exact (proj1 (proj2 (proj2
             (LiteralBuffer_wide_mode LiteralBuffer.wide_sample eq_refl)))
             _ lb' Hrun).
  - vm_compute in Hrun. discriminate Hrun.
Defined.

(** ** [Utf16CharacterStream] *)

Lemma to_size_t_id z : 0 <= z <= SIZE_MAX -> to_size_t z = z.
Proof.
  unfold to_size_t, SIZE_MAX. intros. apply Z.mod_small. lia.
Qed.

Lemma to_int_uint16 c : is_uint16 c -> to_int c = c.
Proof.
  unfold is_uint16. change (2 ^ 16) with 65536. intros.
  apply to_int_id. unfold INT_MIN, INT_MAX. change (2 ^ 31) with 2147483648. lia.
Qed.

Section StreamFacts.
Import Utf16CharacterStream.
Context {X : Type} `{!Virtual X} `{!Contract X}.

Lemma unit_at_inside (input : list Z) p c :
  input !! Z.to_nat p = Some c -> unit_at input p = c.
Proof. unfold unit_at. by intros ->. Qed.

Lemma unit_at_past_end (input : list Z) p :
  0 <= p -> Vector_length input <= p -> unit_at input p = kEndOfInput.
Proof.
  unfold unit_at, Vector_length. intros Hp Hlen.
  rewrite lookup_ge_None_2; [done|lia].
Qed.

(** Reading at the cursor of a non-empty window. *)
Lemma Advance_buffered input (s : t X) :
  Inv input s -> Forall is_uint16 input ->
  buffer_cursor_ s < buffer_end_ s ->
  pos_ s < SIZE_MAX ->
  exists c,
    deref_cursor s = Some c /\ to_int c = c /\
    unit_at input (pos_ s) = c /\ 0 <= c /\
    pos_ s < Vector_length input /\
    Inv input (move (buffer_cursor_ s + 1) (to_size_t (pos_ s + 1)) s).
Proof.
  intros Hinv Hin Hlt Hpos.
  destruct (Inv_window _ _ Hinv) as (Hc & He & Hp & Hw).
  destruct (Hw 0%nat) as [[c Hc'] Hb]; [lia|].
  change (Z.of_nat 0) with 0 in *. rewrite !Z.add_0_r in *. exists c.
  assert (Hu : is_uint16 c) by (eapply Forall_lookup_1; eauto).
  unfold deref_cursor. rewrite decide_True by lia.
  split; [congruence|]. split; [by apply to_int_uint16|].
  split; [by apply unit_at_inside|]. split; [unfold is_uint16 in Hu; lia|].
  split.
  - apply lookup_lt_Some in Hc'. unfold Vector_length. lia.
  - rewrite to_size_t_id by lia. apply Inv_seek; [done|lia|lia].
Qed.

Lemma Advance_spec input (s : t X) :
  Inv input s -> Forall is_uint16 input ->
  pos_ s < SIZE_MAX ->
  exists s',
    Advance s = Some (unit_at input (pos_ s), s') /\
    pos_ s' = pos_ s + 1 /\
    Inv input s'.
Proof.
  intros Hinv Hin Hpos.
  pose proof (Inv_window _ _ Hinv) as (Hc & He & Hp & Hw).
  unfold Advance.
  destruct (decide (buffer_cursor_ s < buffer_end_ s)) as [Hlt|Hge].
  - destruct (Advance_buffered input s) as (c & Hd & Hi & Hu & _ & _ & Hinv'); [done..|].
    rewrite Hd. cbn [mbind option_bind]. rewrite Hi, Hu.
    eexists. split; [done|]. split; [|done].
    cbn [pos_ move]. apply to_size_t_id. lia.
  - destruct (ReadBlock_spec input s Hinv Hge) as (Hinv1 & Hp1 & Hmore).
    destruct (ReadBlock s) as [more s1]. cbn [fst snd] in *.
    destruct more.
    + destruct (Advance_buffered input s1) as (c & Hd & Hi & Hu & _ & _ & Hinv');
        [done|done|done|lia|].
      rewrite Hd. cbn [mbind option_bind]. rewrite Hi. rewrite Hp1 in Hu. subst c.
      eexists. split; [done|]. split; [|done].
      cbn [pos_ move]. rewrite Hp1. apply to_size_t_id. lia.
    + destruct Hmore as [Heq Hend].
      rewrite unit_at_past_end by lia.
      eexists. split; [done|]. cbn [pos_ move]. rewrite Hp1.
      rewrite to_size_t_id by lia. split; [done|].
      rewrite <- Hp1. apply Inv_past_end; [done|done|lia|lia].
Qed.

Lemma SeekForward_spec input n (s : t X) :
  Inv input s -> 0 <= n ->
  pos_ s + n <= SIZE_MAX ->
  Inv input (snd (SeekForward n s)) /\
  0 <= fst (SeekForward n s) <= n /\
  pos_ (snd (SeekForward n s)) = pos_ s + fst (SeekForward n s).
Proof.
  intros Hinv Hn Hpos.
  pose proof (Inv_window _ _ Hinv) as (Hc & He & Hp & Hw).
  unfold SeekForward.
  destruct (decide (n <= to_size_t (buffer_end_ s - buffer_cursor_ s))) as [Hle|Hgt].
  - cbn [fst snd pos_ move].
    assert (n <= buffer_end_ s - buffer_cursor_ s).
    { etrans; [exact Hle|]. unfold to_size_t. apply Z.mod_le; lia. }
    rewrite to_size_t_id by lia.
    split; [apply Inv_seek; [done|lia|lia]|]. lia.
  - by apply SlowSeekForward_spec.
Qed.

Lemma run_spec input ops : forall s : t X,
  Inv input s -> Forall is_uint16 input ->
  Forall in_bounds ops ->
  pos_ s + foldr Z.add 0 (reach <$> ops) <= SIZE_MAX ->
  exists s',
    run ops s = Some s' /\
    pos_ s <= pos_ s' <= pos_ s + foldr Z.add 0 (reach <$> ops) /\
    Inv input s'.
Proof.
  induction ops as [|op ops IH]; intros s Hinv Hin Hops Hpos.
  - exists s. cbn. split; [done|]. split; [lia|done].
  - apply Forall_cons in Hops as [Hop Hops].
    cbn [fmap list_fmap foldr] in *.
    assert (Hsum : 0 <= foldr Z.add 0 (reach <$> ops)).
    { clear -Hops. induction Hops as [|o os Ho _ IH']; [done|].
      cbn [fmap list_fmap foldr]. destruct o; cbn in *; lia. }
    assert (Hstep : exists s1, step op s = Some s1 /\
              pos_ s <= pos_ s1 <= pos_ s + reach op /\ Inv input s1).
    { destruct op as [|n]; cbn [step reach in_bounds] in *.
      - destruct (Advance_spec input s) as (s1 & -> & Hp1 & Hinv1); [done|done|lia|].
        exists s1. cbn. split; [done|]. split; [lia|done].
      - destruct (SeekForward_spec input n s) as (Hinv1 & Hr & Hp1); [done|done|lia|].
        eexists. split; [done|]. split; [lia|done]. }
    destruct Hstep as (s1 & Hs1 & Hp1 & Hinv1).
    destruct (IH s1) as (s' & Hrun & Hp' & Hinv'); [done|done|done|lia|].
    exists s'. cbn [run]. rewrite Hs1. cbn [mbind option_bind].
    split; [done|]. split; [lia|done].
Qed.
End StreamFacts.

(** The in-memory stream meets the contract. *)
Section StringStreamFacts.
Import Utf16CharacterStream.

Lemma StringStream_window input s :
  StringStream.inv input s -> window_ok input s.
Proof.
  intros (Hb & Hu & He & Hp & Hc).
  pose proof (Vector_length_nonneg input).
  repeat split; try lia.
  - rewrite Hb. lia.
  - apply lookup_lt_is_Some. unfold Vector_length in *. lia.
  - rewrite Hb. do 2 f_equal. lia.
Qed.

Lemma StringStream_seek input (s : t Z) n :
  StringStream.inv input s -> 0 <= n <= buffer_end_ s - buffer_cursor_ s ->
  pos_ s + n <= SIZE_MAX ->
  StringStream.inv input (move (buffer_cursor_ s + n) (pos_ s + n) s).
Proof.
  intros (Hb & Hu & He & Hp & Hc) Hn Hpos.
  unfold StringStream.inv. cbn [buffer buffer_end_ buffer_cursor_ pos_ move].
  repeat split; try done; lia.
Qed.

Lemma StringStream_past_end input (s : t Z) :
  StringStream.inv input s -> buffer_cursor_ s = buffer_end_ s ->
  Vector_length input <= pos_ s -> pos_ s + 1 <= SIZE_MAX ->
  StringStream.inv input (move (buffer_cursor_ s) (pos_ s + 1) s).
Proof.
  intros (Hb & Hu & He & Hp & Hc) Heq Hlen Hpos.
  unfold StringStream.inv. cbn [buffer buffer_end_ buffer_cursor_ pos_ move].
  repeat split; try done; lia.
Qed.

Lemma StringStream_ReadBlock input (s : t Z) :
  StringStream.inv input s -> ~ buffer_cursor_ s < buffer_end_ s ->
  StringStream.inv input (snd (ReadBlock s)) /\
  pos_ (snd (ReadBlock s)) = pos_ s /\
  if fst (ReadBlock s)
  then buffer_cursor_ (snd (ReadBlock s)) < buffer_end_ (snd (ReadBlock s))
  else buffer_cursor_ (snd (ReadBlock s)) = buffer_end_ (snd (ReadBlock s))
       /\ Vector_length input <= pos_ s.
Proof.
  intros Hinv Hge. cbn. split; [done|]. split; [done|].
  destruct Hinv as (Hb & Hu & He & Hp & Hc). lia.
Qed.

Lemma StringStream_SlowSeekForward input n (s : t Z) :
  StringStream.inv input s -> 0 <= n ->
  StringStream.inv input (snd (SlowSeekForward n s)) /\
  0 <= fst (SlowSeekForward n s) <= n /\
  pos_ (snd (SlowSeekForward n s)) = pos_ s + fst (SlowSeekForward n s).
Proof. intros Hinv Hn. cbn. split; [done|]. lia. Qed.

Lemma StringStream_PushBack input (s : t Z) :
  StringStream.inv input s -> 0 < pos_ s ->
  StringStream.inv input (PushBack (unit_at input (pos_ s - 1)) s) /\
  pos_ (PushBack (unit_at input (pos_ s - 1)) s) = pos_ s - 1.
Proof.
  intros (Hb & Hu & He & Hp & Hc) Hpos.
  pose proof (Vector_length_nonneg input).
  cbn [PushBack StringStream.virtual]. unfold StringStream.inv.
  cbn [buffer buffer_end_ buffer_cursor_ pos_ move].
  rewrite to_size_t_id by lia.
  split; [|done]. split; [done|]. split; [done|]. split; [done|]. split; [lia|].
  destruct (decide (pos_ s - 1 < Vector_length input)) as [Hin|Hout].
  - assert (Hl : is_Some (input !! Z.to_nat (pos_ s - 1))).
    { apply lookup_lt_is_Some. unfold Vector_length in *. lia. }
    destruct Hl as [c Hl]. rewrite (unit_at_inside _ _ _ Hl).
    assert (Hcu : is_uint16 c) by (eapply Forall_lookup_1; eauto).
    rewrite decide_False; [lia|].
    unfold is_uint16, kEndOfInput in *. lia.
  - rewrite unit_at_past_end by lia.
    rewrite decide_True by done. lia.
Qed.

#[global] Instance StringStream_contract : Contract Z := {|
  Inv := StringStream.inv;
  Inv_window := StringStream_window;
  Inv_seek := StringStream_seek;
  Inv_past_end := StringStream_past_end;
  ReadBlock_spec := StringStream_ReadBlock;
  SlowSeekForward_spec := StringStream_SlowSeekForward;
  PushBack_spec := StringStream_PushBack
|}.

Lemma StringStream_make_inv input :
  Forall is_uint16 input -> Vector_length input <= SIZE_MAX ->
  StringStream.inv input (StringStream.make input).
Proof.
  intros Hu Hlen. pose proof (Vector_length_nonneg input).
  unfold StringStream.inv, StringStream.make. cbn. repeat split; try done; lia.
Qed.
End StringStreamFacts.

(** Claim C8.  For a stream over [input] whose subclass meets the contract
    of the virtual methods: [Advance()] returns the unit of the input at
    [pos()], which is the end-of-input sentinel, a negative value, once the
    input is exhausted, and in both cases [pos()] grows by exactly one; and
    across any run of [Advance] and [SeekForward] calls [pos()] does not
    decrease.  [pos_] is a [size_t], so the statement is for runs that stay
    below [SIZE_MAX]. *)
Theorem Utf16CharacterStream_Advance_pos
    {X : Type} `{!Utf16CharacterStream.Virtual X} `{!Utf16CharacterStream.Contract X}
    (input : list Z) (s : Utf16CharacterStream.t X) :
  Utf16CharacterStream.Inv input s ->
  Forall is_uint16 input ->
  (Utf16CharacterStream.pos s < SIZE_MAX ->
   exists s',
     Utf16CharacterStream.Advance s
       = Some (Utf16CharacterStream.unit_at input (Utf16CharacterStream.pos s), s') /\
     Utf16CharacterStream.pos s' = Utf16CharacterStream.pos s + 1 /\
     Utf16CharacterStream.Inv input s' /\
     (Utf16CharacterStream.pos s < Vector_length input ->
      input !! Z.to_nat (Utf16CharacterStream.pos s)
        = Some (Utf16CharacterStream.unit_at input (Utf16CharacterStream.pos s))) /\
     (Vector_length input <= Utf16CharacterStream.pos s ->
      Utf16CharacterStream.unit_at input (Utf16CharacterStream.pos s)
        = Utf16CharacterStream.kEndOfInput /\
      Utf16CharacterStream.kEndOfInput < 0)) /\
  (forall ops,
     Forall Utf16CharacterStream.in_bounds ops ->
     Utf16CharacterStream.pos s + Utf16CharacterStream.total_reach ops <= SIZE_MAX ->
     exists s',
       Utf16CharacterStream.run ops s = Some s' /\
       Utf16CharacterStream.pos s <= Utf16CharacterStream.pos s' /\
       Utf16CharacterStream.Inv input s').
Proof.
  intros Hinv Hin. unfold Utf16CharacterStream.pos.
  destruct (Utf16CharacterStream.Inv_window _ _ Hinv) as (_ & _ & Hp & _).
  split.
  - intros Hpos.
    destruct (Advance_spec input s Hinv Hin Hpos) as (s' & Ha & Hp' & Hinv').
    exists s'. split; [done|]. split; [done|]. split; [done|]. split.
    + intros Hlt.
      assert (Hl : is_Some (input !! Z.to_nat (Utf16CharacterStream.pos_ s))).
      { apply lookup_lt_is_Some. unfold Vector_length in *. lia. }
      destruct Hl as [c Hl]. by rewrite (unit_at_inside _ _ _ Hl).
    + intros Hge. split; [apply unit_at_past_end; lia|done].
  - intros ops Hops Hreach.
    destruct (run_spec input ops s Hinv Hin Hops Hreach) as (s' & Hrun & Hp' & Hinv').
    exists s'. split; [done|]. split; [lia|done].
Qed.

Lemma Utf16CharacterStream_Advance_pos_witness :
  let input := [104; 105] in
  let s := StringStream.make input in
  (Utf16CharacterStream.pos s < SIZE_MAX ->
   exists s',
     Utf16CharacterStream.Advance s
       = Some (Utf16CharacterStream.unit_at input (Utf16CharacterStream.pos s), s') /\
     Utf16CharacterStream.pos s' = Utf16CharacterStream.pos s + 1 /\
     Utf16CharacterStream.Inv input s' /\
     (Utf16CharacterStream.pos s < Vector_length input ->
      input !! Z.to_nat (Utf16CharacterStream.pos s)
        = Some (Utf16CharacterStream.unit_at input (Utf16CharacterStream.pos s))) /\
     (Vector_length input <= Utf16CharacterStream.pos s ->
      Utf16CharacterStream.unit_at input (Utf16CharacterStream.pos s)
        = Utf16CharacterStream.kEndOfInput /\
      Utf16CharacterStream.kEndOfInput < 0)) /\
  (forall ops,
     Forall Utf16CharacterStream.in_bounds ops ->
     Utf16CharacterStream.pos s + Utf16CharacterStream.total_reach ops <= SIZE_MAX ->
     exists s',
       Utf16CharacterStream.run ops s = Some s' /\
       Utf16CharacterStream.pos s <= Utf16CharacterStream.pos s' /\
       Utf16CharacterStream.Inv input s').
Proof.
  intros input s.
  apply (Utf16CharacterStream_Advance_pos input s).
  - unfold s, input. cbn. unfold StringStream.inv. cbn.
    repeat split; try reflexivity; try (vm_compute; discriminate).
    repeat constructor; vm_compute; discriminate.
  - unfold input. repeat constructor; vm_compute; discriminate.
Defined.

(** ** [Scanner]: the sticky error slot *)

Section ScannerErrorFacts.
Context {X : Type}.
Implicit Types s : Scanner.t X.

Lemma report_has_error s r :
  Scanner.has_error s = true -> Scanner.report r s = s.
Proof.
  intros H. destruct r; cbn [Scanner.report];
    unfold Scanner.ReportScannerError, Scanner.ReportScannerError_pos; by rewrite H.
Qed.

Lemma reports_has_error rs s :
  Scanner.has_error s = true -> Scanner.reports rs s = s.
Proof.
  intros H. induction rs as [|r rs IH]; [done|].
  unfold Scanner.reports in *. cbn [foldl]. by rewrite report_has_error.
Qed.

Lemma report_no_error s r :
  Scanner.has_error s = false ->
  Scanner.error (Scanner.report r s) = Scanner.reported_error r /\
  Scanner.error_location (Scanner.report r s) = Scanner.reported_location r.
Proof.
  intros H. destruct r; cbn [Scanner.report];
    unfold Scanner.ReportScannerError, Scanner.ReportScannerError_pos; by rewrite H.
Qed.

Lemma has_error_error s :
  Scanner.has_error s = true <-> Scanner.error s <> MessageTemplate.kNone.
Proof. unfold Scanner.has_error, Scanner.error. apply bool_decide_eq_true. Qed.
End ScannerErrorFacts.

(** Claim C3.  In a scanner state with [has_error()] true, a call of either
    [ReportScannerError] overload, and hence any run of further reports,
    returns the state as it was: [error()] and [error_location()] do not
    change.  In a state with an empty slot a report stores its error and
    location, and once that error is a real one ([has_error()] has become
    true) every report after it is a no-op, so the first report wins. *)
Theorem Scanner_ReportScannerError_sticky {X : Type} (s : Scanner.t X) :
  (Scanner.has_error s = true ->
   (forall l e, Scanner.ReportScannerError l e s = s) /\
   (forall p e, Scanner.ReportScannerError_pos p e s = s) /\
   (forall rs, Scanner.reports rs s = s /\
               Scanner.error (Scanner.reports rs s) = Scanner.error s /\
               Scanner.error_location (Scanner.reports rs s)
                 = Scanner.error_location s)) /\
  (Scanner.has_error s = false ->
   forall r,
     Scanner.error (Scanner.report r s) = Scanner.reported_error r /\
     Scanner.error_location (Scanner.report r s) = Scanner.reported_location r /\
     (Scanner.reported_error r <> MessageTemplate.kNone ->
      Scanner.has_error (Scanner.report r s) = true /\
      forall rs,
        Scanner.error (Scanner.reports (r :: rs) s) = Scanner.reported_error r /\
        Scanner.error_location (Scanner.reports (r :: rs) s)
          = Scanner.reported_location r)).
Proof.
  split.
  - intros H. split; [|split].
    + intros l e. apply (report_has_error s (Scanner.AtLocation l e) H).
    + intros p e. apply (report_has_error s (Scanner.AtPos p e) H).
    + intros rs. by rewrite reports_has_error.
  - intros H r. destruct (report_no_error s r H) as [He Hl].
    split; [done|]. split; [done|]. intros Hreal.
    assert (Hset : Scanner.has_error (Scanner.report r s) = true).
    { apply has_error_error. by rewrite He. }
    split; [done|]. intros rs.
    change (Scanner.reports (r :: rs) s)
      with (Scanner.reports rs (Scanner.report r s)).
    by rewrite reports_has_error.
Qed.

Lemma Scanner_ReportScannerError_sticky_witness :
  let s0 := Scanner.fresh (StringStream.make [34; 97]) in
  let first := Scanner.AtPos 7 (MessageTemplate.kError 1) in
  let later := [Scanner.AtLocation (Scanner.Loc 0 2) (MessageTemplate.kError 2);
                Scanner.AtPos 9 (MessageTemplate.kError 3)] in
  Scanner.error (Scanner.reports (first :: later) s0) = MessageTemplate.kError 1 /\
  Scanner.error_location (Scanner.reports (first :: later) s0) = Scanner.Loc 7 8 /\
  Scanner.reports later (Scanner.report first s0) = Scanner.report first s0.
Proof.
  intros s0 first later.
  pose proof (proj2 (Scanner_ReportScannerError_sticky s0) eq_refl first) as (_ & _ & H).
  destruct (H ltac:(discriminate)) as [Herr Hrs].
  destruct (Hrs later) as [He Hl].
  split; [exact He|]. split; [exact Hl|].
  exact (proj1 (proj2 (proj2
           (proj1 (Scanner_ReportScannerError_sticky (Scanner.report first s0)) Herr))
           later)).
Defined.

(** ** [Scanner]: the rotation of the literal buffers *)

Section ScannerLiteralFacts.
Context {X : Type}.
Implicit Types s : Scanner.t X.

Lemma AddChar_at_inv p c s s' :
  Scanner.AddChar_at p c s = Some s' ->
  exists r lb,
    p = Some r /\
    LiteralBuffer.AddChar (to_uint32 c) (Scanner.buffers s r) = Some lb /\
    Scanner.buffers s' r = lb /\
    (forall r', r' <> r -> Scanner.buffers s' r' = Scanner.buffers s r') /\
    Scanner.current_ s' = Scanner.current_ s /\
    Scanner.next_ s' = Scanner.next_ s.
Proof.
  unfold Scanner.AddChar_at. intros H. destruct p as [r|]; [|done].
  cbn [mbind option_bind] in H.
  destruct (LiteralBuffer.AddChar _ _) as [lb|] eqn:Ha; [|done].
  cbn [mbind option_bind] in H. injection H as <-.
  exists r, lb. cbn [Scanner.buffers Scanner.set_buffers Scanner.current_ Scanner.next_].
  split; [done|]. split; [done|]. split; [apply fn_lookup_insert|].
  split; [|done]. intros r' Hne. by apply fn_lookup_insert_ne.
Qed.

(** A run of [AddChar] calls through a pointer only touches the buffer it
    points to. *)
Lemma AddChars_at_frame p cs : forall s s',
  Scanner.AddChars_at p cs s = Some s' ->
  (forall r', p <> Some r' -> Scanner.buffers s' r' = Scanner.buffers s r') /\
  Scanner.current_ s' = Scanner.current_ s /\
  Scanner.next_ s' = Scanner.next_ s.
Proof.
  induction cs as [|c cs IH]; intros s s' H.
  - cbn in H. by injection H as <-.
  - cbn [Scanner.AddChars_at] in H.
    destruct (Scanner.AddChar_at p c s) as [s1|] eqn:H1; [|done].
    cbn [mbind option_bind] in H.
    destruct (AddChar_at_inv _ _ _ _ H1) as (r & lb & -> & _ & _ & Hf & Hc & Hn).
    destruct (IH _ _ H) as (Hf' & Hc' & Hn').
    split; [|split; congruence].
    intros r' Hne. rewrite Hf' by done. apply Hf. congruence.
Qed.

(** On a buffer that satisfies the invariant the run succeeds, and it is the
    run of [LiteralBuffer::AddChar] on that buffer. *)
Lemma AddChars_at_spec r cs : forall s,
  LiteralBuffer.wf (Scanner.buffers s r) ->
  LiteralBuffer.in_range (Scanner.buffers s r) ->
  LiteralBuffer.cost (Scanner.buffers s r) + 4 * Z.of_nat (List.length cs) <= 2 ^ 27 ->
  exists s',
    Scanner.AddChars_at (Some r) cs s = Some s' /\
    LiteralBuffer.AddChars (to_uint32 <$> cs) (Scanner.buffers s r)
      = Some (Scanner.buffers s' r).
Proof.
  induction cs as [|c cs IH]; intros s Hwf Hr Hcost.
  - exists s. done.
  - cbn [List.length] in Hcost.
    destruct (AddChar_spec (to_uint32 c) (Scanner.buffers s r) Hwf Hr)
      as (lb & Ha & Hwf1 & Hr1 & Hc1 & _); [lia| |].
    { unfold to_uint32. apply Z.mod_pos_bound. lia. }
    set (s1 := Scanner.set_buffers (<[r := lb]> (Scanner.buffers s)) s).
    assert (Hb1 : Scanner.buffers s1 r = lb) by apply fn_lookup_insert.
    destruct (IH s1) as (s' & Hrun & Hadd); [by rewrite Hb1..|rewrite Hb1; lia|].
    exists s'. cbn [Scanner.AddChars_at fmap list_fmap LiteralBuffer.AddChars].
    unfold Scanner.AddChar_at. cbn [mbind option_bind]. rewrite Ha.
    cbn [mbind option_bind]. fold s1. split; [done|]. by rewrite <- Hb1.
Qed.

Lemma AddLiteralChars_at cs : forall s,
  Scanner.AddLiteralChars cs s
  = Scanner.AddChars_at (Scanner.literal_chars (Scanner.next_ s)) cs s.
Proof.
  induction cs as [|c cs IH]; intros s; [done|].
  cbn [Scanner.AddLiteralChars Scanner.AddChars_at]. unfold Scanner.AddLiteralChar.
  destruct (Scanner.AddChar_at _ c s) as [s1|] eqn:H1; [|done].
  cbn [mbind option_bind]. rewrite IH.
  destruct (AddChar_at_inv _ _ _ _ H1) as (_ & _ & _ & _ & _ & _ & _ & ->). done.
Qed.

Lemma AddRawLiteralChars_at cs : forall s,
  Scanner.AddRawLiteralChars cs s
  = Scanner.AddChars_at (Scanner.raw_literal_chars (Scanner.next_ s)) cs s.
Proof.
  induction cs as [|c cs IH]; intros s; [done|].
  cbn [Scanner.AddRawLiteralChars Scanner.AddChars_at]. unfold Scanner.AddRawLiteralChar.
  destruct (Scanner.AddChar_at _ c s) as [s1|] eqn:H1; [|done].
  cbn [mbind option_bind]. rewrite IH.
  destruct (AddChar_at_inv _ _ _ _ H1) as (_ & _ & _ & _ & _ & _ & _ & ->). done.
Qed.

Lemma Reset_ok lb :
  LiteralBuffer.wf lb ->
  Vector_length (LiteralBuffer.backing_store_ lb) <= 2 ^ 28 + MB + 64 ->
  LiteralBuffer.wf (LiteralBuffer.Reset lb) /\
  LiteralBuffer.in_range (LiteralBuffer.Reset lb) /\
  LiteralBuffer.cost (LiteralBuffer.Reset lb) = 0 /\
  LiteralBuffer.is_one_byte (LiteralBuffer.Reset lb) = true /\
  LiteralBuffer.length (LiteralBuffer.Reset lb) = 0 /\
  LiteralBuffer.chars (LiteralBuffer.Reset lb) = [].
Proof.
  intros [Hp Hc Hb Hw] Hlen.
  split; [|split; [|done]].
  - constructor; cbn; [lia|done|done|done].
  - split; [|done]. cbn. change (2 ^ 27) with 134217728. lia.
Qed.

(** After filling the buffer a pointer designates, starting from an empty
    narrow buffer, every other buffer is as before and the filled one holds
    what was appended. *)
Lemma fill_after_Reset r cs s lb0 :
  Scanner.buffers s r = LiteralBuffer.Reset lb0 ->
  LiteralBuffer.wf lb0 ->
  Vector_length (LiteralBuffer.backing_store_ lb0) <= 2 ^ 28 + MB + 64 ->
  4 * Z.of_nat (List.length cs) <= 2 ^ 27 ->
  exists s',
    Scanner.AddChars_at (Some r) cs s = Some s' /\
    Scanner.current_ s' = Scanner.current_ s /\
    Scanner.next_ s' = Scanner.next_ s /\
    (forall r', r' <> r -> Scanner.buffers s' r' = Scanner.buffers s r') /\
    LiteralBuffer.chars (Scanner.buffers s' r)
      = LiteralBuffer.appended true (to_uint32 <$> cs).
Proof.
  intros Hb Hwf Hlen Hcs.
  destruct (Reset_ok lb0 Hwf Hlen) as (Hwf0 & Hr0 & Hc0 & Hm0 & _ & Hch0).
  destruct (AddChars_at_spec r cs s) as (s' & Hrun & Hadd);
    [by rewrite Hb..|rewrite Hb, Hc0; lia|].
  exists s'. split; [done|].
  destruct (AddChars_at_frame _ _ _ _ Hrun) as (Hf & Hc & Hn).
  split; [done|]. split; [done|]. split; [intros r' Hne; apply Hf; congruence|].
  rewrite Hb in Hadd.
  destruct (AddChars_spec (to_uint32 <$> cs) (LiteralBuffer.Reset lb0) Hwf0 Hr0)
    as (lb' & Hadd' & _ & _ & _ & _ & Hch).
  { rewrite Hc0, length_fmap. lia. }
  { apply Forall_fmap, Forall_true. intros c. unfold to_uint32. cbn.
    apply Z.mod_pos_bound. lia. }
  rewrite Hadd in Hadd'. injection Hadd' as <-. by rewrite Hch, Hch0.
Qed.
End ScannerLiteralFacts.

(** Claim C7.  After [StartLiteral()] the literal buffer of the next token
    descriptor is one of [literal_buffer0_], [literal_buffer1_],
    [literal_buffer2_], it is not the buffer the current descriptor points
    to, and it is empty (and narrow); every other buffer is untouched.
    Filling it with any run of [AddLiteralChar] calls succeeds and changes no
    other buffer, so the buffer backing the current token keeps its content.
    The same holds for [StartRawLiteral()], the three raw buffers and
    [AddRawLiteralChar]. *)
Theorem Scanner_StartLiteral_rotation {X : Type} (s : Scanner.t X) (cs : list Z) :
  Scanner.buffers_ok s ->
  4 * Z.of_nat (List.length cs) <= 2 ^ 27 ->
  (exists r s',
     Scanner.literal_chars (Scanner.next_ (Scanner.StartLiteral s)) = Some r /\
     (r = Scanner.literal_buffer0_ \/ r = Scanner.literal_buffer1_
      \/ r = Scanner.literal_buffer2_) /\
     Scanner.current_ (Scanner.StartLiteral s) = Scanner.current_ s /\
     Scanner.literal_chars (Scanner.current_ s) <> Some r /\
     LiteralBuffer.is_one_byte (Scanner.buffers (Scanner.StartLiteral s) r) = true /\
     LiteralBuffer.length (Scanner.buffers (Scanner.StartLiteral s) r) = 0 /\
     (forall r', r' <> r ->
        Scanner.buffers (Scanner.StartLiteral s) r' = Scanner.buffers s r') /\
     Scanner.AddLiteralChars cs (Scanner.StartLiteral s) = Some s' /\
     Scanner.current_ s' = Scanner.current_ s /\
     (forall r', r' <> r -> Scanner.buffers s' r' = Scanner.buffers s r') /\
     (forall rc, Scanner.literal_chars (Scanner.current_ s) = Some rc ->
        Scanner.buffers s' rc = Scanner.buffers s rc) /\
     LiteralBuffer.chars (Scanner.buffers s' r)
       = LiteralBuffer.appended true (to_uint32 <$> cs)) /\
  (exists r s',
     Scanner.raw_literal_chars (Scanner.next_ (Scanner.StartRawLiteral s)) = Some r /\
     (r = Scanner.raw_literal_buffer0_ \/ r = Scanner.raw_literal_buffer1_
      \/ r = Scanner.raw_literal_buffer2_) /\
     Scanner.current_ (Scanner.StartRawLiteral s) = Scanner.current_ s /\
     Scanner.raw_literal_chars (Scanner.current_ s) <> Some r /\
     LiteralBuffer.is_one_byte (Scanner.buffers (Scanner.StartRawLiteral s) r) = true /\
     LiteralBuffer.length (Scanner.buffers (Scanner.StartRawLiteral s) r) = 0 /\
     (forall r', r' <> r ->
        Scanner.buffers (Scanner.StartRawLiteral s) r' = Scanner.buffers s r') /\
     Scanner.AddRawLiteralChars cs (Scanner.StartRawLiteral s) = Some s' /\
     Scanner.current_ s' = Scanner.current_ s /\
     (forall r', r' <> r -> Scanner.buffers s' r' = Scanner.buffers s r') /\
     (forall rc, Scanner.raw_literal_chars (Scanner.current_ s) = Some rc ->
        Scanner.buffers s' rc = Scanner.buffers s rc) /\
     LiteralBuffer.chars (Scanner.buffers s' r)
       = LiteralBuffer.appended true (to_uint32 <$> cs)).
Proof.
  intros Hok Hcs. split.
  - set (r := if decide (Scanner.literal_chars (Scanner.current_ s)
                         = Some Scanner.literal_buffer0_)
              then Scanner.literal_buffer1_
              else if decide (Scanner.literal_chars (Scanner.current_ s)
                              = Some Scanner.literal_buffer1_)
                   then Scanner.literal_buffer2_
                   else Scanner.literal_buffer0_).
    assert (Hne : Scanner.literal_chars (Scanner.current_ s) <> Some r).
    { unfold r. repeat case_decide; congruence. }
    assert (Hin : r = Scanner.literal_buffer0_ \/ r = Scanner.literal_buffer1_
                  \/ r = Scanner.literal_buffer2_).
    { unfold r. repeat case_decide; auto. }
    set (s1 := Scanner.StartLiteral s).
    assert (Hb : Scanner.buffers s1 r = LiteralBuffer.Reset (Scanner.buffers s r))
      by apply fn_lookup_insert.
    assert (Hf : forall r', r' <> r -> Scanner.buffers s1 r' = Scanner.buffers s r').
    { intros r' Hr'. unfold s1, Scanner.StartLiteral. fold r.
      cbn [Scanner.buffers Scanner.set_buffers Scanner.set_next_].
      by apply fn_lookup_insert_ne. }
    destruct (Hok r) as [Hwf Hlen].
    destruct (fill_after_Reset r cs s1 _ Hb Hwf Hlen Hcs) as (s' & Hrun & Hc & _ & Hf' & Hch).
    exists r, s'. split; [done|]. split; [done|]. split; [done|]. split; [done|].
    rewrite Hb. split; [done|]. split; [done|]. split; [done|].
    split; [by rewrite AddLiteralChars_at|]. split; [done|].
    split; [intros r' Hr'; by rewrite Hf', Hf|]. split; [|done].
    intros rc Hrc. rewrite Hf', Hf; [done|congruence..].
  - set (r := if decide (Scanner.raw_literal_chars (Scanner.current_ s)
                         = Some Scanner.raw_literal_buffer0_)
              then Scanner.raw_literal_buffer1_
              else if decide (Scanner.raw_literal_chars (Scanner.current_ s)
                              = Some Scanner.raw_literal_buffer1_)
                   then Scanner.raw_literal_buffer2_
                   else Scanner.raw_literal_buffer0_).
    assert (Hne : Scanner.raw_literal_chars (Scanner.current_ s) <> Some r).
    { unfold r. repeat case_decide; congruence. }
    assert (Hin : r = Scanner.raw_literal_buffer0_ \/ r = Scanner.raw_literal_buffer1_
                  \/ r = Scanner.raw_literal_buffer2_).
    { unfold r. repeat case_decide; auto. }
    set (s1 := Scanner.StartRawLiteral s).
    assert (Hb : Scanner.buffers s1 r = LiteralBuffer.Reset (Scanner.buffers s r))
      by apply fn_lookup_insert.
    assert (Hf : forall r', r' <> r -> Scanner.buffers s1 r' = Scanner.buffers s r').
    { intros r' Hr'. unfold s1, Scanner.StartRawLiteral. fold r.
      cbn [Scanner.buffers Scanner.set_buffers Scanner.set_next_].
      by apply fn_lookup_insert_ne. }
    destruct (Hok r) as [Hwf Hlen].
    destruct (fill_after_Reset r cs s1 _ Hb Hwf Hlen Hcs) as (s' & Hrun & Hc & _ & Hf' & Hch).
    exists r, s'. split; [done|]. split; [done|]. split; [done|]. split; [done|].
    rewrite Hb. split; [done|]. split; [done|]. split; [done|].
    split; [by rewrite AddRawLiteralChars_at|]. split; [done|].
    split; [intros r' Hr'; by rewrite Hf', Hf|]. split; [|done].
    intros rc Hrc. rewrite Hf', Hf; [done|congruence..].
Qed.

Lemma Scanner_fresh_buffers_ok {X : Type} (source : Utf16CharacterStream.t X) :
  Scanner.buffers_ok (Scanner.sample source).
Proof.
  intros r. split; [exact LiteralBuffer_init_wf|vm_compute; discriminate].
Defined.

Lemma Scanner_StartLiteral_rotation_witness :
  let s := Scanner.sample (StringStream.make []) in
  exists s',
    Scanner.AddLiteralChars [104; 105] (Scanner.StartLiteral s) = Some s' /\
    Scanner.current_ s' = Scanner.current_ s /\
    Scanner.buffers s' Scanner.literal_buffer0_
      = Scanner.buffers s Scanner.literal_buffer0_.
Proof.
  intros s.
  destruct (Scanner_StartLiteral_rotation s [104; 105]) as [H _].
  - apply Scanner_fresh_buffers_ok.
  - vm_compute. discriminate.
  - destruct H as (r & s' & _ & _ & _ & _ & _ & _ & _ & Hrun & Hc & _ & Hcur & _).
    exists s'. split; [exact Hrun|]. split; [exact Hc|].
    apply Hcur. reflexivity.
Defined.

(** ** [Scanner]: the escape-presence flag *)

(** Claim C10.  [LiteralContainsEscapes] records nothing per escape: for a
    token descriptor with a literal buffer it returns whether the logical
    length of the buffer differs from [end_pos - beg_pos], less 2 for a
    [STRING] token; [literal_contains_escapes()] and
    [next_literal_contains_escapes()] are this function on [current_] and on
    [next_].  The logical length is the number of code units held.  The
    hypothesis on the span keeps the [int] subtractions exact. *)
Theorem Scanner_LiteralContainsEscapes_length {X : Type} (s : Scanner.t X)
    (heap : Scanner.LiteralBufferRef -> LiteralBuffer.t)
    (token_ : Scanner.TokenDesc) (r : Scanner.LiteralBufferRef) :
  let span := Scanner.end_pos (Scanner.location token_)
              - Scanner.beg_pos (Scanner.location token_) in
  let source_length :=
    if decide (Scanner.token token_ = Token.STRING) then span - 2 else span in
  Scanner.literal_chars token_ = Some r ->
  INT_MIN + 2 <= span <= INT_MAX ->
  (exists b,
     Scanner.LiteralContainsEscapes heap token_ = Some b /\
     (b = true <-> LiteralBuffer.length (heap r) <> source_length) /\
     (LiteralBuffer.wf (heap r) ->
      b = true <->
      Z.of_nat (List.length (LiteralBuffer.chars (heap r))) <> source_length)) /\
  Scanner.literal_contains_escapes s
    = Scanner.LiteralContainsEscapes (Scanner.buffers s) (Scanner.current_ s) /\
  Scanner.next_literal_contains_escapes s
    = Scanner.LiteralContainsEscapes (Scanner.buffers s) (Scanner.next_ s).
Proof.
  intros span source_length Hr Hspan.
  split; [|done].
  exists (bool_decide (LiteralBuffer.length (heap r) <> source_length)).
  assert (Hsl : (if decide (Scanner.token token_ = Token.STRING)
                 then to_int (to_int span - 2) else to_int span) = source_length).
  { unfold source_length, INT_MIN, INT_MAX in *.
    change (2 ^ 31) with 2147483648 in Hspan.
    destruct (decide _);
      rewrite !to_int_id
        by (unfold INT_MIN, INT_MAX; change (2 ^ 31) with 2147483648;
            rewrite ?to_int_id
              by (unfold INT_MIN, INT_MAX; change (2 ^ 31) with 2147483648; lia);
            lia); done. }
  split; [|split].
  - unfold Scanner.LiteralContainsEscapes. fold span. rewrite Hr.
    cbn [mbind option_bind]. by rewrite Hsl.
  - apply bool_decide_eq_true.
  - intros Hwf. rewrite <- (length_chars _ Hwf). apply bool_decide_eq_true.
Qed.

Lemma Scanner_LiteralContainsEscapes_length_witness :
  let heap := fun _ : Scanner.LiteralBufferRef =>
                LiteralBuffer.Build true 3 ([97; 10; 98] ++ replicate 61 0) in
  let token_ := Scanner.Desc Token.STRING (Scanner.Loc 10 16)
                  (Some Scanner.literal_buffer1_) None 0 in
  Scanner.LiteralContainsEscapes heap token_ = Some true.
Proof.
  intros heap token_.
  destruct (Scanner_LiteralContainsEscapes_length
              (Scanner.fresh (StringStream.make [])) heap token_
              Scanner.literal_buffer1_)
    as [(b & Hb & Hiff & _) _].
  - reflexivity.
  - vm_compute. split; discriminate.
  - rewrite Hb. f_equal. apply Hiff. vm_compute. discriminate.
Defined.

(** ** [unibrow::Utf16] *)

Lemma land_1023 x : Z.land x 1023 = x mod 1024.
Proof. change 1023 with (Z.ones 10). rewrite Z.land_ones by lia. done. Qed.

(** The mask [0xfc00] keeps bits 10 to 15 of a 16-bit unit. *)
Lemma land_64512 u : is_uint16 u -> Z.land u 64512 = 1024 * (u / 1024).
Proof.
  unfold is_uint16. intros Hu.
  replace (1024 * (u / 1024)) with (Z.shiftl (Z.shiftr u 10) 10)
    by (rewrite Z.shiftl_mul_pow2, Z.shiftr_div_pow2 by lia;
        change (2 ^ 10) with 1024; lia).
  change 64512 with (Z.shiftl (Z.ones 6) 10).
  apply Z.bits_inj'. intros n Hn.
  rewrite Z.land_spec, !Z.shiftl_spec by lia.
  destruct (Z.ltb_spec n 10) as [Hlt|Hge].
  - rewrite (Z.testbit_neg_r (Z.ones 6)), (Z.testbit_neg_r (Z.shiftr u 10)) by lia.
    apply andb_false_r.
  - rewrite Z.shiftr_spec by lia. replace (n - 10 + 10) with n by lia.
    destruct (Z.ltb_spec n 16) as [Hlt16|Hge16].
    + rewrite Z.ones_spec_low by lia. apply andb_true_r.
    + rewrite Z.ones_spec_high by lia. rewrite andb_false_r. symmetry.
      destruct (decide (u = 0)) as [->|Hnz]; [apply Z.testbit_0_l|].
      apply Z.bits_above_log2; [lia|].
      assert (Z.log2 u < 16) by (apply Z.log2_lt_pow2; lia). lia.
Qed.

Lemma surrogate_tags u :
  is_uint16 u ->
  Utf16.IsLeadSurrogate u = bool_decide (55296 <= u <= 56319) /\
  Utf16.IsTrailSurrogate u = bool_decide (56320 <= u <= 57343).
Proof.
  intros Hu. pose proof (land_64512 u Hu) as Hland.
  unfold Utf16.IsLeadSurrogate, Utf16.IsTrailSurrogate, Utf16.kNoPreviousCharacter.
  unfold is_uint16 in Hu. change (2 ^ 16) with 65536 in Hu.
  rewrite !decide_False by lia. rewrite Hland.
  pose proof (Z.div_mod u 1024 ltac:(lia)) as Hdm.
  pose proof (Z.mod_pos_bound u 1024 ltac:(lia)) as Hmod.
  split; apply bool_decide_ext; lia.
Qed.

Lemma IsLeadSurrogate_range u :
  is_uint16 u -> Utf16.IsLeadSurrogate u = true -> 55296 <= u <= 56319.
Proof.
  intros Hu H. destruct (surrogate_tags u Hu) as [Hl _].
  rewrite Hl in H. by apply bool_decide_eq_true in H.
Qed.

Lemma IsTrailSurrogate_range u :
  is_uint16 u -> Utf16.IsTrailSurrogate u = true -> 56320 <= u <= 57343.
Proof.
  intros Hu H. destruct (surrogate_tags u Hu) as [_ Ht].
  rewrite Ht in H. by apply bool_decide_eq_true in H.
Qed.

(** A lead and a trail surrogate combine to a code point of the
    supplementary planes, and splitting it gives the two units back. *)
Lemma CombineSurrogatePair_spec lead trail :
  55296 <= lead <= 56319 -> 56320 <= trail <= 57343 ->
  Utf16.CombineSurrogatePair lead trail
    = 65536 + 1024 * (lead - 55296) + (trail - 56320) /\
  65536 <= Utf16.CombineSurrogatePair lead trail <= 1114111 /\
  Utf16.LeadSurrogate (Utf16.CombineSurrogatePair lead trail) = lead /\
  Utf16.TrailSurrogate (Utf16.CombineSurrogatePair lead trail) = trail.
Proof.
  intros Hl Ht.
  assert (Ha : lead mod 1024 = lead - 55296).
  { symmetry. apply (Z.mod_unique_pos lead 1024 54); lia. }
  assert (Hb : trail mod 1024 = trail - 56320).
  { symmetry. apply (Z.mod_unique_pos trail 1024 55); lia. }
  assert (Hc : Utf16.CombineSurrogatePair lead trail
               = 65536 + 1024 * (lead - 55296) + (trail - 56320)).
  { unfold Utf16.CombineSurrogatePair. rewrite !land_1023, Ha, Hb.
    rewrite Z.shiftl_mul_pow2 by lia. change (2 ^ 10) with 1024.
    rewrite to_int_id; [lia|].
    unfold INT_MIN, INT_MAX. change (2 ^ 31) with 2147483648. lia. }
  split; [done|]. split; [lia|].
  set (a := lead - 55296) in *. set (b := trail - 56320) in *.
  rewrite Hc. split.
  - unfold Utf16.LeadSurrogate, to_uint32, to_uint16.
    replace (65536 + 1024 * a + b - 65536) with (1024 * a + b) by lia.
    rewrite (Z.mod_small (1024 * a + b)) by (change (2 ^ 32) with 4294967296; lia).
    rewrite Z.shiftr_div_pow2 by lia. change (2 ^ 10) with 1024.
    replace ((1024 * a + b) / 1024) with a
      by (apply (Z.div_unique_pos (1024 * a + b) 1024 a b); lia).
    rewrite land_1023, (Z.mod_small a) by lia.
    rewrite Z.mod_small by (change (2 ^ 16) with 65536; lia). lia.
  - unfold Utf16.TrailSurrogate, to_uint16. rewrite land_1023.
    replace ((65536 + 1024 * a + b) mod 1024) with b
      by (apply (Z.mod_unique_pos (65536 + 1024 * a + b) 1024 (64 + a) b); lia).
    rewrite Z.mod_small by (change (2 ^ 16) with 65536; lia). lia.
Qed.

(** ** [Scanner]: surrogate pairs in [Advance] *)

Lemma unit_at_cases (input : list Z) p :
  Forall is_uint16 input ->
  Utf16CharacterStream.unit_at input p = Utf16CharacterStream.kEndOfInput \/
  is_uint16 (Utf16CharacterStream.unit_at input p).
Proof.
  intros Hin. unfold Utf16CharacterStream.unit_at.
  destruct (input !! Z.to_nat p) as [c|] eqn:Hc; [right|by left].
  cbn. eapply Forall_lookup_1; eauto.
Qed.

Lemma to_uint32_id z : 0 <= z < 2 ^ 32 -> to_uint32 z = z.
Proof. intros. unfold to_uint32. by apply Z.mod_small. Qed.

(** Appending one code point above Latin-1 to a literal buffer. *)
Lemma AddChar_code_point c lb :
  LiteralBuffer.wf lb -> LiteralBuffer.in_range lb ->
  LiteralBuffer.cost lb + 4 <= 2 ^ 27 ->
  Latin1.kMaxChar < c < 2 ^ 32 ->
  exists lb',
    LiteralBuffer.AddChar (to_uint32 c) lb = Some lb' /\
    LiteralBuffer.is_one_byte lb' = false /\
    LiteralBuffer.two_byte_literal lb'
      = Some (LiteralBuffer.chars lb ++ LiteralBuffer.code_units c).
Proof.
  intros Hwf Hr Hcost Hc. unfold Latin1.kMaxChar in Hc.
  rewrite to_uint32_id by lia.
  destruct (AddChar_spec c lb Hwf Hr Hcost) as (lb' & Ha & Hwf' & _ & _ & Hm & Hch); [lia|].
  rewrite bool_decide_false, andb_false_r in Hm by (unfold Latin1.kMaxChar; lia).
  rewrite Hm in Hch. exists lb'. split; [done|]. split; [done|].
  rewrite two_byte_literal_chars by done. by rewrite Hch.
Qed.

(** Claim C2.  Let the stream of the scanner stand at a lead surrogate
    [lead], and let [next] be the unit after it ([kEndOfInput] at the end).
    If [next] is a trail surrogate, [Advance()] leaves in [c0_] the combined
    code point, a value of the supplementary planes (at most 21 bits), with
    both units consumed, and [AddChar] of it makes a literal buffer wide with
    exactly [lead] then [next] appended.  Otherwise [next] is pushed back:
    [c0_] is [lead] itself, only one unit is consumed, the stream returns
    [next] on the following [Advance] and stays a stream over the same
    input, and [AddChar] appends the single unit [lead].  In both cases the
    error slot is untouched. *)
Theorem Scanner_Advance_surrogates
    {X : Type} `{!Utf16CharacterStream.Virtual X} `{!Utf16CharacterStream.Contract X}
    (input : list Z) (s : Scanner.t X) (lead : Z) (lb : LiteralBuffer.t) :
  let p := Utf16CharacterStream.pos (Scanner.source_ s) in
  let next := Utf16CharacterStream.unit_at input (p + 1) in
  Utf16CharacterStream.Inv input (Scanner.source_ s) ->
  Forall is_uint16 input ->
  p + 2 <= SIZE_MAX ->
  input !! Z.to_nat p = Some lead ->
  Utf16.IsLeadSurrogate lead = true ->
  LiteralBuffer.wf lb -> LiteralBuffer.in_range lb ->
  LiteralBuffer.cost lb + 4 <= 2 ^ 27 ->
  exists s' lb',
    Scanner.Advance false true s = Some s' /\
    Utf16CharacterStream.Inv input (Scanner.source_ s') /\
    Scanner.error s' = Scanner.error s /\
    Scanner.error_location s' = Scanner.error_location s /\
    Scanner.has_error s' = Scanner.has_error s /\
    LiteralBuffer.AddChar (to_uint32 (Scanner.c0_ s')) lb = Some lb' /\
    LiteralBuffer.is_one_byte lb' = false /\
    if Utf16.IsTrailSurrogate next then
      Scanner.c0_ s' = Utf16.CombineSurrogatePair lead next /\
      65536 <= Scanner.c0_ s' < 2 ^ 21 /\
      Utf16CharacterStream.pos (Scanner.source_ s') = p + 2 /\
      LiteralBuffer.two_byte_literal lb'
        = Some (LiteralBuffer.chars lb ++ [lead; next])
    else
      Scanner.c0_ s' = lead /\
      Utf16CharacterStream.pos (Scanner.source_ s') = p + 1 /\
      (exists source',
         Utf16CharacterStream.Advance (Scanner.source_ s') = Some (next, source')) /\
      LiteralBuffer.two_byte_literal lb' = Some (LiteralBuffer.chars lb ++ [lead]).
Proof.
  intros p next Hinv Hin Hpos Hlead Hislead Hwf Hr Hcost.
  unfold Utf16CharacterStream.pos in *.
  assert (Hp0 : 0 <= Utf16CharacterStream.pos_ (Scanner.source_ s)).
  { destruct (Utf16CharacterStream.Inv_window _ _ Hinv) as (_ & _ & ? & _). lia. }
  assert (Hul : is_uint16 lead) by (eapply Forall_lookup_1; eauto).
  pose proof (IsLeadSurrogate_range lead Hul Hislead) as Hlr.
  destruct (Advance_spec input (Scanner.source_ s) Hinv Hin) as (src1 & Ha1 & Hp1 & Hinv1);
    [unfold SIZE_MAX in *; lia|].
  fold p in Ha1, Hp1. rewrite (unit_at_inside _ _ _ Hlead) in Ha1.
  destruct (Advance_spec input src1 Hinv1 Hin) as (src2 & Ha2 & Hp2 & Hinv2);
    [unfold SIZE_MAX in *; lia|].
  rewrite Hp1 in Ha2, Hp2. fold next in Ha2.
  unfold Scanner.Advance. cbn [mbind option_bind]. rewrite Ha1.
  cbn [mbind option_bind]. unfold Scanner.HandleLeadSurrogate.
  cbn [Scanner.c0_ Scanner.set_c0_ Scanner.source_ Scanner.set_source_].
  rewrite Hislead, Ha2. cbn [mbind option_bind].
  destruct (Utf16.IsTrailSurrogate next) eqn:Htrail; cbn [negb].
  - assert (Hun : is_uint16 next).
    { destruct (unit_at_cases input (p + 1) Hin) as [He|Hu]; [|done].
      fold next in He. rewrite He in Htrail. done. }
    pose proof (IsTrailSurrogate_range next Hun Htrail) as Htr.
    destruct (CombineSurrogatePair_spec lead next Hlr Htr) as (Hc & Hcr & Hl & Ht).
    destruct (AddChar_code_point (Utf16.CombineSurrogatePair lead next) lb Hwf Hr Hcost)
      as (lb' & Hadd & Hm & Hlit).
    { unfold Latin1.kMaxChar. change (2 ^ 32) with 4294967296. lia. }
    eexists. exists lb'. split; [done|].
    cbn [Scanner.c0_ Scanner.set_c0_ Scanner.source_ Scanner.set_source_].
    split; [done|]. split; [done|]. split; [done|]. split; [done|].
    split; [done|]. split; [done|]. split; [done|].
    split; [change (2 ^ 21) with 2097152; lia|]. split; [lia|].
    rewrite Hlit. unfold LiteralBuffer.code_units.
    rewrite decide_False by (unfold Utf16.kMaxNonSurrogateCharCode; lia).
    by rewrite Hl, Ht.
  - destruct (Utf16CharacterStream.PushBack_spec input src2 Hinv2) as [Hinv3 Hp3]; [lia|].
    replace (Utf16CharacterStream.pos_ src2 - 1) with (p + 1) in * by lia.
    fold next in Hinv3, Hp3.
    destruct (AddChar_code_point lead lb Hwf Hr Hcost) as (lb' & Hadd & Hm & Hlit).
    { unfold Latin1.kMaxChar. change (2 ^ 32) with 4294967296. lia. }
    destruct (Advance_spec input _ Hinv3 Hin) as (src4 & Ha4 & _ & _);
      [rewrite Hp3; unfold SIZE_MAX in *; lia|].
    rewrite Hp3 in Ha4. fold next in Ha4.
    eexists. exists lb'. split; [done|].
    cbn [Scanner.c0_ Scanner.set_c0_ Scanner.source_ Scanner.set_source_].
    split; [done|]. split; [done|]. split; [done|]. split; [done|].
    split; [done|]. split; [done|]. split; [done|]. split; [done|].
    split; [by exists src4|].
    rewrite Hlit. unfold LiteralBuffer.code_units.
    by rewrite decide_True by (unfold Utf16.kMaxNonSurrogateCharCode; lia).
Qed.

Lemma StringStream_inv_make input :
  Forall is_uint16 input -> Vector_length input <= SIZE_MAX ->
  Utf16CharacterStream.Inv input (Scanner.source_ (Scanner.fresh (StringStream.make input))).
Proof. intros. cbn. by apply StringStream_make_inv. Defined.

Lemma Scanner_Advance_surrogates_witness :
  (exists s' lb',
     Scanner.Advance false true (Scanner.fresh (StringStream.make [55357; 56832; 97]))
       = Some s' /\
     Scanner.c0_ s' = 128512 /\
     Scanner.has_error s' = false /\
     LiteralBuffer.AddChar (to_uint32 (Scanner.c0_ s')) LiteralBuffer.init = Some lb' /\
     LiteralBuffer.two_byte_literal lb' = Some [55357; 56832]) /\
  (exists s' lb' source',
     Scanner.Advance false true (Scanner.fresh (StringStream.make [55296; 97]))
       = Some s' /\
     Scanner.c0_ s' = 55296 /\
     Scanner.has_error s' = false /\
     Utf16CharacterStream.Advance (Scanner.source_ s') = Some (97, source') /\
     LiteralBuffer.AddChar (to_uint32 (Scanner.c0_ s')) LiteralBuffer.init = Some lb' /\
     LiteralBuffer.two_byte_literal lb' = Some [55296]).
Proof.
  split.
  - destruct (Scanner_Advance_surrogates [55357; 56832; 97]
                (Scanner.fresh (StringStream.make [55357; 56832; 97]))
                55357 LiteralBuffer.init)
      as (s' & lb' & Hadv & _ & _ & _ & Herr & Hadd & _ & Hif).
    + apply StringStream_inv_make; [|vm_compute; discriminate].
      repeat constructor; vm_compute; discriminate.
    + repeat constructor; vm_compute; discriminate.
    + vm_compute. discriminate.
    + reflexivity.
    + reflexivity.
    + exact LiteralBuffer_init_wf.
    + exact LiteralBuffer_init_in_range.
    + vm_compute. discriminate.
    + change (Utf16.IsTrailSurrogate _) with true in Hif.
      destruct Hif as (Hc0 & _ & _ & Hlit).
      exists s', lb'. split; [exact Hadv|]. split; [exact Hc0|].
      split; [exact Herr|]. split; [exact Hadd|]. exact Hlit.
  - destruct (Scanner_Advance_surrogates [55296; 97]
                (Scanner.fresh (StringStream.make [55296; 97]))
                55296 LiteralBuffer.init)
      as (s' & lb' & Hadv & _ & _ & _ & Herr & Hadd & _ & Hif).
    + apply StringStream_inv_make; [|vm_compute; discriminate].
      repeat constructor; vm_compute; discriminate.
    + repeat constructor; vm_compute; discriminate.
    + vm_compute. discriminate.
    + reflexivity.
    + reflexivity.
    + exact LiteralBuffer_init_wf.
    + exact LiteralBuffer_init_in_range.
    + vm_compute. discriminate.
    + change (Utf16.IsTrailSurrogate _) with false in Hif.
      destruct Hif as (Hc0 & _ & (source' & Hnext) & Hlit).
      exists s', lb', source'. split; [exact Hadv|]. split; [exact Hc0|].
      split; [exact Herr|]. split; [exact Hnext|]. split; [exact Hadd|]. exact Hlit.
Defined.

(** ** [DuplicateFinder] *)

Lemma AddSymbol_map key one value df :
  DuplicateFinder.map_ (DuplicateFinder.AddSymbol key one value df).2
  = <[DuplicateFinder.BackupKey key one := value]> (DuplicateFinder.map_ df).
Proof. unfold DuplicateFinder.AddSymbol. by destruct (_ !! _). Qed.

(** Claim C4 (on the model of [DuplicateFinder] built from the spec).
    Adding a one-byte symbol whose encoded key has no entry inserts one and
    returns the value passed; adding a symbol whose encoded key has an entry
    returns the value associated before and stores the new value instead;
    entries of other encoded keys are untouched.  The key is looked up by the
    bytes of its length-prefixed encoding, so a second call with a
    byte-identical key finds the entry of the first.  In particular
    [AddOneByteSymbol("x",1)], [AddOneByteSymbol("x",2)],
    [AddOneByteSymbol("x",3)] return 1, 1 and 2. *)
Theorem DuplicateFinder_AddOneByteSymbol_overwrites
    (df : DuplicateFinder.t) (key : list Z) (value : Z) :
  let encoding := DuplicateFinder.BackupKey key true in
  let result := DuplicateFinder.AddOneByteSymbol key value df in
  (DuplicateFinder.map_ df !! encoding = None -> result.1 = value) /\
  (forall old, DuplicateFinder.map_ df !! encoding = Some old -> result.1 = old) /\
  DuplicateFinder.map_ result.2 !! encoding = Some value /\
  (forall other, other <> encoding ->
     DuplicateFinder.map_ result.2 !! other = DuplicateFinder.map_ df !! other) /\
  (forall key' value', key' = key ->
     (DuplicateFinder.AddOneByteSymbol key' value' result.2).1 = value) /\
  (let x := [120] in
   let r1 := DuplicateFinder.AddOneByteSymbol x 1 DuplicateFinder.init in
   let r2 := DuplicateFinder.AddOneByteSymbol x 2 r1.2 in
   let r3 := DuplicateFinder.AddOneByteSymbol x 3 r2.2 in
   r1.1 = 1 /\ r2.1 = 1 /\ r3.1 = 2).
Proof.
  intros encoding result.
  assert (Hmap : DuplicateFinder.map_ result.2
                 = <[encoding := value]> (DuplicateFinder.map_ df))
    by apply AddSymbol_map.
  split; [|split; [|split; [|split; [|split]]]].
  - intros Hnone. unfold result, DuplicateFinder.AddOneByteSymbol, DuplicateFinder.AddSymbol.
    fold encoding. by rewrite Hnone.
  - intros old Hold. unfold result, DuplicateFinder.AddOneByteSymbol, DuplicateFinder.AddSymbol.
    fold encoding. by rewrite Hold.
  - rewrite Hmap. apply lookup_insert_eq.
  - intros other Hne. rewrite Hmap. by apply lookup_insert_ne.
  - intros key' value' ->.
    unfold DuplicateFinder.AddOneByteSymbol at 1. unfold DuplicateFinder.AddSymbol.
    fold encoding. fold result. by rewrite Hmap, lookup_insert_eq.
  - cbv zeta. unfold DuplicateFinder.AddOneByteSymbol.
    repeat (unfold DuplicateFinder.AddSymbol at 1; cbn [fst snd DuplicateFinder.map_];
            rewrite ?AddSymbol_map, ?lookup_insert_eq; cbn [fst snd DuplicateFinder.map_]).
    done.
Qed.

Lemma DuplicateFinder_AddOneByteSymbol_overwrites_witness :
  (DuplicateFinder.AddOneByteSymbol [120] 2
     (DuplicateFinder.AddOneByteSymbol [120] 1 DuplicateFinder.init).2).1 = 1.
Proof.
  exact (proj1 (proj2 (proj2 (proj2 (proj2
    (DuplicateFinder_AddOneByteSymbol_overwrites DuplicateFinder.init [120] 1)))))
    [120] 2 eq_refl).
Defined.

(** ** [Scanner]: bookmarks *)

(** [CopyFrom] makes the buffer show what the other buffer shows: the same
    mode and the same characters; a null pointer gives the empty narrow
    buffer. *)
Lemma CopyFrom_spec (other : option LiteralBuffer.t) (lb : LiteralBuffer.t) (bound : Z) :
  LiteralBuffer.wf lb ->
  Vector_length (LiteralBuffer.backing_store_ lb) <= bound ->
  (forall o, other = Some o ->
     LiteralBuffer.wf o /\ Vector_length (LiteralBuffer.backing_store_ o) <= bound) ->
  exists lb',
    LiteralBuffer.CopyFrom other lb = Some lb' /\
    LiteralBuffer.wf lb' /\
    Vector_length (LiteralBuffer.backing_store_ lb') <= bound /\
    (LiteralBuffer.is_one_byte lb', LiteralBuffer.chars lb')
    = match other with
      | None => (true, [])
      | Some o => (LiteralBuffer.is_one_byte o, LiteralBuffer.chars o)
      end.
Proof.
  intros Hwf Hlen Hother. destruct other as [o|]; cbn [LiteralBuffer.CopyFrom].
  - destruct (Hother o eq_refl) as [[Hpo Hco Hbo Hwo] Hleno].
    destruct Hwf as [Hp Hc Hb Hw].
    destruct (decide (LiteralBuffer.position_ o
                      < Vector_length (LiteralBuffer.backing_store_ lb))) as [Hlt|Hge].
    + unfold MemCopy. rewrite decide_True by lia. cbn [mbind option_bind].
      eexists. split; [done|].
      assert (Hl : Vector_length
                (take (Z.to_nat (LiteralBuffer.position_ o)) (LiteralBuffer.backing_store_ o)
                 ++ drop (Z.to_nat (LiteralBuffer.position_ o))
                      (LiteralBuffer.backing_store_ lb))
              = Vector_length (LiteralBuffer.backing_store_ lb))
        by (apply MemCopy_length; lia).
      split; [|split].
      * constructor; lb_simpl; [lia|by rewrite Hl| |done].
        apply Forall_app. split; [by apply Forall_take|by apply Forall_drop].
      * lb_simpl. lia.
      * unfold LiteralBuffer.is_one_byte. lb_simpl. f_equal.
        apply chars_ext; lb_simpl; [done|done|].
        intros j Hj. apply lookup_MemCopy_lt; [lia|done].
    + eexists. split; [done|]. split; [by constructor|]. split; [done|]. done.
  - destruct Hwf as [Hp Hc Hb Hw].
    exists (LiteralBuffer.Reset lb). split; [done|].
    split; [constructor; cbn; [lia|done|done|done]|]. split; [done|]. done.
Qed.









Section BookmarkFacts.
Context {X : Type} `{!Utf16CharacterStream.Virtual X}
        `{!Utf16CharacterStream.Contract X}
        `{!Utf16CharacterStream.VirtualBookmark X}
        `{!Utf16CharacterStream.BookmarkContract X}.

End BookmarkFacts.

Section BookmarkRuns.
Context {X : Type} `{!Utf16CharacterStream.Virtual X}
        `{!Utf16CharacterStream.Contract X}
        `{!Utf16CharacterStream.VirtualBookmark X}
        `{!Utf16CharacterStream.BookmarkContract X}.


End BookmarkRuns.


Lemma StringStream_SetBookmark input (s : Utf16CharacterStream.t Z) :
  StringStream.inv input s ->
  StringStream.inv input (snd (Utf16CharacterStream.SetBookmark s)) /\
  Utf16CharacterStream.pos_ (snd (Utf16CharacterStream.SetBookmark s))
    = Utf16CharacterStream.pos_ s /\
  (fst (Utf16CharacterStream.SetBookmark s) = true ->
   StringStream.marked (Utf16CharacterStream.pos_ s)
     (snd (Utf16CharacterStream.SetBookmark s))).
Proof.
  intros (Hb & Hu & He & Hp & Hc). cbn. split; [done|]. split; [done|].
  intros _. split; [done|lia].
Qed.

Lemma StringStream_ResetToBookmark input p (s : Utf16CharacterStream.t Z) :
  StringStream.inv input s -> StringStream.marked p s ->
  StringStream.inv input (Utf16CharacterStream.ResetToBookmark s) /\
  Utf16CharacterStream.pos_ (Utf16CharacterStream.ResetToBookmark s) = p.
Proof.
  intros (Hb & Hu & He & Hp & Hc) [Hs Hr]. cbn. unfold StringStream.inv. cbn.
  rewrite Hs, He. done.
Qed.

#[global] Instance StringStream_bookmark_contract
  : Utf16CharacterStream.BookmarkContract Z := {|
  Utf16CharacterStream.Marked := StringStream.marked;
  Utf16CharacterStream.SetBookmark_spec := StringStream_SetBookmark;
  Utf16CharacterStream.ResetToBookmark_spec := StringStream_ResetToBookmark
|}.




(** * Further properties of the code *)

(** ** Sample buffers *)

Lemma LiteralBuffer_wide_sample_wf : LiteralBuffer.wf LiteralBuffer.wide_sample.
Proof.
  constructor; [vm_compute; split; discriminate|reflexivity| |reflexivity].
  apply Forall_forall. intros b Hb. apply list_elem_of_In in Hb.
  vm_compute in Hb. unfold is_byte.
  repeat (destruct Hb as [<-|Hb]; [vm_compute; split; [discriminate|reflexivity]|]).
  destruct Hb.
Defined.

(** ** [Utf16CharacterStream]: seeking inside the buffered window *)

Lemma to_size_t_add_l a b : to_size_t (to_size_t a + b) = to_size_t (a + b).
Proof. unfold to_size_t. by rewrite Zplus_mod_idemp_l. Qed.

Section StreamRuns.
Import Utf16CharacterStream.
Context {X : Type} `{!Virtual X}.

Lemma Advance_in_window (s : t X) :
  0 <= buffer_cursor_ s < buffer_end_ s ->
  buffer_end_ s <= Vector_length (buffer s) ->
  exists c,
    buffer s !! Z.to_nat (buffer_cursor_ s) = Some c /\
    Advance s = Some (to_int c, move (buffer_cursor_ s + 1) (to_size_t (pos_ s + 1)) s).
Proof.
  intros Hc He.
  assert (Hl : is_Some (buffer s !! Z.to_nat (buffer_cursor_ s))).
  { apply lookup_lt_is_Some. unfold Vector_length in He. lia. }
  destruct Hl as [c Hl]. exists c. split; [done|].
  unfold Advance. rewrite decide_True by lia.
  unfold deref_cursor. rewrite decide_True by lia. by rewrite Hl.
Qed.

Lemma Advances_in_window (n : nat) : forall s : t X,
  0 <= buffer_cursor_ s ->
  buffer_cursor_ s + Z.of_nat n <= buffer_end_ s ->
  buffer_end_ s <= Vector_length (buffer s) ->
  0 <= pos_ s <= SIZE_MAX ->
  Advances n s
  = Some (to_int <$> take n (drop (Z.to_nat (buffer_cursor_ s)) (buffer s)),
          move (buffer_cursor_ s + Z.of_nat n) (to_size_t (pos_ s + Z.of_nat n)) s).
Proof.
  induction n as [|n IH]; intros s Hc Hn He Hp.
  - cbn [Advances take fmap list_fmap]. change (Z.of_nat 0) with 0.
    rewrite !Z.add_0_r, to_size_t_id by done. by destruct s.
  - destruct (Advance_in_window s) as (c & Hl & Ha); [lia|done|].
    cbn [Advances]. rewrite Ha. cbn [mbind option_bind].
    rewrite IH; cbn [buffer buffer_cursor_ buffer_end_ pos_ move];
      [|lia|lia|done|].
    2:{ unfold to_size_t, SIZE_MAX.
        pose proof (Z.mod_pos_bound (pos_ s + 1) (2 ^ 64) ltac:(lia)). lia. }
    cbn [mbind option_bind]. f_equal. f_equal.
    + replace (Z.to_nat (buffer_cursor_ s + 1)) with (S (Z.to_nat (buffer_cursor_ s))) by lia.
      rewrite (drop_S _ _ _ Hl). done.
    + unfold move. cbn [buffer buffer_cursor_ buffer_end_ pos_ sub].
      rewrite to_size_t_add_l.
      replace (buffer_cursor_ s + 1 + Z.of_nat n)
        with (buffer_cursor_ s + Z.of_nat (S n)) by lia.
      replace (pos_ s + 1 + Z.of_nat n) with (pos_ s + Z.of_nat (S n)) by lia.
      done.
Qed.
End StreamRuns.

(** Property X1.  [SeekForward(n)] with [n] units in the buffered window
    [buffer_cursor_ .. buffer_end_): it reports [n] units skipped, and it
    leaves the stream in the very state [n] calls of [Advance] leave it in,
    which return the [n] units at the cursor.  This holds for every subclass:
    the virtual methods have no part in it. *)
Theorem Utf16CharacterStream_SeekForward_buffered
    {X : Type} `{!Utf16CharacterStream.Virtual X}
    (s : Utf16CharacterStream.t X) (n : nat) :
  0 <= Utf16CharacterStream.buffer_cursor_ s ->
  Utf16CharacterStream.buffer_cursor_ s + Z.of_nat n
    <= Utf16CharacterStream.buffer_end_ s ->
  Utf16CharacterStream.buffer_end_ s
    <= Vector_length (Utf16CharacterStream.buffer s) ->
  Vector_length (Utf16CharacterStream.buffer s) <= SIZE_MAX ->
  0 <= Utf16CharacterStream.pos s <= SIZE_MAX ->
  let units := take n (drop (Z.to_nat (Utf16CharacterStream.buffer_cursor_ s))
                            (Utf16CharacterStream.buffer s)) in
  let s' := snd (Utf16CharacterStream.SeekForward (Z.of_nat n) s) in
  fst (Utf16CharacterStream.SeekForward (Z.of_nat n) s) = Z.of_nat n /\
  List.length units = n /\
  Utf16CharacterStream.Advances n s = Some (to_int <$> units, s') /\
  Utf16CharacterStream.pos s'
    = to_size_t (Utf16CharacterStream.pos s + Z.of_nat n) /\
  Utf16CharacterStream.buffer_end_ s' - Utf16CharacterStream.buffer_cursor_ s'
    = Utf16CharacterStream.buffer_end_ s - Utf16CharacterStream.buffer_cursor_ s
      - Z.of_nat n.
Proof.
  intros Hc Hn He Hmax Hp units s'. unfold s'.
  unfold Utf16CharacterStream.SeekForward.
  rewrite decide_True by (rewrite to_size_t_id by lia; lia).
  cbn [fst snd]. split; [done|]. split.
  - unfold units. rewrite length_take, length_drop. unfold Vector_length in He. lia.
  - split; [by apply Advances_in_window|]. cbn. split; [done|lia].
Qed.

Lemma Utf16CharacterStream_SeekForward_buffered_witness :
  let s := StringStream.make [104; 105; 33] in
  fst (Utf16CharacterStream.SeekForward 2 s) = 2 /\
  Utf16CharacterStream.Advances 2 s
  = Some ([104; 105], snd (Utf16CharacterStream.SeekForward 2 s)).
Proof.
  intros s.
  destruct (Utf16CharacterStream_SeekForward_buffered s 2) as (Hn & _ & Hadv & _).
  - vm_compute. discriminate.
  - vm_compute. discriminate.
  - vm_compute. discriminate.
  - vm_compute. discriminate.
  - split; vm_compute; discriminate.
  - split; [exact Hn|exact Hadv].
Defined.

(** ** [LiteralBuffer]: growth of the backing store *)

(** Property X2.  [ExpandBuffer()] on a buffer that satisfies the class
    invariant and whose capacity times [kGrowthFactory] fits an [int]: the new
    capacity is [min(4 * c, c + 1 MB)] for [c] the larger of the old capacity
    and [kInitialCapacity], which is strictly more than before; mode, length
    and characters are unchanged, and the invariant is kept. *)
Theorem LiteralBuffer_ExpandBuffer_growth (lb : LiteralBuffer.t) :
  LiteralBuffer.wf lb ->
  Vector_length (LiteralBuffer.backing_store_ lb) <= 2 ^ 29 - 1 ->
  let capacity := Z.max LiteralBuffer.kInitialCapacity
                        (Vector_length (LiteralBuffer.backing_store_ lb)) in
  exists lb',
    LiteralBuffer.ExpandBuffer lb = Some lb' /\
    Vector_length (LiteralBuffer.backing_store_ lb')
      = Z.min (4 * capacity) (capacity + LiteralBuffer.kMaxGrowth) /\
    Vector_length (LiteralBuffer.backing_store_ lb)
      < Vector_length (LiteralBuffer.backing_store_ lb') /\
    LiteralBuffer.is_one_byte lb' = LiteralBuffer.is_one_byte lb /\
    LiteralBuffer.length lb' = LiteralBuffer.length lb /\
    LiteralBuffer.chars lb' = LiteralBuffer.chars lb /\
    LiteralBuffer.wf lb'.
Proof.
  intros [Hpos Hcap Hbytes Hwide] Hlen capacity.
  pose proof (Vector_length_nonneg (LiteralBuffer.backing_store_ lb)) as Hnn.
  destruct (NewCapacity_spec LiteralBuffer.kInitialCapacity lb) as (Hnc & Hgrow & Heven).
  { unfold LiteralBuffer.kInitialCapacity. change (2 ^ 29) with 536870912 in *. lia. }
  fold capacity in Hnc, Hgrow, Heven.
  set (nc := LiteralBuffer.NewCapacity LiteralBuffer.kInitialCapacity lb) in *.
  assert (Hcap16 : 16 <= capacity /\ Vector_length (LiteralBuffer.backing_store_ lb) <= capacity).
  { unfold capacity, LiteralBuffer.kInitialCapacity. lia. }
  assert (Hnew : Vector_length (Vector_New nc) = nc) by (apply Vector_length_New; lia).
  unfold LiteralBuffer.ExpandBuffer. fold nc.
  unfold MemCopy. rewrite decide_True by (rewrite Hnew; lia).
  cbn [mbind option_bind].
  assert (Hl : Vector_length
                 (take (Z.to_nat (LiteralBuffer.position_ lb)) (LiteralBuffer.backing_store_ lb)
                  ++ drop (Z.to_nat (LiteralBuffer.position_ lb)) (Vector_New nc)) = nc).
  { rewrite MemCopy_length; [done|lia|rewrite Hnew; lia]. }
  eexists. split; [done|]. cbn [LiteralBuffer.backing_store_].
  split; [|split; [|split; [done|split; [done|split]]]].
  - rewrite Hl, Hnc. unfold LiteralBuffer.kMaxGrowth. lia.
  - rewrite Hl. lia.
  - apply chars_ext; [done|done|]. cbn [LiteralBuffer.backing_store_ LiteralBuffer.position_].
    intros j Hj. by apply lookup_MemCopy_lt.
  - constructor; cbn [LiteralBuffer.backing_store_ LiteralBuffer.position_
                      LiteralBuffer.is_one_byte_].
    + rewrite Hl. lia.
    + rewrite Hl. apply Heven. unfold capacity, LiteralBuffer.kInitialCapacity.
      destruct (Z.max_spec 16 (Vector_length (LiteralBuffer.backing_store_ lb)))
        as [[_ ->]|[_ ->]]; done.
    + apply Forall_app. split; [by apply Forall_take|apply Forall_drop, Forall_is_byte_New].
    + done.
Qed.

Lemma LiteralBuffer_ExpandBuffer_growth_witness :
  exists lb',
    LiteralBuffer.ExpandBuffer LiteralBuffer.init = Some lb' /\
    Vector_length (LiteralBuffer.backing_store_ lb') = 64.
Proof.
  destruct (LiteralBuffer_ExpandBuffer_growth LiteralBuffer.init)
    as (lb' & He & Hc & _).
  - exact LiteralBuffer_init_wf.
  - vm_compute. discriminate.
  - exists lb'. split; [exact He|exact Hc].
Defined.

(** ** [LiteralBuffer]: the accessors *)

Lemma uint16_at_range (st : list Z) (k : nat) :
  Forall is_byte st -> (2 * k + 1 < List.length st)%nat ->
  is_uint16 (uint16_at st k).
Proof.
  intros Hb Hk. unfold uint16_at.
  pose proof (Forall_lookup_total_1 _ st (2 * k) Hb ltac:(lia)) as H0.
  pose proof (Forall_lookup_total_1 _ st (2 * k + 1) Hb ltac:(lia)) as H1.
  unfold is_byte, is_uint16 in *. change (2 ^ 8) with 256 in *.
  change (2 ^ 16) with 65536. lia.
Qed.

Lemma chars_range lb :
  LiteralBuffer.wf lb ->
  Forall (if LiteralBuffer.is_one_byte_ lb then is_byte else is_uint16)
         (LiteralBuffer.chars lb).
Proof.
  intros [Hpos Hcap Hbytes Hwide]. unfold LiteralBuffer.chars.
  destruct (LiteralBuffer.is_one_byte_ lb).
  - by apply Forall_take.
  - destruct (even_double _ (Hwide eq_refl)) as [m Hm].
    rewrite Hm, shiftr1_double. apply Forall_fmap, Forall_forall.
    intros k Hk. apply elem_of_seq in Hk. cbn.
    apply uint16_at_range; [done|]. unfold Vector_length in Hpos. lia.
Qed.

(** Property X3.  The views of a buffer that satisfies the class invariant.  A
    narrow buffer has a one-byte literal, of bytes, and asking for its
    two-byte literal fails the [DCHECK]; a wide buffer has a two-byte literal,
    of 16-bit units, and asking for its one-byte literal fails the [DCHECK].
    In both modes [length()] is the number of units of that literal. *)
Theorem LiteralBuffer_literal_views (lb : LiteralBuffer.t) :
  LiteralBuffer.wf lb ->
  (if LiteralBuffer.is_one_byte lb
   then exists bytes,
          LiteralBuffer.one_byte_literal lb = Some bytes /\
          LiteralBuffer.two_byte_literal lb = None /\
          Forall is_byte bytes /\
          LiteralBuffer.length lb = Z.of_nat (List.length bytes)
   else exists units,
          LiteralBuffer.two_byte_literal lb = Some units /\
          LiteralBuffer.one_byte_literal lb = None /\
          Forall is_uint16 units /\
          LiteralBuffer.length lb = Z.of_nat (List.length units)).
Proof.
  intros Hwf. pose proof (chars_range lb Hwf) as Hr.
  pose proof (length_chars lb Hwf) as Hl.
  unfold LiteralBuffer.is_one_byte.
  destruct (LiteralBuffer.is_one_byte_ lb) eqn:Hone.
  - exists (LiteralBuffer.chars lb).
    split; [by apply one_byte_literal_chars|].
    split; [|done]. unfold LiteralBuffer.two_byte_literal. by rewrite Hone.
  - exists (LiteralBuffer.chars lb).
    split; [by apply two_byte_literal_chars|].
    split; [|done]. unfold LiteralBuffer.one_byte_literal. by rewrite Hone.
Qed.

Lemma LiteralBuffer_literal_views_witness :
  exists units,
    LiteralBuffer.two_byte_literal LiteralBuffer.wide_sample = Some units /\
    LiteralBuffer.one_byte_literal LiteralBuffer.wide_sample = None /\
    Forall is_uint16 units /\
    LiteralBuffer.length LiteralBuffer.wide_sample = Z.of_nat (List.length units).
Proof.
  exact (LiteralBuffer_literal_views LiteralBuffer.wide_sample
           LiteralBuffer_wide_sample_wf).
Defined.

(** Property X4.  [is_contextual_keyword(keyword)] on a buffer that satisfies
    the class invariant is true exactly when the buffer is narrow and its
    one-byte literal is [keyword], byte for byte. *)
Theorem LiteralBuffer_is_contextual_keyword_iff
    (lb : LiteralBuffer.t) (keyword : list Z) :
  LiteralBuffer.wf lb ->
  LiteralBuffer.is_contextual_keyword keyword lb = true <->
  LiteralBuffer.is_one_byte lb = true /\
  LiteralBuffer.one_byte_literal lb = Some keyword.
Proof.
  intros [Hpos _ _ _].
  unfold LiteralBuffer.is_contextual_keyword, LiteralBuffer.one_byte_literal,
    LiteralBuffer.is_one_byte, Vector_length in *.
  destruct (LiteralBuffer.is_one_byte_ lb); cbn [andb].
  - rewrite andb_true_iff, !bool_decide_eq_true. split.
    + intros [Hlen Heq]. split; [done|]. rewrite <- Heq.
      f_equal. apply take_ge. lia.
    + intros [_ Heq]. injection Heq as <-.
      rewrite length_take. split; [lia|]. by rewrite take_idemp.
  - split; [done|]. by intros [? _].
Qed.

Lemma LiteralBuffer_is_contextual_keyword_iff_witness :
  let lb := LiteralBuffer.Build true 2 [111; 102; 0; 0] in
  LiteralBuffer.is_contextual_keyword [111; 102] lb = true <->
  LiteralBuffer.is_one_byte lb = true /\
  LiteralBuffer.one_byte_literal lb = Some [111; 102].
Proof.
  intros lb. apply (LiteralBuffer_is_contextual_keyword_iff lb [111; 102]).
  constructor; [vm_compute; split; discriminate|reflexivity| |discriminate].
  repeat constructor; vm_compute; discriminate.
Defined.

(** ** [LiteralBuffer]: [ReduceLength] *)

Lemma to_int_int z : - 2147483648 <= z <= 2147483647 -> to_int z = z.
Proof.
  intros. apply to_int_id. unfold INT_MIN, INT_MAX.
  change (2 ^ 31) with 2147483648. lia.
Qed.

Lemma ReduceLength_take (lb : LiteralBuffer.t) (delta : Z) :
  LiteralBuffer.wf lb ->
  Vector_length (LiteralBuffer.backing_store_ lb) <= INT_MAX ->
  0 <= delta <= LiteralBuffer.length lb ->
  LiteralBuffer.wf (LiteralBuffer.ReduceLength delta lb) /\
  LiteralBuffer.is_one_byte_ (LiteralBuffer.ReduceLength delta lb)
    = LiteralBuffer.is_one_byte_ lb /\
  LiteralBuffer.backing_store_ (LiteralBuffer.ReduceLength delta lb)
    = LiteralBuffer.backing_store_ lb /\
  LiteralBuffer.length (LiteralBuffer.ReduceLength delta lb)
    = LiteralBuffer.length lb - delta /\
  LiteralBuffer.chars (LiteralBuffer.ReduceLength delta lb)
    = take (Z.to_nat (LiteralBuffer.length lb - delta)) (LiteralBuffer.chars lb).
Proof.
  intros [Hpos Hcap Hbytes Hwide] Hmax Hdelta.
  unfold INT_MAX in Hmax. change (2 ^ 31) with 2147483648 in Hmax.
  destruct lb as [one p st].
  unfold LiteralBuffer.ReduceLength, LiteralBuffer.length, LiteralBuffer.chars,
    kOneByteSize, kUC16Size in *.
  lb_simpl. destruct one.
  - rewrite (to_int_int (delta * 1)) by lia. rewrite to_int_int by lia.
    replace (p - delta * 1) with (p - delta) by lia.
    split; [|split; [done|split; [done|split; [done|]]]].
    + constructor; lb_simpl; [lia|done|done|done].
    + rewrite take_take. f_equal. lia.
  - destruct (even_double _ (Hwide eq_refl)) as [m ->].
    rewrite shiftr1_double in *.
    rewrite (to_int_int (delta * 2)) by lia. rewrite to_int_int by lia.
    replace (2 * m - delta * 2) with (2 * (m - delta)) by lia.
    rewrite shiftr1_double.
    split; [|split; [done|split; [done|split; [done|]]]].
    + constructor; lb_simpl; [lia|done|done|]. intros _. apply even_2mul.
    + rewrite <- fmap_take, take_seq. do 2 f_equal. lia.
Qed.

(** Property X5.  [ReduceLength(delta)] with [delta] at most [length()] drops
    the last [delta] code units: the length goes down by [delta], the
    characters are the first [length() - delta] of before, and mode, backing
    store and invariant are kept. *)
Theorem LiteralBuffer_ReduceLength_drops (lb : LiteralBuffer.t) (delta : Z) :
  LiteralBuffer.wf lb ->
  Vector_length (LiteralBuffer.backing_store_ lb) <= INT_MAX ->
  0 <= delta <= LiteralBuffer.length lb ->
  let lb' := LiteralBuffer.ReduceLength delta lb in
  LiteralBuffer.wf lb' /\
  LiteralBuffer.is_one_byte lb' = LiteralBuffer.is_one_byte lb /\
  LiteralBuffer.backing_store_ lb' = LiteralBuffer.backing_store_ lb /\
  LiteralBuffer.length lb' = LiteralBuffer.length lb - delta /\
  LiteralBuffer.chars lb'
    = take (Z.to_nat (LiteralBuffer.length lb - delta)) (LiteralBuffer.chars lb).
Proof. intros Hwf Hmax Hdelta. by apply ReduceLength_take. Qed.

Lemma LiteralBuffer_ReduceLength_drops_witness :
  LiteralBuffer.chars (LiteralBuffer.ReduceLength 1 LiteralBuffer.wide_sample) = [].
Proof.
  destruct (LiteralBuffer_ReduceLength_drops LiteralBuffer.wide_sample 1)
    as (_ & _ & _ & _ & Hch).
  - exact LiteralBuffer_wide_sample_wf.
  - vm_compute. discriminate.
  - vm_compute. split; discriminate.
  - exact Hch.
Defined.

(** Property X6.  [ReduceLength] checks nothing: with [delta] above [length()]
    the position, and with it [length()], becomes negative, and every
    [AddChar] after that indexes the backing store below its start. *)
Theorem LiteralBuffer_ReduceLength_unchecked (lb : LiteralBuffer.t) (delta c : Z) :
  LiteralBuffer.wf lb ->
  Vector_length (LiteralBuffer.backing_store_ lb) <= INT_MAX ->
  LiteralBuffer.length lb < delta <= 2 ^ 29 ->
  let lb' := LiteralBuffer.ReduceLength delta lb in
  LiteralBuffer.position_ lb' < 0 /\
  LiteralBuffer.length lb' < 0 /\
  LiteralBuffer.AddChar c lb' = None.
Proof.
  intros [Hpos Hcap Hbytes Hwide] Hmax Hdelta lb'.
  unfold INT_MAX in Hmax. change (2 ^ 31) with 2147483648 in Hmax.
  change (2 ^ 29) with 536870912 in Hdelta.
  assert (Hp : - 1073741824 <= LiteralBuffer.position_ lb' < 0 /\
               LiteralBuffer.is_one_byte_ lb' = LiteralBuffer.is_one_byte_ lb /\
               LiteralBuffer.backing_store_ lb' = LiteralBuffer.backing_store_ lb).
  { unfold lb', LiteralBuffer.ReduceLength, LiteralBuffer.length, kOneByteSize, kUC16Size in *.
    lb_simpl. split; [|done]. destruct (LiteralBuffer.is_one_byte_ lb).
    - rewrite (to_int_int (delta * 1)) by lia. rewrite to_int_int by lia. lia.
    - destruct (even_double _ (Hwide eq_refl)) as [m Hm]. rewrite Hm in *.
      rewrite shiftr1_double in Hdelta.
      rewrite (to_int_int (delta * 2)) by lia. rewrite to_int_int by lia. lia. }
  clearbody lb'. destruct Hp as (Hneg & _ & Hst).
  pose proof (Vector_length_nonneg (LiteralBuffer.backing_store_ lb')) as Hnn.
  assert (Hs8 : forall st x, store8 st (LiteralBuffer.position_ lb') x = None).
  { intros st x. unfold store8. rewrite decide_False; [done|lia]. }
  assert (Hs16 : forall p st x, p < 0 -> store16 st p x = None).
  { intros p st x Hlt. unfold store16, store8. rewrite decide_False; [done|lia]. }
  split; [lia|]. split.
  - unfold LiteralBuffer.length. destruct (LiteralBuffer.is_one_byte_ lb'); [lia|].
    rewrite Z.shiftr_div_pow2 by lia. change (2 ^ 1) with 2.
    apply Z.div_lt_upper_bound; lia.
  - unfold LiteralBuffer.AddChar. rewrite decide_False by lia.
    cbn [mbind option_bind].
    assert (Htwo : forall l, LiteralBuffer.position_ l < 0 ->
                     LiteralBuffer.AddCharTwoByte c l = None).
    { intros l Hl. unfold LiteralBuffer.AddCharTwoByte.
      destruct (decide _); by rewrite Hs16. }
    destruct (LiteralBuffer.is_one_byte_ lb') eqn:Hone; [|apply Htwo; lia].
    destruct (decide _); [by rewrite Hs8|].
    unfold LiteralBuffer.ConvertToTwoByte. rewrite Hone.
    unfold kUC16Size. rewrite to_int_int by lia.
    rewrite bool_decide_false by lia. cbn [negb].
    replace (Z.to_nat (LiteralBuffer.position_ lb')) with O by lia.
    cbn [LiteralBuffer.ConvertLoop mbind option_bind].
    apply Htwo. cbn. lia.
Qed.

Lemma LiteralBuffer_ReduceLength_unchecked_witness :
  LiteralBuffer.length (LiteralBuffer.ReduceLength 2 LiteralBuffer.wide_sample) < 0 /\
  LiteralBuffer.AddChar 97 (LiteralBuffer.ReduceLength 2 LiteralBuffer.wide_sample) = None.
Proof.
  destruct (LiteralBuffer_ReduceLength_unchecked LiteralBuffer.wide_sample 2 97)
    as (_ & Hlen & Hadd).
  - exact LiteralBuffer_wide_sample_wf.
  - vm_compute. discriminate.
  - vm_compute. split; [reflexivity|discriminate].
  - split; [exact Hlen|exact Hadd].
Defined.

(** ** [LiteralBuffer]: [CopyFrom] *)

(** Property X7.  [CopyFrom(other)] between buffers that satisfy the class
    invariant always succeeds and makes the buffer show what [other] shows:
    the same mode, length and characters.  The buffer keeps its own backing
    store when the content of [other] is shorter than its capacity, and takes
    a clone of the store of [other] otherwise, so its capacity never shrinks.
    With [nullptr] the buffer is reset: narrow and empty. *)
Theorem LiteralBuffer_CopyFrom_copies (lb other : LiteralBuffer.t) :
  LiteralBuffer.wf lb ->
  LiteralBuffer.wf other ->
  (exists lb',
     LiteralBuffer.CopyFrom (Some other) lb = Some lb' /\
     LiteralBuffer.wf lb' /\
     LiteralBuffer.is_one_byte lb' = LiteralBuffer.is_one_byte other /\
     LiteralBuffer.length lb' = LiteralBuffer.length other /\
     LiteralBuffer.chars lb' = LiteralBuffer.chars other /\
     Vector_length (LiteralBuffer.backing_store_ lb')
       = (if decide (LiteralBuffer.position_ other
                     < Vector_length (LiteralBuffer.backing_store_ lb))
          then Vector_length (LiteralBuffer.backing_store_ lb)
          else Vector_length (LiteralBuffer.backing_store_ other)) /\
     Vector_length (LiteralBuffer.backing_store_ lb)
       <= Vector_length (LiteralBuffer.backing_store_ lb')) /\
  (exists lb',
     LiteralBuffer.CopyFrom None lb = Some lb' /\
     LiteralBuffer.wf lb' /\
     LiteralBuffer.is_one_byte lb' = true /\
     LiteralBuffer.length lb' = 0 /\
     LiteralBuffer.chars lb' = [] /\
     LiteralBuffer.backing_store_ lb' = LiteralBuffer.backing_store_ lb).
Proof.
  intros Hwf Hwfo. split.
  - set (bound := Z.max (Vector_length (LiteralBuffer.backing_store_ lb))
                        (Vector_length (LiteralBuffer.backing_store_ other))).
    destruct (CopyFrom_spec (Some other) lb bound Hwf) as (lb' & Hc & Hwf' & _ & Hv).
    { unfold bound. lia. }
    { intros o [= <-]. split; [done|]. unfold bound. lia. }
    exists lb'. split; [done|]. split; [done|].
    injection Hv as Hm Hch. split; [done|].
    assert (Hlen : LiteralBuffer.length lb' = LiteralBuffer.length other).
    { by rewrite !length_chars, Hch by done. }
    split; [done|]. split; [done|].
    clear Hm Hch Hlen Hwf'.
    pose proof (LiteralBuffer.wf_position _ Hwfo) as Hp.
    cbn [LiteralBuffer.CopyFrom] in Hc.
    destruct (decide (LiteralBuffer.position_ other
                      < Vector_length (LiteralBuffer.backing_store_ lb))) as [Hlt|Hge].
    + unfold MemCopy in Hc. rewrite decide_True in Hc by lia.
      cbn [mbind option_bind] in Hc. injection Hc as <-.
      cbn [LiteralBuffer.backing_store_]. rewrite MemCopy_length by lia. done.
    + injection Hc as <-. cbn [LiteralBuffer.backing_store_]. split; [done|]. lia.
  - destruct (CopyFrom_spec None lb _ Hwf (Z.le_refl _)) as (lb' & Hc & Hwf' & _ & Hv);
      [done|].
    exists lb'. split; [done|]. split; [done|]. injection Hv as Hm Hch.
    split; [done|]. split; [by rewrite length_chars, Hch|]. split; [done|].
    cbn [LiteralBuffer.CopyFrom] in Hc. by injection Hc as <-.
Qed.

Lemma LiteralBuffer_CopyFrom_copies_witness :
  exists lb',
    LiteralBuffer.CopyFrom (Some LiteralBuffer.wide_sample) LiteralBuffer.init = Some lb' /\
    LiteralBuffer.is_one_byte lb' = false /\
    LiteralBuffer.chars lb' = [256] /\
    Vector_length (LiteralBuffer.backing_store_ lb') = 64.
Proof.
  destruct (LiteralBuffer_CopyFrom_copies LiteralBuffer.init LiteralBuffer.wide_sample
              LiteralBuffer_init_wf LiteralBuffer_wide_sample_wf)
    as [(lb' & Hc & _ & Hm & _ & Hch & Hcap & _) _].
  exists lb'. split; [exact Hc|]. split; [exact Hm|]. split; [exact Hch|exact Hcap].
Defined.

(** ** [LiteralBuffer]: runs of [AddChar] *)

Lemma appended_wide cs :
  LiteralBuffer.appended false cs = cs ≫= LiteralBuffer.code_units.
Proof.
  induction cs as [|c cs IH]; [done|].
  cbn [LiteralBuffer.appended andb mbind list_bind]. by rewrite IH.
Qed.

(** Property X8.  Any run of [AddChar] calls on a buffer that satisfies the
    class invariant, within the size for which the [int] arithmetic is exact,
    succeeds: no store leaves the backing store.  The buffer is narrow
    afterwards exactly when it was narrow and every code unit is at most
    [Latin1::kMaxChar]; a buffer that stays narrow has the code units appended
    as they are, a wide buffer has each one appended as one 16-bit unit or,
    above [kMaxNonSurrogateCharCode], as lead then trail surrogate; and
    [length()] grows by the number of units appended. *)
Theorem LiteralBuffer_AddChars_content (lb : LiteralBuffer.t) (cs : list Z) :
  LiteralBuffer.wf lb ->
  LiteralBuffer.in_range lb ->
  LiteralBuffer.cost lb + 4 * Z.of_nat (List.length cs) <= 2 ^ 27 ->
  Forall (fun c => 0 <= c) cs ->
  exists lb',
    LiteralBuffer.AddChars cs lb = Some lb' /\
    LiteralBuffer.wf lb' /\
    LiteralBuffer.is_one_byte lb'
      = LiteralBuffer.is_one_byte lb
        && forallb (fun c => bool_decide (c <= Latin1.kMaxChar)) cs /\
    LiteralBuffer.chars lb'
      = LiteralBuffer.chars lb
        ++ LiteralBuffer.appended (LiteralBuffer.is_one_byte lb) cs /\
    (LiteralBuffer.is_one_byte lb' = true ->
     LiteralBuffer.one_byte_literal lb' = Some (LiteralBuffer.chars lb ++ cs)) /\
    (LiteralBuffer.is_one_byte lb = false ->
     LiteralBuffer.two_byte_literal lb'
       = Some (LiteralBuffer.chars lb ++ (cs ≫= LiteralBuffer.code_units))) /\
    LiteralBuffer.length lb'
      = LiteralBuffer.length lb
        + Z.of_nat (List.length
                      (LiteralBuffer.appended (LiteralBuffer.is_one_byte lb) cs)).
Proof.
  intros Hwf Hr Hcost Hcs.
  destruct (AddChars_spec cs lb Hwf Hr Hcost Hcs) as (lb' & Ha & Hwf' & _ & _ & Hm & Hch).
  exists lb'. split; [done|]. split; [done|]. split; [done|]. split; [done|].
  unfold LiteralBuffer.is_one_byte. split; [|split].
  - intros Hone. rewrite one_byte_literal_chars, Hch by done. do 2 f_equal.
    rewrite Hone in Hm. symmetry in Hm. apply andb_true_iff in Hm as [-> Hall].
    apply appended_latin1. apply Forall_forall. intros c Hc.
    rewrite forallb_forall in Hall. apply list_elem_of_In, Hall in Hc.
    by apply bool_decide_eq_true in Hc.
  - intros Hw. rewrite Hw in Hm, Hch. cbn [andb] in Hm.
    by rewrite two_byte_literal_chars, Hch, appended_wide.
  - rewrite !length_chars, Hch, length_app by done. lia.
Qed.

Lemma LiteralBuffer_AddChars_content_witness :
  exists lb',
    LiteralBuffer.AddChars [97; 128512; 98] LiteralBuffer.wide_sample = Some lb' /\
    LiteralBuffer.two_byte_literal lb' = Some [256; 97; 55357; 56832; 98].
Proof.
  destruct (LiteralBuffer_AddChars_content LiteralBuffer.wide_sample [97; 128512; 98])
    as (lb' & Ha & _ & _ & _ & _ & Hw & _).
  - exact LiteralBuffer_wide_sample_wf.
  - split; vm_compute; discriminate.
  - vm_compute. discriminate.
  - repeat constructor; vm_compute; discriminate.
  - exists lb'. split; [exact Ha|]. exact (Hw eq_refl).
Defined.

(** Property X9.  [ReduceLength] undoes [AddChar]: after any run of [AddChar]
    calls, reducing the length by the number of units the run appended gives
    back the characters the buffer held before the run. *)
Theorem LiteralBuffer_AddChars_ReduceLength (lb : LiteralBuffer.t) (cs : list Z) :
  LiteralBuffer.wf lb ->
  LiteralBuffer.in_range lb ->
  LiteralBuffer.cost lb + 4 * Z.of_nat (List.length cs) <= 2 ^ 27 ->
  Forall (fun c => 0 <= c) cs ->
  exists lb',
    LiteralBuffer.AddChars cs lb = Some lb' /\
    let delta := LiteralBuffer.length lb' - LiteralBuffer.length lb in
    delta = Z.of_nat (List.length
                        (LiteralBuffer.appended (LiteralBuffer.is_one_byte lb) cs)) /\
    LiteralBuffer.chars (LiteralBuffer.ReduceLength delta lb') = LiteralBuffer.chars lb /\
    LiteralBuffer.length (LiteralBuffer.ReduceLength delta lb') = LiteralBuffer.length lb.
Proof.
  intros Hwf Hr Hcost Hcs.
  destruct (AddChars_spec cs lb Hwf Hr Hcost Hcs) as (lb' & Ha & Hwf' & Hr' & _ & _ & Hch).
  exists lb'. split; [done|]. intros delta.
  assert (Hd : delta = Z.of_nat (List.length
                         (LiteralBuffer.appended (LiteralBuffer.is_one_byte lb) cs))).
  { unfold delta. rewrite !length_chars, Hch, length_app by done.
    unfold LiteralBuffer.is_one_byte. lia. }
  split; [done|].
  destruct (ReduceLength_take lb' delta Hwf') as (_ & _ & _ & Hl & Ht).
  { destruct Hr' as [_ Hlen]. unfold INT_MAX, MB in *.
    change (2 ^ 28) with 268435456 in Hlen. change (2 ^ 31) with 2147483648. lia. }
  { rewrite Hd. unfold delta in Hd.
    pose proof (length_chars lb Hwf). lia. }
  split.
  - rewrite Ht. replace (LiteralBuffer.length lb' - delta) with (LiteralBuffer.length lb)
      by (unfold delta; lia).
    rewrite Hch, length_chars by done. rewrite Nat2Z.id. by rewrite take_app_length.
  - rewrite Hl. unfold delta. lia.
Qed.

Lemma LiteralBuffer_AddChars_ReduceLength_witness :
  exists lb',
    LiteralBuffer.AddChars [97; 960] LiteralBuffer.init = Some lb' /\
    LiteralBuffer.chars
      (LiteralBuffer.ReduceLength
         (LiteralBuffer.length lb' - LiteralBuffer.length LiteralBuffer.init) lb')
    = [].
Proof.
  destruct (LiteralBuffer_AddChars_ReduceLength LiteralBuffer.init [97; 960])
    as (lb' & Ha & _ & Hch & _).
  - exact LiteralBuffer_init_wf.
  - exact LiteralBuffer_init_in_range.
  - vm_compute. discriminate.
  - repeat constructor; vm_compute; discriminate.
  - exists lb'. split; [exact Ha|exact Hch].
Defined.

(** ** [LiteralBuffer]: appending in place *)

(** Property X21.  While there is room the backing store is reused.  A run of
    [AddChar] calls with Latin-1 code units on a narrow buffer that has that
    many free bytes writes them in place: the buffer stays narrow, the store
    is the old one with the code units at the positions from [position_] on,
    and no byte before or after them changes; in particular the capacity is
    the same, nothing is reallocated.  This is what makes a buffer cheap to
    fill again after [Reset()]. *)
Theorem LiteralBuffer_AddChars_in_place (cs : list Z) : forall lb : LiteralBuffer.t,
  LiteralBuffer.wf lb ->
  LiteralBuffer.is_one_byte lb = true ->
  Forall (fun c => 0 <= c <= Latin1.kMaxChar) cs ->
  LiteralBuffer.position_ lb + Z.of_nat (List.length cs)
    <= Vector_length (LiteralBuffer.backing_store_ lb) ->
  Vector_length (LiteralBuffer.backing_store_ lb) <= INT_MAX ->
  LiteralBuffer.AddChars cs lb
  = Some {| LiteralBuffer.is_one_byte_ := true;
            LiteralBuffer.position_ :=
              LiteralBuffer.position_ lb + Z.of_nat (List.length cs);
            LiteralBuffer.backing_store_ :=
              take (Z.to_nat (LiteralBuffer.position_ lb)) (LiteralBuffer.backing_store_ lb)
              ++ cs
              ++ drop (Z.to_nat (LiteralBuffer.position_ lb) + List.length cs)
                      (LiteralBuffer.backing_store_ lb) |}.
Proof.
  unfold LiteralBuffer.is_one_byte.
  induction cs as [|c cs IH]; intros [one p st] [Hpos Hcap Hbytes Hwide] Hone Hcs Hroom Hmax;
    lb_simpl; subst one.
  - cbn [LiteralBuffer.AddChars List.length app]. rewrite Z.add_0_r, Nat.add_0_r.
    by rewrite take_drop.
  - apply Forall_cons in Hcs as [Hc Hcs]. cbn [List.length] in Hroom.
    unfold INT_MAX in Hmax. change (2 ^ 31) with 2147483648 in Hmax.
    unfold Latin1.kMaxChar in Hc.
    cbn [LiteralBuffer.AddChars]. unfold LiteralBuffer.AddChar. lb_simpl.
    rewrite decide_False by lia. lb_simpl.
    rewrite decide_True by (unfold Latin1.kMaxChar; lia).
    rewrite store8_Some by lia. lb_simpl.
    unfold kOneByteSize. rewrite to_int_int by lia.
    assert (Hb : to_uint8 c = c).
    { unfold to_uint8. apply Z.mod_small. change (2 ^ 8) with 256. lia. }
    rewrite Hb.
    rewrite IH; lb_simpl.
    + f_equal. f_equal; [cbn [List.length]; lia|].
      replace (Z.to_nat (p + 1)) with (S (Z.to_nat p)) by lia.
      erewrite take_S_r
        by (apply list_lookup_insert_eq; unfold Vector_length in *; lia).
      rewrite take_insert_ge by lia. rewrite <- app_assoc. cbn [app List.length].
      rewrite drop_insert_lt by lia.
      by replace (S (Z.to_nat p) + List.length cs)%nat
        with (Z.to_nat p + S (List.length cs))%nat by lia.
    + constructor; lb_simpl.
      * rewrite Vector_length_insert. lia.
      * by rewrite Vector_length_insert.
      * apply Forall_insert; [done|]. unfold is_byte. change (2 ^ 8) with 256. lia.
      * done.
    + done.
    + done.
    + rewrite Vector_length_insert. lia.
    + rewrite Vector_length_insert. unfold INT_MAX.
      change (2 ^ 31) with 2147483648. lia.
Qed.

Lemma LiteralBuffer_AddChars_in_place_witness :
  LiteralBuffer.AddChars [104; 105] (LiteralBuffer.Build true 1 [97; 98; 99; 100])
  = Some (LiteralBuffer.Build true 3 [97; 104; 105; 100]).
Proof.
  apply (LiteralBuffer_AddChars_in_place [104; 105]
           (LiteralBuffer.Build true 1 [97; 98; 99; 100])).
  - constructor; [vm_compute; split; discriminate|reflexivity| |discriminate].
    repeat constructor; vm_compute; discriminate.
  - reflexivity.
  - repeat constructor; vm_compute; discriminate.
  - vm_compute. discriminate.
  - vm_compute. discriminate.
Defined.

(** ** [Scanner]: reading the input *)

Lemma code_point_at_width input p :
  (Scanner.code_point_at input p).2 = 1 \/ (Scanner.code_point_at input p).2 = 2.
Proof. unfold Scanner.code_point_at. destruct (_ && _); auto. Qed.

Lemma code_point_at_pair input p :
  Forall is_uint16 input ->
  (Scanner.code_point_at input p).2 = 2 ->
  exists lead trail,
    Utf16CharacterStream.unit_at input p = lead /\
    Utf16CharacterStream.unit_at input (p + 1) = trail /\
    55296 <= lead <= 56319 /\ 56320 <= trail <= 57343 /\
    (Scanner.code_point_at input p).1 = Utf16.CombineSurrogatePair lead trail.
Proof.
  intros Hin. unfold Scanner.code_point_at.
  destruct (Utf16.IsLeadSurrogate _) eqn:Hl; cbn [andb]; [|done].
  destruct (Utf16.IsTrailSurrogate _) eqn:Ht; [|done]. intros _.
  eexists _, _. split; [done|]. split; [done|].
  destruct (unit_at_cases input p Hin) as [He|Hu]; [by rewrite He in Hl|].
  destruct (unit_at_cases input (p + 1) Hin) as [He'|Hu']; [by rewrite He' in Ht|].
  split; [by apply IsLeadSurrogate_range|]. split; [by apply IsTrailSurrogate_range|done].
Qed.

Lemma code_point_at_single input p :
  (Scanner.code_point_at input p).2 = 1 ->
  (Scanner.code_point_at input p).1 = Utf16CharacterStream.unit_at input p.
Proof. unfold Scanner.code_point_at. by destruct (_ && _). Qed.

Section ScannerAdvanceFacts.
Context {X : Type} `{!Utf16CharacterStream.Virtual X}
        `{!Utf16CharacterStream.Contract X}.
Implicit Types s : Scanner.t X.

(** One [Advance()]: [c0_] receives the code point at the position of the
    stream, the stream moves behind it, and nothing else changes. *)
Lemma Scanner_Advance_step input s :
  Utf16CharacterStream.Inv input (Scanner.source_ s) ->
  Forall is_uint16 input ->
  Utf16CharacterStream.pos_ (Scanner.source_ s) + 2 <= SIZE_MAX ->
  let p := Utf16CharacterStream.pos_ (Scanner.source_ s) in
  exists src,
    Scanner.Advance false true s
      = Some (Scanner.set_c0_ (Scanner.code_point_at input p).1
                (Scanner.set_source_ src s)) /\
    Utf16CharacterStream.Inv input src /\
    Utf16CharacterStream.pos_ src = p + (Scanner.code_point_at input p).2.
Proof.
  intros Hinv Hin Hpos p.
  assert (Hp0 : 0 <= p).
  { destruct (Utf16CharacterStream.Inv_window _ _ Hinv) as (_ & _ & ? & _). unfold p. lia. }
  destruct (Advance_spec input (Scanner.source_ s) Hinv Hin) as (src1 & Ha1 & Hp1 & Hinv1);
    [unfold SIZE_MAX in *; lia|].
  fold p in Ha1, Hp1.
  unfold Scanner.Advance. cbn [mbind option_bind]. rewrite Ha1.
  cbn [mbind option_bind]. unfold Scanner.HandleLeadSurrogate, Scanner.code_point_at.
  cbn [Scanner.c0_ Scanner.set_c0_ Scanner.source_ Scanner.set_source_].
  destruct (Utf16.IsLeadSurrogate (Utf16CharacterStream.unit_at input p)) eqn:Hlead;
    cbn [andb].
  - destruct (Advance_spec input src1 Hinv1 Hin) as (src2 & Ha2 & Hp2 & Hinv2);
      [unfold SIZE_MAX in *; lia|].
    rewrite Hp1 in Ha2, Hp2. rewrite Ha2. cbn [mbind option_bind].
    destruct (Utf16.IsTrailSurrogate (Utf16CharacterStream.unit_at input (p + 1)))
      eqn:Htrail; cbn [negb fst snd].
    + exists src2. split; [done|]. split; [done|lia].
    + destruct (Utf16CharacterStream.PushBack_spec input src2 Hinv2) as [Hinv3 Hp3]; [lia|].
      replace (Utf16CharacterStream.pos_ src2 - 1) with (p + 1) in * by lia.
      eexists. split; [done|]. split; [exact Hinv3|exact Hp3].
  - exists src1. cbn [fst snd]. split; [done|]. split; [done|lia].
Qed.

(** [Advance<capture_raw, false>()] takes the next unit as it is. *)
Lemma Scanner_Advance_raw_step input s :
  Utf16CharacterStream.Inv input (Scanner.source_ s) ->
  Forall is_uint16 input ->
  Utf16CharacterStream.pos_ (Scanner.source_ s) + 1 <= SIZE_MAX ->
  let p := Utf16CharacterStream.pos_ (Scanner.source_ s) in
  exists src,
    Scanner.Advance false false s
      = Some (Scanner.set_c0_ (Utf16CharacterStream.unit_at input p)
                (Scanner.set_source_ src s)) /\
    Utf16CharacterStream.Inv input src /\
    Utf16CharacterStream.pos_ src = p + 1.
Proof.
  intros Hinv Hin Hpos p.
  destruct (Advance_spec input (Scanner.source_ s) Hinv Hin) as (src1 & Ha1 & Hp1 & Hinv1);
    [unfold SIZE_MAX in *; lia|].
  fold p in Ha1, Hp1.
  unfold Scanner.Advance. cbn [mbind option_bind]. rewrite Ha1.
  cbn [mbind option_bind]. by exists src1.
Qed.
End ScannerAdvanceFacts.

Lemma code_point_at_past_end input p :
  0 <= p -> Vector_length input <= p ->
  Scanner.code_point_at input p = (Utf16CharacterStream.kEndOfInput, 1).
Proof.
  intros Hp Hlen. unfold Scanner.code_point_at.
  by rewrite (unit_at_past_end input p Hp Hlen).
Qed.

Lemma code_point_at_large input p :
  Forall is_uint16 input ->
  (Scanner.code_point_at input p).1 > Utf16.kMaxNonSurrogateCharCode <->
  (Scanner.code_point_at input p).2 = 2.
Proof.
  intros Hin. unfold Utf16.kMaxNonSurrogateCharCode.
  destruct (code_point_at_width input p) as [Hw|Hw].
  - rewrite (code_point_at_single _ _ Hw), Hw.
    destruct (unit_at_cases input p Hin) as [->|Hu].
    + unfold Utf16CharacterStream.kEndOfInput. lia.
    + unfold is_uint16 in Hu. change (2 ^ 16) with 65536 in Hu. lia.
  - destruct (code_point_at_pair input p Hin Hw) as (l & t & _ & _ & Hl & Ht & ->).
    destruct (CombineSurrogatePair_spec l t Hl Ht) as (_ & Hr & _). lia.
Qed.

Lemma decode_cons2 c c1 units :
  Scanner.decode (c :: c1 :: units)
  = if Utf16.IsLeadSurrogate c && Utf16.IsTrailSurrogate c1
    then Utf16.CombineSurrogatePair c c1 :: Scanner.decode units
    else c :: Scanner.decode (c1 :: units).
Proof. done. Qed.

(** The first code point of what is left of the input at a position. *)
Lemma decode_drop input p :
  0 <= p < Vector_length input ->
  Scanner.decode (drop (Z.to_nat p) input)
  = (Scanner.code_point_at input p).1
    :: Scanner.decode
         (drop (Z.to_nat (p + (Scanner.code_point_at input p).2)) input).
Proof.
  intros Hp. unfold Vector_length in Hp.
  destruct (lookup_lt_is_Some_2 input (Z.to_nat p)) as [c Hc]; [lia|].
  rewrite (drop_S _ _ _ Hc). unfold Scanner.code_point_at.
  rewrite (unit_at_inside _ _ _ Hc).
  replace (Z.to_nat (p + 1)) with (S (Z.to_nat p)) by lia.
  destruct (input !! S (Z.to_nat p)) as [c1|] eqn:Hc1.
  - rewrite (drop_S _ _ _ Hc1), decode_cons2.
    rewrite (unit_at_inside input (p + 1) c1)
      by (by replace (Z.to_nat (p + 1)) with (S (Z.to_nat p)) by lia).
    destruct (_ && _); cbn [fst snd].
    + by replace (Z.to_nat (p + 2)) with (S (S (Z.to_nat p))) by lia.
    + replace (Z.to_nat (p + 1)) with (S (Z.to_nat p)) by lia.
      by rewrite (drop_S _ _ _ Hc1).
  - apply lookup_ge_None in Hc1.
    rewrite (unit_at_past_end input (p + 1)) by (unfold Vector_length; lia).
    rewrite andb_false_r. cbn [fst snd].
    replace (Z.to_nat (p + 1)) with (S (Z.to_nat p)) by lia.
    by rewrite drop_ge by lia.
Qed.

Section ScannerAdvanceRuns.
Context {X : Type} `{!Utf16CharacterStream.Virtual X}
        `{!Utf16CharacterStream.Contract X}.
Implicit Types s : Scanner.t X.

Lemma Advances_decodes input (n : nat) : forall s,
  Utf16CharacterStream.Inv input (Scanner.source_ s) ->
  Forall is_uint16 input ->
  Utf16CharacterStream.pos_ (Scanner.source_ s) + 2 * Z.of_nat n <= SIZE_MAX ->
  exists s',
    Scanner.Advances false true n s
      = Some (resize n Utf16CharacterStream.kEndOfInput
                (Scanner.decode
                   (drop (Z.to_nat (Utf16CharacterStream.pos_ (Scanner.source_ s)))
                         input)), s') /\
    Utf16CharacterStream.Inv input (Scanner.source_ s') /\
    Scanner.buffers s' = Scanner.buffers s /\
    Scanner.current_ s' = Scanner.current_ s /\
    Scanner.next_ s' = Scanner.next_ s /\
    Scanner.error s' = Scanner.error s /\
    Scanner.error_location s' = Scanner.error_location s.
Proof.
  induction n as [|n IH]; intros s Hinv Hin Hpos.
  - exists s. cbn [Scanner.Advances]. by rewrite resize_0.
  - set (p := Utf16CharacterStream.pos_ (Scanner.source_ s)) in *.
    assert (Hp0 : 0 <= p).
    { destruct (Utf16CharacterStream.Inv_window _ _ Hinv) as (_ & _ & ? & _). unfold p. lia. }
    destruct (Scanner_Advance_step input s Hinv Hin) as (src & Ha & Hinv1 & Hp1); [lia|].
    fold p in Ha, Hp1.
    set (s1 := Scanner.set_c0_ _ _) in Ha.
    pose proof (code_point_at_width input p) as Hw.
    destruct (IH s1) as (s' & Hrun & Hinv' & Hb & Hc & Hn & He & Hel);
      [done|done|unfold s1; cbn [Scanner.source_ Scanner.set_c0_ Scanner.set_source_]; lia|].
    exists s'. cbn [Scanner.Advances]. rewrite Ha. cbn [mbind option_bind].
    rewrite Hrun. cbn [mbind option_bind]. split; [|done].
    do 2 f_equal. unfold s1.
    cbn [Scanner.source_ Scanner.set_c0_ Scanner.set_source_ Scanner.c0_]. rewrite Hp1.
    destruct (decide (p < Vector_length input)) as [Hlt|Hge].
    + by rewrite (decode_drop input p) by lia.
    + rewrite (code_point_at_past_end input p) by lia. cbn [fst snd].
      rewrite !drop_ge by (unfold Vector_length in *; lia).
      cbn [Scanner.decode]. by rewrite !resize_nil.
Qed.

Lemma Advances_raw_units input (n : nat) : forall s,
  Utf16CharacterStream.Inv input (Scanner.source_ s) ->
  Forall is_uint16 input ->
  Utf16CharacterStream.pos_ (Scanner.source_ s) + Z.of_nat n <= SIZE_MAX ->
  exists s',
    Scanner.Advances false false n s
      = Some (resize n Utf16CharacterStream.kEndOfInput
                (drop (Z.to_nat (Utf16CharacterStream.pos_ (Scanner.source_ s))) input),
              s') /\
    Utf16CharacterStream.Inv input (Scanner.source_ s').
Proof.
  induction n as [|n IH]; intros s Hinv Hin Hpos.
  - exists s. cbn [Scanner.Advances]. by rewrite resize_0.
  - set (p := Utf16CharacterStream.pos_ (Scanner.source_ s)) in *.
    assert (Hp0 : 0 <= p).
    { destruct (Utf16CharacterStream.Inv_window _ _ Hinv) as (_ & _ & ? & _). unfold p. lia. }
    destruct (Scanner_Advance_raw_step input s Hinv Hin) as (src & Ha & Hinv1 & Hp1); [lia|].
    fold p in Ha, Hp1.
    set (s1 := Scanner.set_c0_ _ _) in Ha.
    destruct (IH s1) as (s' & Hrun & Hinv');
      [done|done|unfold s1; cbn [Scanner.source_ Scanner.set_c0_ Scanner.set_source_]; lia|].
    exists s'. cbn [Scanner.Advances]. rewrite Ha. cbn [mbind option_bind].
    rewrite Hrun. cbn [mbind option_bind]. split; [|done].
    do 2 f_equal. unfold s1.
    cbn [Scanner.source_ Scanner.set_c0_ Scanner.set_source_ Scanner.c0_]. rewrite Hp1.
    replace (Z.to_nat (p + 1)) with (S (Z.to_nat p)) by lia.
    destruct (input !! Z.to_nat p) as [c|] eqn:Hc.
    + by rewrite (drop_S _ _ _ Hc), (unit_at_inside _ _ _ Hc).
    + apply lookup_ge_None in Hc.
      rewrite unit_at_past_end by (unfold Vector_length; lia).
      rewrite !drop_ge by lia. by rewrite !resize_nil.
Qed.
End ScannerAdvanceRuns.

(** Property X10.  The scanner reads the UTF-16 decoding of its input.  [n]
    calls of [Advance()] from a position leave in [c0_], one after the other,
    the first [n] code points of the rest of the input, a lead surrogate
    followed by a trail surrogate counting as one and any other unit as
    itself, and the end-of-input sentinel once the input is exhausted; the
    literal buffers, the token descriptors and the error slot are untouched.
    With [check_surrogate] off the calls leave the units as they are. *)
Theorem Scanner_Advance_decodes
    {X : Type} `{!Utf16CharacterStream.Virtual X} `{!Utf16CharacterStream.Contract X}
    (input : list Z) (s : Scanner.t X) (n : nat) :
  let rest := drop (Z.to_nat (Utf16CharacterStream.pos (Scanner.source_ s))) input in
  Utf16CharacterStream.Inv input (Scanner.source_ s) ->
  Forall is_uint16 input ->
  Utf16CharacterStream.pos (Scanner.source_ s) + 2 * Z.of_nat n <= SIZE_MAX ->
  (exists s',
     Scanner.Advances false true n s
       = Some (resize n Utf16CharacterStream.kEndOfInput (Scanner.decode rest), s') /\
     Utf16CharacterStream.Inv input (Scanner.source_ s') /\
     Scanner.buffers s' = Scanner.buffers s /\
     Scanner.current_ s' = Scanner.current_ s /\
     Scanner.next_ s' = Scanner.next_ s /\
     Scanner.error s' = Scanner.error s /\
     Scanner.error_location s' = Scanner.error_location s) /\
  (exists s',
     Scanner.Advances false false n s
       = Some (resize n Utf16CharacterStream.kEndOfInput rest, s') /\
     Utf16CharacterStream.Inv input (Scanner.source_ s')).
Proof.
  intros rest Hinv Hin Hpos. unfold Utf16CharacterStream.pos in *. split.
  - by apply Advances_decodes.
  - apply Advances_raw_units; [done|done|lia].
Qed.

Lemma Scanner_Advance_decodes_witness :
  let s := Scanner.fresh (StringStream.make [97; 55357; 56832; 56832]) in
  (exists s',
     Scanner.Advances false true 5 s = Some ([97; 128512; 56832; -1; -1], s')) /\
  (exists s',
     Scanner.Advances false false 5 s = Some ([97; 55357; 56832; 56832; -1], s')).
Proof.
  intros s.
  destruct (Scanner_Advance_decodes [97; 55357; 56832; 56832] s 5)
    as [(s1 & H1 & _) (s2 & H2 & _)].
  - apply StringStream_inv_make; [|vm_compute; discriminate].
    repeat constructor; vm_compute; discriminate.
  - repeat constructor; vm_compute; discriminate.
  - vm_compute. discriminate.
  - split; [exists s1; exact H1|exists s2; exact H2].
Defined.

(** Property X11.  [Init()] on a scanner whose stream stands at a position of
    its input: [c0_] receives the code point at that position, which is the
    end-of-input sentinel, a negative value, when the input is exhausted (an
    empty input), and [source_pos()] is the position of its last unit.  The
    error slot is cleared whatever it held, [current_] has no literal, so that
    the literal accessors fail their [DCHECK], and the lookahead descriptor
    [next_] and the literal buffers are untouched. *)
Theorem Scanner_Init_spec
    {X : Type} `{!Utf16CharacterStream.Virtual X} `{!Utf16CharacterStream.Contract X}
    (input : list Z) (s : Scanner.t X) :
  let p := Utf16CharacterStream.pos (Scanner.source_ s) in
  Utf16CharacterStream.Inv input (Scanner.source_ s) ->
  Forall is_uint16 input ->
  p + 2 <= INT_MAX ->
  exists s',
    Scanner.Init s = Some s' /\
    Scanner.c0_ s' = (Scanner.code_point_at input p).1 /\
    (Vector_length input <= p ->
     Scanner.c0_ s' = Utf16CharacterStream.kEndOfInput /\ Scanner.c0_ s' < 0) /\
    Scanner.source_pos s' = p + (Scanner.code_point_at input p).2 - 1 /\
    Utf16CharacterStream.Inv input (Scanner.source_ s') /\
    Scanner.has_error s' = false /\
    Scanner.literal_chars (Scanner.current_ s') = None /\
    Scanner.raw_literal_chars (Scanner.current_ s') = None /\
    Scanner.literal_length s' = None /\
    Scanner.literal_contains_escapes s' = None /\
    Scanner.token (Scanner.next_next_ s') = Token.UNINITIALIZED /\
    Scanner.found_html_comment_ s' = false /\
    Scanner.next_ s' = Scanner.next_ s /\
    Scanner.buffers s' = Scanner.buffers s.
Proof.
  intros p Hinv Hin Hpos. unfold Utf16CharacterStream.pos in *.
  assert (Hp0 : 0 <= p).
  { destruct (Utf16CharacterStream.Inv_window _ _ Hinv) as (_ & _ & ? & _). unfold p. lia. }
  unfold INT_MAX in Hpos. change (2 ^ 31) with 2147483648 in Hpos.
  destruct (Scanner_Advance_step input s Hinv Hin) as (src & Ha & Hinv1 & Hp1).
  { fold p. unfold SIZE_MAX. lia. }
  fold p in Ha, Hp1. pose proof (code_point_at_width input p) as Hw.
  unfold Scanner.Init. rewrite Ha. cbn [mbind option_bind].
  eexists. split; [done|].
  unfold Scanner.source_pos, Scanner.literal_length, Scanner.literal_contains_escapes,
    Scanner.LiteralContainsEscapes, Scanner.has_error, Utf16CharacterStream.pos,
    Scanner.kCharacterLookaheadBufferSize.
  cbn [Scanner.c0_ Scanner.source_ Scanner.current_ Scanner.next_ Scanner.next_next_
       Scanner.buffers Scanner.found_html_comment_ Scanner.scanner_error_
       Scanner.set_c0_ Scanner.set_source_ Scanner.set_current_ Scanner.set_next_next_
       Scanner.set_found_html_comment_ Scanner.set_scanner_error_
       Scanner.literal_chars Scanner.raw_literal_chars Scanner.token
       Scanner.set_literal_chars Scanner.set_raw_literal_chars Scanner.set_token
       mbind option_bind].
  split; [done|]. split.
  { intros Hlen. rewrite code_point_at_past_end by lia. done. }
  split. { rewrite Hp1. rewrite !to_int_int by (rewrite ?to_int_int by lia; lia). lia. }
  done.
Qed.

Lemma Scanner_Init_spec_witness :
  (exists s',
     Scanner.Init (Scanner.fresh (StringStream.make [])) = Some s' /\
     Scanner.c0_ s' = -1 /\ Scanner.source_pos s' = 0 /\
     Scanner.has_error s' = false) /\
  (exists s',
     Scanner.Init
       (Scanner.report (Scanner.AtPos 3 (MessageTemplate.kError 1))
          (Scanner.fresh (StringStream.make [55357; 56832])))
     = Some s' /\
     Scanner.c0_ s' = 128512 /\ Scanner.source_pos s' = 1 /\
     Scanner.has_error s' = false).
Proof.
  split.
  - destruct (Scanner_Init_spec [] (Scanner.fresh (StringStream.make [])))
      as (s' & Hi & Hc & _ & Hp & _ & He & _).
    + apply StringStream_inv_make; [constructor|vm_compute; discriminate].
    + constructor.
    + vm_compute. discriminate.
    + exists s'. split; [exact Hi|]. split; [exact Hc|]. split; [exact Hp|exact He].
  - destruct (Scanner_Init_spec [55357; 56832]
                (Scanner.report (Scanner.AtPos 3 (MessageTemplate.kError 1))
                   (Scanner.fresh (StringStream.make [55357; 56832]))))
      as (s' & Hi & Hc & _ & Hp & _ & He & _).
    + apply StringStream_inv_make; [|vm_compute; discriminate].
      repeat constructor; vm_compute; discriminate.
    + repeat constructor; vm_compute; discriminate.
    + vm_compute. discriminate.
    + exists s'. split; [exact Hi|]. split; [exact Hc|]. split; [exact Hp|exact He].
Defined.

(** Property X12.  [PushBack(ch)] undoes [Advance()].  Let [Advance()] move
    the scanner from a state whose lookahead is [ch] to the next code point.
    [PushBack(ch)] then gives back the state before, with the stream again at
    its old position over the same input, provided [ch] and the code point
    being pushed out are on the same side of [kMaxNonSurrogateCharCode]: the
    function decides by [ch] whether one unit or the two surrogates of [c0_]
    go back to the stream. *)
Theorem Scanner_PushBack_undoes_Advance
    {X : Type} `{!Utf16CharacterStream.Virtual X} `{!Utf16CharacterStream.Contract X}
    (input : list Z) (s : Scanner.t X) :
  let p := Utf16CharacterStream.pos (Scanner.source_ s) in
  let ch := Scanner.c0_ s in
  Utf16CharacterStream.Inv input (Scanner.source_ s) ->
  Forall is_uint16 input ->
  p + 2 <= SIZE_MAX ->
  (ch > Utf16.kMaxNonSurrogateCharCode <->
   (Scanner.code_point_at input p).1 > Utf16.kMaxNonSurrogateCharCode) ->
  exists s1 source,
    Scanner.Advance false true s = Some s1 /\
    Scanner.c0_ s1 = (Scanner.code_point_at input p).1 /\
    Scanner.PushBack ch s1 = Scanner.set_source_ source s /\
    Utf16CharacterStream.Inv input source /\
    Utf16CharacterStream.pos source = p /\
    exists s2,
      Scanner.Advance false true (Scanner.PushBack ch s1) = Some s2 /\
      Scanner.c0_ s2 = Scanner.c0_ s1 /\
      Utf16CharacterStream.pos (Scanner.source_ s2)
        = Utf16CharacterStream.pos (Scanner.source_ s1).
Proof.
  intros p ch Hinv Hin Hpos Hside. unfold Utf16CharacterStream.pos in *.
  assert (Hp0 : 0 <= p).
  { destruct (Utf16CharacterStream.Inv_window _ _ Hinv) as (_ & _ & ? & _). unfold p. lia. }
  destruct (Scanner_Advance_step input s Hinv Hin Hpos) as (src & Ha & Hinv1 & Hp1).
  fold p in Ha, Hp1. rewrite (code_point_at_large input p Hin) in Hside.
  set (cp := Scanner.code_point_at input p) in *.
  assert (Hback : exists source,
            Scanner.PushBack ch (Scanner.set_c0_ cp.1 (Scanner.set_source_ src s))
              = Scanner.set_source_ source s /\
            Utf16CharacterStream.Inv input source /\
            Utf16CharacterStream.pos_ source = p).
  { unfold Scanner.PushBack.
    cbn [Scanner.c0_ Scanner.source_ Scanner.set_c0_ Scanner.set_source_].
    destruct (decide (ch > Utf16.kMaxNonSurrogateCharCode)) as [Hbig|Hsmall].
    - apply Hside in Hbig.
      destruct (code_point_at_pair input p Hin Hbig) as (l & t & Hl & Ht & Hlr & Htr & Hcp).
      fold cp in Hcp.
      destruct (CombineSurrogatePair_spec l t Hlr Htr) as (_ & Hr & HL & HT).
      rewrite Hcp, to_uint32_id by (change (2 ^ 32) with 4294967296; lia).
      rewrite HL, HT.
      destruct (Utf16CharacterStream.PushBack_spec input src Hinv1) as [Hinv2 Hp2]; [lia|].
      replace (Utf16CharacterStream.pos_ src - 1) with (p + 1) in Hinv2, Hp2 by lia.
      rewrite Ht in Hinv2, Hp2.
      destruct (Utf16CharacterStream.PushBack_spec input _ Hinv2) as [Hinv3 Hp3]; [lia|].
      rewrite Hp2 in Hinv3, Hp3.
      replace (p + 1 - 1) with p in Hinv3, Hp3 by lia. rewrite Hl in Hinv3, Hp3.
      eexists. split; [reflexivity|]. split; [exact Hinv3|exact Hp3].
    - assert (Hw : cp.2 = 1).
      { destruct (code_point_at_width input p) as [Hw|Hw]; [done|].
        fold cp in Hw. apply Hside in Hw. lia. }
      pose proof (code_point_at_single input p Hw) as Hs1. fold cp in Hs1. rewrite Hs1.
      destruct (Utf16CharacterStream.PushBack_spec input src Hinv1) as [Hinv2 Hp2]; [lia|].
      replace (Utf16CharacterStream.pos_ src - 1) with p in Hinv2, Hp2 by lia.
      eexists. split; [reflexivity|]. split; [exact Hinv2|exact Hp2]. }
  destruct Hback as (source & Hpb & Hinv2 & Hp2).
  eexists _, source. split; [exact Ha|].
  split; [done|]. split; [exact Hpb|]. split; [done|]. split; [done|].
  rewrite Hpb.
  destruct (Scanner_Advance_step input (Scanner.set_source_ source s)) as (src' & Ha' & _ & Hp');
    [done|done|cbn [Scanner.source_ Scanner.set_source_]; lia|].
  cbn [Scanner.source_ Scanner.set_source_] in Ha', Hp'. rewrite Hp2 in Ha', Hp'.
  eexists. split; [exact Ha'|].
  cbn [Scanner.c0_ Scanner.source_ Scanner.set_c0_ Scanner.set_source_].
  split; [done|]. by rewrite Hp', Hp1.
Qed.

Lemma Scanner_PushBack_undoes_Advance_witness :
  let s := Scanner.fresh (StringStream.make [97; 98]) in
  exists s1 source,
    Scanner.Advance false true s = Some s1 /\
    Scanner.c0_ s1 = 97 /\
    Scanner.PushBack (Scanner.c0_ s) s1 = Scanner.set_source_ source s /\
    Utf16CharacterStream.pos source = 0.
Proof.
  intros s.
  destruct (Scanner_PushBack_undoes_Advance [97; 98] s)
    as (s1 & source & Ha & Hc & Hpb & _ & Hp & _).
  - apply StringStream_inv_make; [|vm_compute; discriminate].
    repeat constructor; vm_compute; discriminate.
  - repeat constructor; vm_compute; discriminate.
  - vm_compute. discriminate.
  - vm_compute. split; discriminate.
  - exists s1, source. split; [exact Ha|]. split; [exact Hc|]. split; [exact Hpb|exact Hp].
Defined.

(** Property X13.  The two [Select] functions.  [Select(tok)] moves to the
    next code point and returns [tok].  [Select(next, then, else_)] moves to
    the next code point; when that is [next] it moves once more and returns
    [then], otherwise it returns [else_] and leaves the code point it read in
    [c0_] for the scan of the following token. *)
Theorem Scanner_Select_spec
    {X : Type} `{!Utf16CharacterStream.Virtual X} `{!Utf16CharacterStream.Contract X}
    (input : list Z) (s : Scanner.t X) (next : Z) (tok then_ else_ : Token.Value) :
  let p := Utf16CharacterStream.pos (Scanner.source_ s) in
  let first := Scanner.code_point_at input p in
  let q := p + first.2 in
  let second := Scanner.code_point_at input q in
  Utf16CharacterStream.Inv input (Scanner.source_ s) ->
  Forall is_uint16 input ->
  p + 4 <= SIZE_MAX ->
  (exists s',
     Scanner.Select tok s = Some (tok, s') /\
     Scanner.c0_ s' = first.1 /\
     Utf16CharacterStream.pos (Scanner.source_ s') = q) /\
  (exists s',
     Scanner.Select_next next then_ else_ s
       = Some (if decide (first.1 = next) then then_ else else_, s') /\
     Utf16CharacterStream.Inv input (Scanner.source_ s') /\
     Scanner.c0_ s' = (if decide (first.1 = next) then second.1 else first.1) /\
     Utf16CharacterStream.pos (Scanner.source_ s')
       = (if decide (first.1 = next) then q + second.2 else q)).
Proof.
  intros p first q second Hinv Hin Hpos. unfold Utf16CharacterStream.pos in *.
  destruct (Scanner_Advance_step input s Hinv Hin) as (src & Ha & Hinv1 & Hp1); [fold p; lia|].
  fold p first in Ha, Hp1. fold q in Hp1.
  pose proof (code_point_at_width input p) as Hw. fold first in Hw.
  split.
  - unfold Scanner.Select. rewrite Ha. cbn [mbind option_bind].
    eexists. split; [done|]. done.
  - unfold Scanner.Select_next. rewrite Ha. cbn [mbind option_bind].
    cbn [Scanner.c0_ Scanner.set_c0_ Scanner.set_source_].
    destruct (decide (first.1 = next)) as [Heq|Hne].
    + destruct (Scanner_Advance_step input (Scanner.set_c0_ first.1 (Scanner.set_source_ src s)))
        as (src2 & Ha2 & Hinv2 & Hp2);
        [done|done|cbn [Scanner.source_ Scanner.set_c0_ Scanner.set_source_]; lia|].
      cbn [Scanner.source_ Scanner.set_c0_ Scanner.set_source_] in Ha2, Hp2.
      rewrite Hp1 in Ha2, Hp2. fold second in Ha2, Hp2.
      rewrite Ha2. cbn [mbind option_bind]. eexists. split; [done|]. done.
    + eexists. split; [done|]. done.
Qed.

Lemma Scanner_Select_spec_witness :
  let s := Scanner.fresh (StringStream.make [61; 61; 97]) in
  exists s',
    Scanner.Select_next 61 (Token.Other 1) (Token.Other 2) s
      = Some (Token.Other 1, s') /\
    Scanner.c0_ s' = 61 /\
    Utf16CharacterStream.pos (Scanner.source_ s') = 2.
Proof.
  intros s.
  destruct (Scanner_Select_spec [61; 61; 97] s 61 Token.EOS (Token.Other 1) (Token.Other 2))
    as [_ (s' & Hs & _ & Hc & Hp)].
  - apply StringStream_inv_make; [|vm_compute; discriminate].
    repeat constructor; vm_compute; discriminate.
  - repeat constructor; vm_compute; discriminate.
  - vm_compute. discriminate.
  - exists s'. split; [exact Hs|]. split; [exact Hc|exact Hp].
Defined.

(** ** [Scanner]: copying the input into a literal *)

Lemma skip_code_points_ge input n : forall p,
  p <= Scanner.skip_code_points input n p.
Proof.
  induction n as [|n IH]; intros p; cbn [Scanner.skip_code_points]; [lia|].
  pose proof (IH (p + (Scanner.code_point_at input p).2)).
  destruct (code_point_at_width input p); lia.
Qed.

Lemma skip_code_points_le input n : forall p,
  Scanner.skip_code_points input n p <= p + 2 * Z.of_nat n.
Proof.
  induction n as [|n IH]; intros p; cbn [Scanner.skip_code_points]; [lia|].
  pose proof (IH (p + (Scanner.code_point_at input p).2)).
  destruct (code_point_at_width input p); lia.
Qed.

(** The units of a code point inside the input are what [AddChar] stores
    for it in a wide buffer, and the code point itself when it is one unit. *)
Lemma code_point_units input q :
  Forall is_uint16 input ->
  0 <= q -> q + (Scanner.code_point_at input q).2 <= Vector_length input ->
  let c := (Scanner.code_point_at input q).1 in
  let units := take (Z.to_nat (Scanner.code_point_at input q).2)
                    (drop (Z.to_nat q) input) in
  0 <= c < 2 ^ 32 /\
  LiteralBuffer.code_units c = units /\
  (c <= Latin1.kMaxChar -> [c] = units) /\
  bool_decide (c <= Latin1.kMaxChar)
    = forallb (fun u => bool_decide (u <= Latin1.kMaxChar)) units.
Proof.
  intros Hin Hq Hlen c units. unfold Vector_length in Hlen.
  destruct (code_point_at_width input q) as [Hw|Hw]; rewrite Hw in Hlen.
  - destruct (lookup_lt_is_Some_2 input (Z.to_nat q)) as [u Hu]; [lia|].
    assert (Hc : c = u).
    { unfold c. rewrite (code_point_at_single _ _ Hw). by apply unit_at_inside. }
    assert (Hr : is_uint16 u) by (eapply Forall_lookup_1; eauto).
    unfold is_uint16 in Hr. change (2 ^ 16) with 65536 in Hr.
    assert (Hunits : units = [u]).
    { unfold units. rewrite Hw, (drop_S _ _ _ Hu). done. }
    rewrite Hc, Hunits. change (2 ^ 32) with 4294967296.
    split; [lia|]. split; [|split; [done|cbn [forallb]; by rewrite andb_true_r]].
    unfold LiteralBuffer.code_units.
    by rewrite decide_True by (unfold Utf16.kMaxNonSurrogateCharCode; lia).
  - destruct (code_point_at_pair input q Hin Hw) as (l & t & Hl & Ht & Hlr & Htr & Hcp).
    fold c in Hcp.
    destruct (CombineSurrogatePair_spec l t Hlr Htr) as (_ & Hr & HL & HT).
    destruct (lookup_lt_is_Some_2 input (Z.to_nat q)) as [u Hu]; [lia|].
    destruct (lookup_lt_is_Some_2 input (S (Z.to_nat q))) as [u' Hu']; [lia|].
    rewrite (unit_at_inside _ _ _ Hu) in Hl.
    rewrite (unit_at_inside input (q + 1) u') in Ht
      by (by replace (Z.to_nat (q + 1)) with (S (Z.to_nat q)) by lia).
    subst u u'.
    assert (Hunits : units = [l; t]).
    { unfold units. rewrite Hw, (drop_S _ _ _ Hu), (drop_S _ _ _ Hu'). done. }
    rewrite Hcp, Hunits. change (2 ^ 32) with 4294967296.
    split; [lia|]. split; [|split; [unfold Latin1.kMaxChar; lia|]].
    + unfold LiteralBuffer.code_units.
      rewrite decide_False by (unfold Utf16.kMaxNonSurrogateCharCode; lia).
      by rewrite HL, HT.
    + cbn [forallb]. unfold Latin1.kMaxChar. by rewrite !bool_decide_false by lia.
Qed.

Section ScannerCopyFacts.
Context {X : Type} `{!Utf16CharacterStream.Virtual X}
        `{!Utf16CharacterStream.Contract X}.
Implicit Types s : Scanner.t X.

(** [p->AddChar(c0_)] followed by [Advance()], for a pointer [p] to a literal
    buffer of the scanner whose [c0_] holds the code point at [q]: the units
    of that code point are appended to the buffer and the scanner moves to the
    next code point. *)
Lemma AddChar_Advance_step input s r q :
  Utf16CharacterStream.Inv input (Scanner.source_ s) ->
  Forall is_uint16 input ->
  let w := (Scanner.code_point_at input q).2 in
  0 <= q -> q + w <= Vector_length input -> q + w + 2 <= SIZE_MAX ->
  Scanner.c0_ s = (Scanner.code_point_at input q).1 ->
  Utf16CharacterStream.pos_ (Scanner.source_ s) = q + w ->
  LiteralBuffer.wf (Scanner.buffers s r) ->
  LiteralBuffer.in_range (Scanner.buffers s r) ->
  LiteralBuffer.cost (Scanner.buffers s r) + 4 <= 2 ^ 27 ->
  exists s',
    Scanner.AddChar_at (Some r) (Scanner.c0_ s) s ≫= Scanner.Advance false true
      = Some s' /\
    Utf16CharacterStream.Inv input (Scanner.source_ s') /\
    Scanner.c0_ s' = (Scanner.code_point_at input (q + w)).1 /\
    Utf16CharacterStream.pos_ (Scanner.source_ s')
      = q + w + (Scanner.code_point_at input (q + w)).2 /\
    LiteralBuffer.wf (Scanner.buffers s' r) /\
    LiteralBuffer.in_range (Scanner.buffers s' r) /\
    LiteralBuffer.cost (Scanner.buffers s' r)
      <= LiteralBuffer.cost (Scanner.buffers s r) + 4 /\
    LiteralBuffer.chars (Scanner.buffers s' r)
      = LiteralBuffer.chars (Scanner.buffers s r)
        ++ take (Z.to_nat w) (drop (Z.to_nat q) input) /\
    (forall r', r' <> r -> Scanner.buffers s' r' = Scanner.buffers s r') /\
    Scanner.current_ s' = Scanner.current_ s /\
    Scanner.next_ s' = Scanner.next_ s /\
    Scanner.error s' = Scanner.error s /\
    Scanner.error_location s' = Scanner.error_location s /\
    LiteralBuffer.is_one_byte_ (Scanner.buffers s' r)
      = LiteralBuffer.is_one_byte_ (Scanner.buffers s r)
        && forallb (fun u => bool_decide (u <= Latin1.kMaxChar))
                   (take (Z.to_nat w) (drop (Z.to_nat q) input)).
Proof.
  intros Hinv Hin w Hq Hlen Hmax Hc0 Hpos Hwf Hr Hcost.
  destruct (code_point_units input q Hin Hq Hlen) as (Hc & Hunits & Hone & Hall).
  fold w in Hunits, Hone, Hall. rewrite <- Hc0 in Hc, Hunits, Hone, Hall.
  destruct (AddChar_spec (Scanner.c0_ s) (Scanner.buffers s r) Hwf Hr Hcost)
    as (lb & Hadd & Hwf1 & Hr1 & Hc1 & Hm1 & Hch1); [lia|].
  unfold Scanner.AddChar_at. cbn [mbind option_bind].
  rewrite to_uint32_id, Hadd by done. cbn [mbind option_bind].
  set (s1 := Scanner.set_buffers _ s).
  destruct (Scanner_Advance_step input s1) as (src & Ha & Hinv2 & Hp2);
    [done|done|unfold s1; cbn [Scanner.source_ Scanner.set_buffers]; lia|].
  unfold s1 in Ha, Hp2. cbn [Scanner.source_ Scanner.set_buffers] in Ha, Hp2.
  rewrite Hpos in Ha, Hp2. fold s1 in Ha.
  rewrite Ha. eexists. split; [done|].
  unfold s1, Scanner.error, Scanner.error_location.
  cbn [Scanner.source_ Scanner.c0_ Scanner.buffers Scanner.current_ Scanner.next_
       Scanner.scanner_error_ Scanner.scanner_error_location_
       Scanner.set_c0_ Scanner.set_source_ Scanner.set_buffers].
  rewrite fn_lookup_insert.
  split; [done|]. split; [done|]. split; [done|]. split; [done|]. split; [done|].
  split; [done|]. split.
  - rewrite Hch1. f_equal.
    destruct (LiteralBuffer.is_one_byte_ lb) eqn:Hone'; [|done].
    apply Hone. symmetry in Hm1. apply andb_true_iff in Hm1 as [_ Hle].
    by apply bool_decide_eq_true in Hle.
  - split; [intros r' Hne; by apply fn_lookup_insert_ne|].
    do 4 (split; [done|]). by rewrite Hm1, Hall.
Qed.
End ScannerCopyFacts.

Lemma take_drop_units (input : list Z) (q w q' : Z) :
  0 <= q -> 0 <= w -> q + w <= q' ->
  take (Z.to_nat w) (drop (Z.to_nat q) input)
  ++ take (Z.to_nat (q' - (q + w))) (drop (Z.to_nat (q + w)) input)
  = take (Z.to_nat (q' - q)) (drop (Z.to_nat q) input).
Proof.
  intros Hq Hw Hq'.
  replace (Z.to_nat (q + w)) with (Z.to_nat q + Z.to_nat w)%nat by lia.
  rewrite <- drop_drop, take_take_drop. f_equal. lia.
Qed.

Lemma forallb_take_drop_units (P : Z -> bool) (input : list Z) (q w q' : Z) :
  0 <= q -> 0 <= w -> q + w <= q' ->
  forallb P (take (Z.to_nat w) (drop (Z.to_nat q) input))
  && forallb P (take (Z.to_nat (q' - (q + w))) (drop (Z.to_nat (q + w)) input))
  = forallb P (take (Z.to_nat (q' - q)) (drop (Z.to_nat q) input)).
Proof.
  intros Hq Hw Hq'. rewrite <- (take_drop_units input q w q') by done.
  by rewrite forallb_app.
Qed.

Section ScannerCopyRuns.
Context {X : Type} `{!Utf16CharacterStream.Virtual X}
        `{!Utf16CharacterStream.Contract X}.
Implicit Types s : Scanner.t X.

Lemma Advance_capture_raw check_surrogate s :
  Scanner.Advance true check_surrogate s
  = Scanner.AddChar_at (Scanner.raw_literal_chars (Scanner.next_ s)) (Scanner.c0_ s) s
    ≫= Scanner.Advance false check_surrogate.
Proof.
  unfold Scanner.Advance, Scanner.AddRawLiteralChar.
  by destruct (Scanner.AddChar_at _ _ _).
Qed.

Lemma AddLiteralCharAdvances_copies input r (n : nat) : forall s q,
  Utf16CharacterStream.Inv input (Scanner.source_ s) ->
  Forall is_uint16 input ->
  0 <= q ->
  Scanner.skip_code_points input n q <= Vector_length input ->
  Scanner.skip_code_points input n q + 4 <= SIZE_MAX ->
  Scanner.c0_ s = (Scanner.code_point_at input q).1 ->
  Utf16CharacterStream.pos_ (Scanner.source_ s) = q + (Scanner.code_point_at input q).2 ->
  Scanner.literal_chars (Scanner.next_ s) = Some r ->
  LiteralBuffer.wf (Scanner.buffers s r) ->
  LiteralBuffer.in_range (Scanner.buffers s r) ->
  LiteralBuffer.cost (Scanner.buffers s r) + 4 * Z.of_nat n <= 2 ^ 27 ->
  exists s',
    Scanner.AddLiteralCharAdvances n s = Some s' /\
    LiteralBuffer.chars (Scanner.buffers s' r)
      = LiteralBuffer.chars (Scanner.buffers s r)
        ++ take (Z.to_nat (Scanner.skip_code_points input n q - q))
                (drop (Z.to_nat q) input) /\
    Scanner.c0_ s'
      = (Scanner.code_point_at input (Scanner.skip_code_points input n q)).1 /\
    Utf16CharacterStream.pos_ (Scanner.source_ s')
      = Scanner.skip_code_points input n q
        + (Scanner.code_point_at input (Scanner.skip_code_points input n q)).2 /\
    Utf16CharacterStream.Inv input (Scanner.source_ s') /\
    LiteralBuffer.wf (Scanner.buffers s' r) /\
    (forall r', r' <> r -> Scanner.buffers s' r' = Scanner.buffers s r') /\
    Scanner.current_ s' = Scanner.current_ s /\
    Scanner.next_ s' = Scanner.next_ s /\
    Scanner.error s' = Scanner.error s /\
    Scanner.error_location s' = Scanner.error_location s /\
    LiteralBuffer.is_one_byte_ (Scanner.buffers s' r)
      = LiteralBuffer.is_one_byte_ (Scanner.buffers s r)
        && forallb (fun u => bool_decide (u <= Latin1.kMaxChar))
                   (take (Z.to_nat (Scanner.skip_code_points input n q - q))
                         (drop (Z.to_nat q) input)).
Proof.
  induction n as [|n IH]; intros s q Hinv Hin Hq Hlen Hmax Hc0 Hpos Hptr Hwf Hr Hcost.
  - exists s. cbn [Scanner.AddLiteralCharAdvances Scanner.skip_code_points].
    rewrite Z.sub_diag. change (Z.to_nat 0) with O. rewrite take_0, app_nil_r.
    cbn [forallb]. by rewrite andb_true_r.
  - cbn [Scanner.skip_code_points] in *.
    set (w := (Scanner.code_point_at input q).2) in *.
    pose proof (skip_code_points_ge input n (q + w)) as Hge.
    assert (Hw : 1 <= w <= 2) by (destruct (code_point_at_width input q); unfold w; lia).
    destruct (AddChar_Advance_step input s r q Hinv Hin)
      as (s1 & Hstep & Hinv1 & Hc1 & Hp1 & Hwf1 & Hr1 & Hcost1 & Hch1 & Hf1
          & Hcur1 & Hnext1 & He1 & Hl1 & Hm1);
      [done|fold w; lia|fold w; lia|done|done|done|done|lia|].
    fold w in Hc1, Hp1, Hch1, Hm1.
    destruct (IH s1 (q + w)) as (s' & Hrun & Hch & Hc' & Hp' & Hinv' & Hwf' & Hf'
          & Hcur' & Hnext' & He' & Hl' & Hm');
      [done|done|lia|done|done|done|done|by rewrite Hnext1|done|done|lia|].
    exists s'. cbn [Scanner.AddLiteralCharAdvances].
    change (Scanner.AddLiteralCharAdvance s)
      with (Scanner.AddChar_at (Scanner.literal_chars (Scanner.next_ s)) (Scanner.c0_ s) s
            ≫= Scanner.Advance false true).
    rewrite Hptr, Hstep. cbn [mbind option_bind]. split; [done|].
    split.
    { rewrite Hch, Hch1, <- app_assoc. f_equal. apply take_drop_units; lia. }
    split; [done|]. split; [done|]. split; [done|]. split; [done|].
    split; [intros r' Hne; by rewrite Hf', Hf1|].
    split; [congruence|]. split; [congruence|]. split; [congruence|].
    split; [congruence|].
    rewrite Hm', Hm1, <- andb_assoc. f_equal. apply forallb_take_drop_units; lia.
Qed.

Lemma Advances_capture_raw_copies input r (n : nat) : forall s q,
  Utf16CharacterStream.Inv input (Scanner.source_ s) ->
  Forall is_uint16 input ->
  0 <= q ->
  Scanner.skip_code_points input n q <= Vector_length input ->
  Scanner.skip_code_points input n q + 4 <= SIZE_MAX ->
  Scanner.c0_ s = (Scanner.code_point_at input q).1 ->
  Utf16CharacterStream.pos_ (Scanner.source_ s) = q + (Scanner.code_point_at input q).2 ->
  Scanner.raw_literal_chars (Scanner.next_ s) = Some r ->
  LiteralBuffer.wf (Scanner.buffers s r) ->
  LiteralBuffer.in_range (Scanner.buffers s r) ->
  LiteralBuffer.cost (Scanner.buffers s r) + 4 * Z.of_nat n <= 2 ^ 27 ->
  exists cs s',
    Scanner.Advances true true n s = Some (cs, s') /\
    List.length cs = n /\
    LiteralBuffer.chars (Scanner.buffers s' r)
      = LiteralBuffer.chars (Scanner.buffers s r)
        ++ take (Z.to_nat (Scanner.skip_code_points input n q - q))
                (drop (Z.to_nat q) input) /\
    Scanner.c0_ s'
      = (Scanner.code_point_at input (Scanner.skip_code_points input n q)).1 /\
    Utf16CharacterStream.pos_ (Scanner.source_ s')
      = Scanner.skip_code_points input n q
        + (Scanner.code_point_at input (Scanner.skip_code_points input n q)).2 /\
    Utf16CharacterStream.Inv input (Scanner.source_ s') /\
    LiteralBuffer.wf (Scanner.buffers s' r) /\
    (forall r', r' <> r -> Scanner.buffers s' r' = Scanner.buffers s r') /\
    Scanner.current_ s' = Scanner.current_ s /\
    Scanner.next_ s' = Scanner.next_ s /\
    Scanner.error s' = Scanner.error s /\
    Scanner.error_location s' = Scanner.error_location s /\
    LiteralBuffer.is_one_byte_ (Scanner.buffers s' r)
      = LiteralBuffer.is_one_byte_ (Scanner.buffers s r)
        && forallb (fun u => bool_decide (u <= Latin1.kMaxChar))
                   (take (Z.to_nat (Scanner.skip_code_points input n q - q))
                         (drop (Z.to_nat q) input)).
Proof.
  induction n as [|n IH]; intros s q Hinv Hin Hq Hlen Hmax Hc0 Hpos Hptr Hwf Hr Hcost.
  - exists [], s. cbn [Scanner.Advances Scanner.skip_code_points].
    rewrite Z.sub_diag. change (Z.to_nat 0) with O. rewrite take_0, app_nil_r.
    cbn [forallb]. by rewrite andb_true_r.
  - cbn [Scanner.skip_code_points] in *.
    set (w := (Scanner.code_point_at input q).2) in *.
    pose proof (skip_code_points_ge input n (q + w)) as Hge.
    assert (Hw : 1 <= w <= 2) by (destruct (code_point_at_width input q); unfold w; lia).
    destruct (AddChar_Advance_step input s r q Hinv Hin)
      as (s1 & Hstep & Hinv1 & Hc1 & Hp1 & Hwf1 & Hr1 & Hcost1 & Hch1 & Hf1
          & Hcur1 & Hnext1 & He1 & Hl1 & Hm1);
      [done|fold w; lia|fold w; lia|done|done|done|done|lia|].
    fold w in Hc1, Hp1, Hch1, Hm1.
    destruct (IH s1 (q + w)) as (cs & s' & Hrun & Hlencs & Hch & Hc' & Hp' & Hinv' & Hwf'
          & Hf' & Hcur' & Hnext' & He' & Hl' & Hm');
      [done|done|lia|done|done|done|done|by rewrite Hnext1|done|done|lia|].
    exists (Scanner.c0_ s1 :: cs), s'. cbn [Scanner.Advances].
    rewrite Advance_capture_raw, Hptr, Hstep. cbn [mbind option_bind].
    rewrite Hrun. cbn [mbind option_bind]. split; [done|].
    split; [cbn [List.length]; lia|].
    split.
    { rewrite Hch, Hch1, <- app_assoc. f_equal. apply take_drop_units; lia. }
    split; [done|]. split; [done|]. split; [done|]. split; [done|].
    split; [intros r' Hne; by rewrite Hf', Hf1|].
    split; [congruence|]. split; [congruence|]. split; [congruence|].
    split; [congruence|].
    rewrite Hm', Hm1, <- andb_assoc. f_equal. apply forallb_take_drop_units; lia.
Qed.
End ScannerCopyRuns.

(** Property X14.  A literal scanned with [AddLiteralCharAdvance()] is a copy
    of the source.  Let [c0_] hold the code point of the input at [q], with
    the stream behind it, and let the literal of [next_] be a buffer that
    satisfies the class invariant.  [n] calls of [AddLiteralCharAdvance()],
    for [n] code points that lie inside the input, append to that buffer
    exactly the units of the input from [q] up to the position [q'] behind the
    [n]-th code point (surrogate pairs as their two units, a lone surrogate as
    it is), and leave the scanner at the code point at [q'].  No other buffer,
    no token descriptor and no part of the error slot changes, and the buffer
    is narrow afterwards exactly when it was narrow and all those units are at
    most [Latin1::kMaxChar]. *)
Theorem Scanner_AddLiteralCharAdvance_copies
    {X : Type} `{!Utf16CharacterStream.Virtual X} `{!Utf16CharacterStream.Contract X}
    (input : list Z) (s : Scanner.t X) (r : Scanner.LiteralBufferRef)
    (n : nat) (q : Z) :
  let q' := Scanner.skip_code_points input n q in
  Utf16CharacterStream.Inv input (Scanner.source_ s) ->
  Forall is_uint16 input ->
  0 <= q -> q' <= Vector_length input -> q' + 4 <= SIZE_MAX ->
  Scanner.c0_ s = (Scanner.code_point_at input q).1 ->
  Utf16CharacterStream.pos (Scanner.source_ s) = q + (Scanner.code_point_at input q).2 ->
  Scanner.literal_chars (Scanner.next_ s) = Some r ->
  LiteralBuffer.wf (Scanner.buffers s r) ->
  LiteralBuffer.in_range (Scanner.buffers s r) ->
  LiteralBuffer.cost (Scanner.buffers s r) + 4 * Z.of_nat n <= 2 ^ 27 ->
  exists s',
    Scanner.AddLiteralCharAdvances n s = Some s' /\
    LiteralBuffer.chars (Scanner.buffers s' r)
      = LiteralBuffer.chars (Scanner.buffers s r)
        ++ take (Z.to_nat (q' - q)) (drop (Z.to_nat q) input) /\
    Scanner.c0_ s' = (Scanner.code_point_at input q').1 /\
    Utf16CharacterStream.pos (Scanner.source_ s')
      = q' + (Scanner.code_point_at input q').2 /\
    Utf16CharacterStream.Inv input (Scanner.source_ s') /\
    LiteralBuffer.wf (Scanner.buffers s' r) /\
    (forall r', r' <> r -> Scanner.buffers s' r' = Scanner.buffers s r') /\
    Scanner.current_ s' = Scanner.current_ s /\
    Scanner.next_ s' = Scanner.next_ s /\
    Scanner.error s' = Scanner.error s /\
    Scanner.error_location s' = Scanner.error_location s /\
    LiteralBuffer.is_one_byte (Scanner.buffers s' r)
      = LiteralBuffer.is_one_byte (Scanner.buffers s r)
        && forallb (fun u => bool_decide (u <= Latin1.kMaxChar))
                   (take (Z.to_nat (q' - q)) (drop (Z.to_nat q) input)).
Proof. intros q'. unfold Utf16CharacterStream.pos. apply AddLiteralCharAdvances_copies. Qed.

Lemma StringStream_inv_at (input : list Z) (p : Z) :
  Forall is_uint16 input -> 0 <= p <= Vector_length input ->
  Vector_length input <= SIZE_MAX ->
  StringStream.inv input (Utf16CharacterStream.move p p (StringStream.make input)).
Proof.
  intros Hin Hp Hmax. unfold StringStream.inv, StringStream.make.
  cbn [Utf16CharacterStream.buffer Utf16CharacterStream.buffer_end_
       Utf16CharacterStream.buffer_cursor_ Utf16CharacterStream.pos_
       Utf16CharacterStream.move].
  split; [done|]. split; [done|]. split; [done|]. split; lia.
Defined.

Lemma Scanner_AddLiteralCharAdvance_copies_witness :
  let input := [104; 105; 33] in
  let s := Scanner.StartLiteral
             (Scanner.set_c0_ 104
                (Scanner.fresh
                   (Utf16CharacterStream.move 1 1 (StringStream.make input)))) in
  exists s',
    Scanner.AddLiteralCharAdvances 2 s = Some s' /\
    LiteralBuffer.chars (Scanner.buffers s' Scanner.literal_buffer0_) = [104; 105] /\
    Scanner.c0_ s' = 33.
Proof.
  intros input s.
  destruct (Scanner_AddLiteralCharAdvance_copies input s Scanner.literal_buffer0_ 2 0)
    as (s' & Hrun & Hch & Hc & _).
  - apply StringStream_inv_at; [|vm_compute; split; discriminate|vm_compute; discriminate].
    repeat constructor; vm_compute; discriminate.
  - repeat constructor; vm_compute; discriminate.
  - vm_compute. discriminate.
  - vm_compute. discriminate.
  - vm_compute. discriminate.
  - reflexivity.
  - reflexivity.
  - reflexivity.
  - constructor; [vm_compute; split; discriminate|reflexivity|constructor|reflexivity].
  - split; vm_compute; discriminate.
  - vm_compute. discriminate.
  - exists s'. split; [exact Hrun|]. split; [exact Hch|exact Hc].
Defined.


(** Property X15.  [Advance<true>()], the instantiation with [capture_raw],
    copies the source into the raw literal: under the conditions of the
    theorem before, now for the raw literal of [next_], [n] calls append to
    that buffer the units of the input from [q] up to the position behind the
    [n]-th code point, and leave the scanner at the code point there; the
    buffer is narrow afterwards exactly when it was narrow and all those units
    are at most [Latin1::kMaxChar]. *)
Theorem Scanner_Advance_capture_raw_copies
    {X : Type} `{!Utf16CharacterStream.Virtual X} `{!Utf16CharacterStream.Contract X}
    (input : list Z) (s : Scanner.t X) (r : Scanner.LiteralBufferRef)
    (n : nat) (q : Z) :
  let q' := Scanner.skip_code_points input n q in
  Utf16CharacterStream.Inv input (Scanner.source_ s) ->
  Forall is_uint16 input ->
  0 <= q -> q' <= Vector_length input -> q' + 4 <= SIZE_MAX ->
  Scanner.c0_ s = (Scanner.code_point_at input q).1 ->
  Utf16CharacterStream.pos (Scanner.source_ s) = q + (Scanner.code_point_at input q).2 ->
  Scanner.raw_literal_chars (Scanner.next_ s) = Some r ->
  LiteralBuffer.wf (Scanner.buffers s r) ->
  LiteralBuffer.in_range (Scanner.buffers s r) ->
  LiteralBuffer.cost (Scanner.buffers s r) + 4 * Z.of_nat n <= 2 ^ 27 ->
  exists cs s',
    Scanner.Advances true true n s = Some (cs, s') /\
    List.length cs = n /\
    LiteralBuffer.chars (Scanner.buffers s' r)
      = LiteralBuffer.chars (Scanner.buffers s r)
        ++ take (Z.to_nat (q' - q)) (drop (Z.to_nat q) input) /\
    Scanner.c0_ s' = (Scanner.code_point_at input q').1 /\
    Utf16CharacterStream.pos (Scanner.source_ s')
      = q' + (Scanner.code_point_at input q').2 /\
    Utf16CharacterStream.Inv input (Scanner.source_ s') /\
    LiteralBuffer.wf (Scanner.buffers s' r) /\
    (forall r', r' <> r -> Scanner.buffers s' r' = Scanner.buffers s r') /\
    Scanner.current_ s' = Scanner.current_ s /\
    Scanner.next_ s' = Scanner.next_ s /\
    Scanner.error s' = Scanner.error s /\
    Scanner.error_location s' = Scanner.error_location s /\
    LiteralBuffer.is_one_byte (Scanner.buffers s' r)
      = LiteralBuffer.is_one_byte (Scanner.buffers s r)
        && forallb (fun u => bool_decide (u <= Latin1.kMaxChar))
                   (take (Z.to_nat (q' - q)) (drop (Z.to_nat q) input)).
Proof. intros q'. unfold Utf16CharacterStream.pos. apply Advances_capture_raw_copies. Qed.

Lemma Scanner_Advance_capture_raw_copies_witness :
  let input := [55357; 56832; 33] in
  let s := Scanner.StartRawLiteral
             (Scanner.set_c0_ 128512
                (Scanner.fresh
                   (Utf16CharacterStream.move 2 2 (StringStream.make input)))) in
  exists cs s',
    Scanner.Advances true true 1 s = Some (cs, s') /\
    LiteralBuffer.chars (Scanner.buffers s' Scanner.raw_literal_buffer0_)
      = [55357; 56832] /\
    Scanner.c0_ s' = 33.
Proof.
  intros input s.
  destruct (Scanner_Advance_capture_raw_copies input s Scanner.raw_literal_buffer0_ 1 0)
    as (cs & s' & Hrun & _ & Hch & Hc & _).
  - apply StringStream_inv_at; [|vm_compute; split; discriminate|vm_compute; discriminate].
    repeat constructor; vm_compute; discriminate.
  - repeat constructor; vm_compute; discriminate.
  - vm_compute. discriminate.
  - vm_compute. discriminate.
  - vm_compute. discriminate.
  - reflexivity.
  - reflexivity.
  - reflexivity.
  - constructor; [vm_compute; split; discriminate|reflexivity|constructor|reflexivity].
  - split; vm_compute; discriminate.
  - vm_compute. discriminate.
  - exists cs, s'. split; [exact Hrun|]. split; [exact Hch|exact Hc].
Defined.

(** ** [Scanner]: literals without escapes *)

(** Property X19.  A literal copied from the source is not taken for one with
    escapes.  Start from an empty literal of [next_], with [c0_] at the code
    point at [q], and scan [n] code points with [AddLiteralCharAdvance()], up
    to position [q'].  For a token descriptor with that literal whose location
    is [q .. q'), or, for a [STRING] token, the location with the two
    delimiters around it, [LiteralContainsEscapes] is false: the length of the
    literal is counted in 16-bit units, as the location is, so a surrogate
    pair in the source counts as two on both sides. *)
Theorem Scanner_verbatim_literal_no_escapes
    {X : Type} `{!Utf16CharacterStream.Virtual X} `{!Utf16CharacterStream.Contract X}
    (input : list Z) (s : Scanner.t X) (r : Scanner.LiteralBufferRef)
    (n : nat) (q : Z) (token_ : Scanner.TokenDesc) :
  let q' := Scanner.skip_code_points input n q in
  Utf16CharacterStream.Inv input (Scanner.source_ s) ->
  Forall is_uint16 input ->
  0 <= q -> q' <= Vector_length input -> q' + 4 <= INT_MAX ->
  Scanner.c0_ s = (Scanner.code_point_at input q).1 ->
  Utf16CharacterStream.pos (Scanner.source_ s) = q + (Scanner.code_point_at input q).2 ->
  Scanner.literal_chars (Scanner.next_ s) = Some r ->
  LiteralBuffer.wf (Scanner.buffers s r) ->
  LiteralBuffer.in_range (Scanner.buffers s r) ->
  LiteralBuffer.length (Scanner.buffers s r) = 0 ->
  4 * Z.of_nat n <= 2 ^ 27 ->
  Scanner.literal_chars token_ = Some r ->
  Scanner.location token_
    = (if decide (Scanner.token token_ = Token.STRING)
       then Scanner.Loc (q - 1) (q' + 1) else Scanner.Loc q q') ->
  exists s',
    Scanner.AddLiteralCharAdvances n s = Some s' /\
    LiteralBuffer.length (Scanner.buffers s' r) = q' - q /\
    Scanner.LiteralContainsEscapes (Scanner.buffers s') token_ = Some false.
Proof.
  intros q' Hinv Hin Hq Hlen Hmax Hc0 Hpos Hptr Hwf Hr Hempty Hn Htok Hloc.
  unfold Utf16CharacterStream.pos in *.
  unfold INT_MAX in Hmax. change (2 ^ 31) with 2147483648 in Hmax.
  pose proof (skip_code_points_ge input n q) as Hge. fold q' in Hge.
  assert (Hcost : LiteralBuffer.cost (Scanner.buffers s r) = 0).
  { unfold LiteralBuffer.cost, LiteralBuffer.length in *.
    destruct (LiteralBuffer.is_one_byte_ (Scanner.buffers s r)) eqn:Hone; [lia|].
    destruct (even_double _ (LiteralBuffer.wf_wide _ Hwf Hone)) as [m Hm].
    rewrite Hm, shiftr1_double in Hempty. lia. }
  destruct (AddLiteralCharAdvances_copies input r n s q Hinv Hin Hq)
    as (s' & Hrun & Hch & _ & _ & _ & Hwf' & _);
    [done|fold q'; unfold SIZE_MAX; lia|done|done|done|done|done|rewrite Hcost; lia|].
  fold q' in Hch.
  assert (Hl : LiteralBuffer.length (Scanner.buffers s' r) = q' - q).
  { rewrite (length_chars _ Hwf'), Hch, length_app, length_take, length_drop.
    rewrite (length_chars _ Hwf) in Hempty. unfold Vector_length in Hlen. lia. }
  exists s'. split; [done|]. split; [done|].
  unfold Scanner.LiteralContainsEscapes. rewrite Htok, Hloc. cbn [mbind option_bind].
  f_equal. apply bool_decide_false. intros Hne. apply Hne. rewrite Hl.
  destruct (decide (Scanner.token token_ = Token.STRING));
    cbn [Scanner.beg_pos Scanner.end_pos];
    rewrite !to_int_int by (rewrite ?to_int_int by lia; lia); lia.
Qed.

Lemma Scanner_verbatim_literal_no_escapes_witness :
  let input := [34; 55357; 56832; 33; 34] in
  let s := Scanner.StartLiteral
             (Scanner.set_c0_ 128512
                (Scanner.fresh
                   (Utf16CharacterStream.move 3 3 (StringStream.make input)))) in
  let token_ := Scanner.Desc Token.STRING (Scanner.Loc 0 5)
                  (Some Scanner.literal_buffer0_) None 0 in
  exists s',
    Scanner.AddLiteralCharAdvances 2 s = Some s' /\
    LiteralBuffer.length (Scanner.buffers s' Scanner.literal_buffer0_) = 3 /\
    Scanner.LiteralContainsEscapes (Scanner.buffers s') token_ = Some false.
Proof.
  intros input s token_.
  destruct (Scanner_verbatim_literal_no_escapes input s Scanner.literal_buffer0_ 2 1 token_)
    as (s' & Hrun & Hl & Hesc).
  - apply StringStream_inv_at; [|vm_compute; split; discriminate|vm_compute; discriminate].
    repeat constructor; vm_compute; discriminate.
  - repeat constructor; vm_compute; discriminate.
  - vm_compute. discriminate.
  - vm_compute. discriminate.
  - vm_compute. discriminate.
  - reflexivity.
  - reflexivity.
  - reflexivity.
  - constructor; [vm_compute; split; discriminate|reflexivity|constructor|reflexivity].
  - split; vm_compute; discriminate.
  - reflexivity.
  - vm_compute. discriminate.
  - reflexivity.
  - reflexivity.
  - exists s'. split; [exact Hrun|]. split; [exact Hl|exact Hesc].
Defined.

(** ** [Scanner]: recognising a keyword in the source *)

(** Property X20.  Contextual keywords are recognised exactly.  Scan [n] code
    points of the source into an empty narrow literal of [next_] with
    [AddLiteralCharAdvance()], from the code point at [q] up to position [q'].
    Then [is_next_contextual_keyword(keyword)], for a keyword of bytes, is
    true exactly when the units of the input from [q] to [q'] are the keyword. *)
Theorem Scanner_scanned_keyword
    {X : Type} `{!Utf16CharacterStream.Virtual X} `{!Utf16CharacterStream.Contract X}
    (input : list Z) (s : Scanner.t X) (r : Scanner.LiteralBufferRef)
    (n : nat) (q : Z) (keyword : list Z) :
  let q' := Scanner.skip_code_points input n q in
  Utf16CharacterStream.Inv input (Scanner.source_ s) ->
  Forall is_uint16 input ->
  0 <= q -> q' <= Vector_length input -> q' + 4 <= SIZE_MAX ->
  Scanner.c0_ s = (Scanner.code_point_at input q).1 ->
  Utf16CharacterStream.pos (Scanner.source_ s) = q + (Scanner.code_point_at input q).2 ->
  Scanner.literal_chars (Scanner.next_ s) = Some r ->
  LiteralBuffer.wf (Scanner.buffers s r) ->
  LiteralBuffer.in_range (Scanner.buffers s r) ->
  LiteralBuffer.is_one_byte (Scanner.buffers s r) = true ->
  LiteralBuffer.length (Scanner.buffers s r) = 0 ->
  4 * Z.of_nat n <= 2 ^ 27 ->
  Forall is_byte keyword ->
  exists s',
    Scanner.AddLiteralCharAdvances n s = Some s' /\
    Scanner.is_next_contextual_keyword keyword s'
    = Some (bool_decide (take (Z.to_nat (q' - q)) (drop (Z.to_nat q) input) = keyword)).
Proof.
  intros q' Hinv Hin Hq Hlen Hmax Hc0 Hpos Hptr Hwf Hr Hone Hempty Hn Hkw.
  unfold Utf16CharacterStream.pos, LiteralBuffer.is_one_byte in *.
  assert (Hcost : LiteralBuffer.cost (Scanner.buffers s r) = 0).
  { unfold LiteralBuffer.cost, LiteralBuffer.length in *. rewrite Hone in *. lia. }
  assert (Hold : LiteralBuffer.chars (Scanner.buffers s r) = []).
  { apply length_zero_iff_nil. rewrite (length_chars _ Hwf) in Hempty. lia. }
  destruct (AddLiteralCharAdvances_copies input r n s q Hinv Hin Hq)
    as (s' & Hrun & Hch & _ & _ & _ & Hwf' & _ & _ & Hnext & _ & _ & Hm);
    [done|done|done|done|done|done|done|rewrite Hcost; lia|].
  fold q' in Hch, Hm. rewrite Hold in Hch. rewrite Hone in Hm. cbn [app andb] in Hch, Hm.
  set (slice := take (Z.to_nat (q' - q)) (drop (Z.to_nat q) input)) in *.
  exists s'. split; [done|].
  unfold Scanner.is_next_contextual_keyword. rewrite Hnext, Hptr.
  cbn [mbind option_bind]. f_equal.
  set (lb := Scanner.buffers s' r) in *.
  pose proof (LiteralBuffer.wf_position _ Hwf') as Hp.
  unfold LiteralBuffer.is_contextual_keyword, LiteralBuffer.is_one_byte, Vector_length in *.
  destruct (decide (slice = keyword)) as [Heq|Heq].
  - rewrite (bool_decide_true (slice = keyword)) by done.
    assert (Hnarrow : LiteralBuffer.is_one_byte_ lb = true).
    { rewrite Hm. apply forallb_forall. intros u Hu. rewrite Heq in Hu.
      apply bool_decide_eq_true. apply list_elem_of_In in Hu.
      rewrite Forall_forall in Hkw. apply Hkw in Hu.
      unfold is_byte, Latin1.kMaxChar in *. change (2 ^ 8) with 256 in Hu. lia. }
    rewrite Hnarrow. unfold LiteralBuffer.chars in Hch. rewrite Hnarrow in Hch.
    cbn [andb]. rewrite Hch, Heq.
    assert (Hl : Z.of_nat (List.length keyword) = LiteralBuffer.position_ lb).
    { rewrite <- Heq, <- Hch, length_take. lia. }
    rewrite bool_decide_true by done. rewrite bool_decide_true; [done|].
    apply take_ge. lia.
  - rewrite (bool_decide_false (slice = keyword)) by done.
    destruct (LiteralBuffer.is_one_byte_ lb) eqn:Hnarrow; [|done]. cbn [andb].
    unfold LiteralBuffer.chars in Hch. rewrite Hnarrow in Hch.
    apply andb_false_iff.
    destruct (decide (Z.of_nat (List.length keyword) = LiteralBuffer.position_ lb))
      as [Hl|Hl]; [right|left; by apply bool_decide_false].
    apply bool_decide_false. intros Hk. apply Heq. rewrite <- Hch, <- Hk.
    apply take_ge. lia.
Qed.

Lemma Scanner_scanned_keyword_witness :
  let input := [111; 102; 32] in
  let s := Scanner.StartLiteral
             (Scanner.set_c0_ 111
                (Scanner.fresh
                   (Utf16CharacterStream.move 1 1 (StringStream.make input)))) in
  exists s',
    Scanner.AddLiteralCharAdvances 2 s = Some s' /\
    Scanner.is_next_contextual_keyword [111; 102] s' = Some true.
Proof.
  intros input s.
  destruct (Scanner_scanned_keyword input s Scanner.literal_buffer0_ 2 0 [111; 102])
    as (s' & Hrun & Hk).
  - apply StringStream_inv_at; [|vm_compute; split; discriminate|vm_compute; discriminate].
    repeat constructor; vm_compute; discriminate.
  - repeat constructor; vm_compute; discriminate.
  - vm_compute. discriminate.
  - vm_compute. discriminate.
  - vm_compute. discriminate.
  - reflexivity.
  - reflexivity.
  - reflexivity.
  - constructor; [vm_compute; split; discriminate|reflexivity|constructor|reflexivity].
  - split; vm_compute; discriminate.
  - reflexivity.
  - reflexivity.
  - vm_compute. discriminate.
  - repeat constructor; vm_compute; discriminate.
  - exists s'. split; [exact Hrun|exact Hk].
Defined.

(** ** [Scanner]: comparing the current literal *)

(** [strncmp] of as many bytes as a NUL-free string has decides whether the
    bytes are that string. *)
Lemma strncmp_keyword (token : list Z) : forall keyword rest : list Z,
  Forall (fun c => c <> 0) keyword ->
  List.length token = List.length keyword ->
  exists r,
    strncmp token (keyword ++ rest) (Z.of_nat (List.length keyword)) = Some r /\
    (r = 0 <-> token = keyword).
Proof.
  induction token as [|c1 token IH]; intros [|c2 keyword] rest Hnz Hlen;
    cbn [List.length] in Hlen; try lia.
  - exists 0. done.
  - apply Forall_cons in Hnz as [Hc2 Hnz].
    cbn [strncmp app List.length]. rewrite decide_False by lia.
    destruct (decide (c1 = c2)) as [->|Hne].
    + rewrite decide_False by done.
      replace (Z.of_nat (S (List.length keyword)) - 1)
        with (Z.of_nat (List.length keyword)) by lia.
      destruct (IH keyword rest Hnz) as (r & Hr & Hiff); [lia|].
      exists r. split; [done|]. rewrite Hiff. split; [by intros ->|by intros [= ->]].
    + exists (c1 - c2). split; [done|]. split; [lia|]. by intros [= -> _].
Qed.

Section ScannerMatchFacts.
Context {X : Type}.
Implicit Types s : Scanner.t X.

Lemma literal_contains_escapes_Some s r :
  Scanner.literal_chars (Scanner.current_ s) = Some r ->
  exists escapes, Scanner.literal_contains_escapes s = Some escapes.
Proof.
  intros Hr. unfold Scanner.literal_contains_escapes, Scanner.LiteralContainsEscapes.
  rewrite Hr. cbn [mbind option_bind]. by eexists.
Qed.

Lemma LiteralMatches_spec s r (keyword rest : list Z) (allow_escapes escapes : bool) :
  Scanner.literal_chars (Scanner.current_ s) = Some r ->
  LiteralBuffer.wf (Scanner.buffers s r) ->
  Forall (fun c => c <> 0) keyword ->
  Vector_length keyword <= INT_MAX ->
  Scanner.literal_contains_escapes s = Some escapes ->
  Scanner.LiteralMatches (keyword ++ rest) (Vector_length keyword) allow_escapes s
  = Some (LiteralBuffer.is_one_byte (Scanner.buffers s r)
          && bool_decide (LiteralBuffer.chars (Scanner.buffers s r) = keyword)
          && (allow_escapes || negb escapes)).
Proof.
  intros Hr Hwf Hnz Hmax Hesc.
  unfold Scanner.LiteralMatches, Scanner.is_literal_one_byte, Scanner.literal_length,
    Scanner.literal_one_byte_string.
  rewrite Hr. cbn [mbind option_bind].
  unfold LiteralBuffer.is_one_byte.
  destruct (LiteralBuffer.is_one_byte_ (Scanner.buffers s r)) eqn:Hone; [|done].
  cbn [andb]. rewrite (length_chars _ Hwf).
  destruct (decide (_ = _)) as [Hlen|Hlen].
  - assert (Hun : (if allow_escapes then Some true
                   else negb <$> Scanner.literal_contains_escapes s)
                  = Some (allow_escapes || negb escapes)).
    { destruct allow_escapes; [done|]. by rewrite Hesc. }
    rewrite Hun. cbn [mbind option_bind].
    destruct (allow_escapes || negb escapes); [|by rewrite andb_false_r].
    rewrite andb_true_r, one_byte_literal_chars by done. cbn [mbind option_bind].
    unfold INT_MAX, Vector_length in *. change (2 ^ 31) with 2147483648 in Hmax.
    rewrite to_size_t_id by (unfold SIZE_MAX; lia).
    destruct (strncmp_keyword (LiteralBuffer.chars (Scanner.buffers s r)) keyword rest Hnz)
      as (r0 & -> & Hiff); [lia|].
    cbn [mbind option_bind]. f_equal. by apply bool_decide_ext.
  - rewrite bool_decide_false; [done|]. intros Heq. apply Hlen.
    unfold Vector_length. by rewrite Heq.
Qed.
End ScannerMatchFacts.

(** Property X16.  [LiteralMatches(data, length, allow_escapes)] for a
    NUL-free string of [length] bytes at [data], on a scanner whose current
    token has a literal: the answer is yes exactly when that literal is
    narrow, its bytes are the string, and escapes are allowed or
    [literal_contains_escapes()] is false.  [UnescapedLiteralMatches] is the
    same with escapes not allowed. *)
Theorem Scanner_LiteralMatches_iff {X : Type} (s : Scanner.t X)
    (r : Scanner.LiteralBufferRef) (keyword rest : list Z) (allow_escapes : bool) :
  Scanner.literal_chars (Scanner.current_ s) = Some r ->
  LiteralBuffer.wf (Scanner.buffers s r) ->
  Forall (fun c => c <> 0) keyword ->
  Vector_length keyword <= INT_MAX ->
  exists escapes,
    Scanner.literal_contains_escapes s = Some escapes /\
    Scanner.LiteralMatches (keyword ++ rest) (Vector_length keyword) allow_escapes s
    = Some (LiteralBuffer.is_one_byte (Scanner.buffers s r)
            && bool_decide (LiteralBuffer.chars (Scanner.buffers s r) = keyword)
            && (allow_escapes || negb escapes)) /\
    Scanner.UnescapedLiteralMatches (keyword ++ rest) (Vector_length keyword) s
    = Some (LiteralBuffer.is_one_byte (Scanner.buffers s r)
            && bool_decide (LiteralBuffer.chars (Scanner.buffers s r) = keyword)
            && negb escapes).
Proof.
  intros Hr Hwf Hnz Hmax.
  destruct (literal_contains_escapes_Some s r Hr) as [escapes Hesc].
  exists escapes. split; [done|]. split; [by apply LiteralMatches_spec|].
  unfold Scanner.UnescapedLiteralMatches.
  by rewrite (LiteralMatches_spec s r keyword rest false escapes).
Qed.

Lemma Scanner_LiteralMatches_iff_witness :
  let s := Scanner.set_buffers
             (<[Scanner.literal_buffer0_ :=
                  LiteralBuffer.Build true 2 [111; 102; 0; 0]]>
                (fun _ => LiteralBuffer.init))
             (Scanner.set_current_
                (Scanner.Desc Token.IDENTIFIER (Scanner.Loc 0 7)
                   (Some Scanner.literal_buffer0_) None 0)
                (Scanner.fresh (StringStream.make []))) in
  Scanner.LiteralMatches [111; 102; 0] 2 true s = Some true /\
  Scanner.UnescapedLiteralMatches [111; 102; 0] 2 s = Some false.
Proof.
  intros s.
  destruct (Scanner_LiteralMatches_iff s Scanner.literal_buffer0_ [111; 102] [0] true)
    as (escapes & Hesc & Hm & Hu).
  - reflexivity.
  - constructor; [vm_compute; split; discriminate|reflexivity| |discriminate].
    repeat constructor; vm_compute; discriminate.
  - repeat constructor; discriminate.
  - vm_compute. discriminate.
  - injection Hesc as <-. split; [exact Hm|exact Hu].
Defined.

(** Property X17.  [IsGetOrSet(&is_get, &is_set)] on a scanner whose current
    token has a literal.  When the literal is narrow, three characters long
    and free of escapes, [*is_get] says whether it is ["get"] and [*is_set]
    whether it is ["set"], never both; in every other case the two variables
    keep the values they had before the call. *)
Theorem Scanner_IsGetOrSet_spec {X : Type} (s : Scanner.t X)
    (r : Scanner.LiteralBufferRef) (is_get is_set : bool) :
  Scanner.literal_chars (Scanner.current_ s) = Some r ->
  LiteralBuffer.wf (Scanner.buffers s r) ->
  exists escapes,
    Scanner.literal_contains_escapes s = Some escapes /\
    Scanner.IsGetOrSet is_get is_set s
    = Some (if LiteralBuffer.is_one_byte (Scanner.buffers s r)
               && bool_decide (LiteralBuffer.length (Scanner.buffers s r) = 3)
               && negb escapes
            then (bool_decide (LiteralBuffer.chars (Scanner.buffers s r) = [103; 101; 116]),
                  bool_decide (LiteralBuffer.chars (Scanner.buffers s r) = [115; 101; 116]))
            else (is_get, is_set)).
Proof.
  intros Hr Hwf.
  destruct (literal_contains_escapes_Some s r Hr) as [escapes Hesc].
  exists escapes. split; [done|].
  unfold Scanner.IsGetOrSet, Scanner.is_literal_one_byte, Scanner.literal_length,
    Scanner.literal_one_byte_string.
  rewrite Hr, Hesc. cbn [mbind option_bind].
  unfold LiteralBuffer.is_one_byte.
  destruct (LiteralBuffer.is_one_byte_ (Scanner.buffers s r)) eqn:Hone; [|done].
  cbn [andb].
  destruct (decide (_ = 3)) as [Hlen|Hlen]; [|by rewrite bool_decide_false].
  rewrite bool_decide_true by done. cbn [andb].
  destruct escapes; [done|]. cbn [negb].
  rewrite one_byte_literal_chars by done. cbn [mbind option_bind].
  rewrite (length_chars _ Hwf) in Hlen.
  set (token := LiteralBuffer.chars (Scanner.buffers s r)) in *.
  destruct (strncmp_keyword token [103; 101; 116] [0]) as (g & Hg & Hgiff);
    [repeat constructor; discriminate|cbn [List.length]; lia|].
  destruct (strncmp_keyword token [115; 101; 116] [0]) as (t & Ht & Htiff);
    [repeat constructor; discriminate|cbn [List.length]; lia|].
  change (strncmp token Scanner.str_get 3 = Some g) in Hg.
  change (strncmp token Scanner.str_set 3 = Some t) in Ht.
  rewrite Hg. cbn [mbind option_bind].
  rewrite (bool_decide_ext _ _ Hgiff).
  case_bool_decide as Hget; cbn [negb].
  - f_equal. f_equal. rewrite bool_decide_false; [done|]. by rewrite Hget.
  - rewrite Ht. cbn [mbind option_bind]. do 2 f_equal. by apply bool_decide_ext.
Qed.

Lemma Scanner_IsGetOrSet_spec_witness :
  let s := Scanner.set_buffers
             (<[Scanner.literal_buffer0_ :=
                  LiteralBuffer.Build true 3 [115; 101; 116; 0]]>
                (fun _ => LiteralBuffer.init))
             (Scanner.set_current_
                (Scanner.Desc Token.IDENTIFIER (Scanner.Loc 4 7)
                   (Some Scanner.literal_buffer0_) None 0)
                (Scanner.fresh (StringStream.make []))) in
  Scanner.IsGetOrSet true true s = Some (false, true).
Proof.
  intros s.
  destruct (Scanner_IsGetOrSet_spec s Scanner.literal_buffer0_ true true)
    as (escapes & Hesc & Hr).
  - reflexivity.
  - constructor; [vm_compute; split; discriminate|reflexivity| |discriminate].
    repeat constructor; vm_compute; discriminate.
  - injection Hesc as <-. exact Hr.
Defined.

(** ** [Scanner::LiteralScope] *)

(** Property X18.  A [LiteralScope] around the scan of a literal.  Its
    constructor starts the literal of [next_] in a rotation buffer [r]; the
    characters added inside the scope go to [r].  If the scope ends after
    [Complete()], the destructor does nothing and [next_] keeps the literal.
    If it ends before, the destructor drops the literal: [next_] has no
    literal and no raw literal then, so that the accessors of the next literal
    and a further [AddLiteralChar] fail their [DCHECK].  In both cases no
    buffer is changed by the destructor and the current token is as before the
    scope. *)
Theorem Scanner_LiteralScope_guard {X : Type} (s : Scanner.t X) (cs : list Z)
    (complete : bool) (c : Z) :
  Scanner.buffers_ok s ->
  4 * Z.of_nat (List.length cs) <= 2 ^ 27 ->
  let scope := (Scanner.LiteralScope_new s).1 in
  let s1 := (Scanner.LiteralScope_new s).2 in
  exists r s2,
    Scanner.literal_chars (Scanner.next_ s1) = Some r /\
    Scanner.AddLiteralChars cs s1 = Some s2 /\
    let s3 := Scanner.LiteralScope_delete
                (if complete then Scanner.Complete scope else scope) s2 in
    Scanner.buffers s3 = Scanner.buffers s2 /\
    LiteralBuffer.chars (Scanner.buffers s3 r)
      = LiteralBuffer.appended true (to_uint32 <$> cs) /\
    Scanner.current_ s3 = Scanner.current_ s /\
    (forall rc, Scanner.literal_chars (Scanner.current_ s) = Some rc ->
       Scanner.buffers s3 rc = Scanner.buffers s rc) /\
    if complete then
      s3 = s2 /\ Scanner.literal_chars (Scanner.next_ s3) = Some r
    else
      Scanner.literal_chars (Scanner.next_ s3) = None /\
      Scanner.raw_literal_chars (Scanner.next_ s3) = None /\
      Scanner.is_next_literal_one_byte s3 = None /\
      Scanner.next_literal_one_byte_string s3 = None /\
      Scanner.next_literal_contains_escapes s3 = None /\
      Scanner.AddLiteralChar c s3 = None.
Proof.
  intros Hok Hcs scope s1. unfold scope, s1, Scanner.LiteralScope_new. cbn [fst snd].
  clear scope s1.
  set (r := if decide (Scanner.literal_chars (Scanner.current_ s)
                       = Some Scanner.literal_buffer0_)
            then Scanner.literal_buffer1_
            else if decide (Scanner.literal_chars (Scanner.current_ s)
                            = Some Scanner.literal_buffer1_)
                 then Scanner.literal_buffer2_
                 else Scanner.literal_buffer0_).
  assert (Hne : Scanner.literal_chars (Scanner.current_ s) <> Some r).
  { unfold r. repeat case_decide; congruence. }
  set (s1 := Scanner.StartLiteral s).
  assert (Hptr : Scanner.literal_chars (Scanner.next_ s1) = Some r) by done.
  assert (Hb : Scanner.buffers s1 r = LiteralBuffer.Reset (Scanner.buffers s r))
    by apply fn_lookup_insert.
  assert (Hf : forall r', r' <> r -> Scanner.buffers s1 r' = Scanner.buffers s r').
  { intros r' Hr'. unfold s1, Scanner.StartLiteral. fold r.
    cbn [Scanner.buffers Scanner.set_buffers Scanner.set_next_].
    by apply fn_lookup_insert_ne. }
  destruct (Hok r) as [Hwf Hlen].
  destruct (fill_after_Reset r cs s1 _ Hb Hwf Hlen Hcs) as (s2 & Hrun & Hc & Hn & Hf' & Hch).
  exists r, s2. split; [done|]. split; [by rewrite AddLiteralChars_at, Hptr|].
  set (s3 := Scanner.LiteralScope_delete _ s2).
  assert (Hs3 : Scanner.buffers s3 = Scanner.buffers s2 /\
                Scanner.current_ s3 = Scanner.current_ s2).
  { unfold s3, Scanner.LiteralScope_delete. by destruct complete. }
  destruct Hs3 as [Hb3 Hc3].
  split; [done|]. split; [by rewrite Hb3|]. split; [by rewrite Hc3, Hc|].
  split. { intros rc Hrc. rewrite Hb3, Hf', Hf; [done|congruence..]. }
  unfold s3, Scanner.LiteralScope_delete. destruct complete; cbn [Scanner.complete_ Scanner.Complete negb].
  - split; [done|]. by rewrite Hn.
  - unfold Scanner.is_next_literal_one_byte, Scanner.next_literal_one_byte_string,
      Scanner.next_literal_contains_escapes, Scanner.LiteralContainsEscapes,
      Scanner.AddLiteralChar, Scanner.AddChar_at, Scanner.DropLiteral.
    cbn [Scanner.next_ Scanner.set_next_ Scanner.literal_chars Scanner.raw_literal_chars
         Scanner.set_literal_chars Scanner.set_raw_literal_chars mbind option_bind].
    done.
Qed.

Lemma Scanner_LiteralScope_guard_witness :
  let s := Scanner.sample (StringStream.make []) in
  let s1 := (Scanner.LiteralScope_new s).2 in
  exists s2,
    Scanner.AddLiteralChars [104; 105] s1 = Some s2 /\
    Scanner.literal_chars
      (Scanner.next_ (Scanner.LiteralScope_delete (Scanner.LiteralScope_new s).1 s2))
    = None.
Proof.
  intros s s1.
  destruct (Scanner_LiteralScope_guard s [104; 105] false 0)
    as (r & s2 & _ & Hrun & _ & _ & _ & _ & Hnone & _).
  - apply Scanner_fresh_buffers_ok.
  - vm_compute. discriminate.
  - exists s2. split; [exact Hrun|exact Hnone].
Defined.
